(** * JobSync: the HR dashboard chart endpoint

    A shallow embedding of [src/app/api/hr/dashboard/charts/route.ts]
    (the [GET] handler of [/api/hr/dashboard/charts]) together with the
    properties its specification states about it.

    Layout:
    - [Js]      the JavaScript primitives the handler relies on (truthiness,
                number-to-string, [padStart], [localeCompare], the stable
                [Array.prototype.sort], [slice], and plain objects used as
                string-keyed records);
    - the Supabase client as the handler sees it: every call either
      rejects (throws) or resolves to a [{ data, error }] pair;
    - the handler itself, written in a small trace-and-exception monad;
    - [Store]   an in-memory data store answering the handler's queries;
    - the theorems. *)

From Stdlib Require Import ZArith List String Ascii Bool Lia.
From Stdlib Require Import DecimalString Permutation Sorted OrderedTypeEx.
Import ListNotations.

Local Open Scope Z_scope.
Local Open Scope string_scope.

(* ================================================================== *)
(** ** JavaScript primitives *)
(* ================================================================== *)

Module Js.

(** *** [||] on nullable strings

    [null], [undefined] and the empty string are falsy; every other string
    is truthy.  [or_else a d] is [a || d] for a string [d]. *)

Definition or_else (a : option string) (d : string) : string :=
  match a with
  | Some s => if s =? "" then d else s
  | None => d
  end.

(** *** Numbers

    Only integers and [NaN] occur: the calendar fields of a [Date] and
    counters.  Counters stay far below 2^53, where doubles are exact, and
    [String(n)] writes such integers in plain decimal. *)

Inductive Num :=
| NaN
| Int (z : Z).

Definition add (a b : Num) : Num :=
  match a, b with
  | Int x, Int y => Int (x + y)
  | _, _ => NaN
  end.

(** [String(n)] *)
Definition String_of (n : Num) : string :=
  match n with
  | NaN => "NaN"
  | Int z => NilZero.string_of_int (Z.to_int z)
  end.

(** *** [String.prototype.padStart] *)

Fixpoint repeat_to (fuel : nat) (pad : string) (n : nat) : string :=
  match fuel with
  | O => ""
  | S fuel' =>
      if (n <=? String.length pad)%nat then substring 0 n pad
      else pad ++ repeat_to fuel' pad (n - String.length pad)
  end.

Definition padStart (s : string) (targetLength : nat) (padString : string) : string :=
  if (targetLength <=? String.length s)%nat then s
  else if padString =? "" then s
  else repeat_to targetLength padString (targetLength - String.length s) ++ s.

(** *** [String.prototype.includes] *)

Fixpoint includes (searchString s : string) : bool :=
  prefix searchString s
  || match s with
     | EmptyString => false
     | String _ s' => includes searchString s'
     end.

(** *** [String.prototype.localeCompare]

    The handler only compares month keys, which are built from decimal
    digits, ['-'] and the three letters of ["NaN"].  On that alphabet the
    collation order is the code-unit order, which is what [String.compare]
    computes.  The result is a negative, zero or positive number. *)

Definition localeCompare (a b : string) : Z :=
  match String.compare a b with
  | Lt => -1
  | Eq => 0
  | Gt => 1
  end.

(** *** [Array.prototype.sort]

    The sort is stable.  For a consistent comparator the result is the
    unique stable arrangement, computed here by insertion from the right:
    an element is placed before the first element it does not sort
    after. *)

Section Sort.
Context {A : Type}.
Variable compareFn : A -> A -> Z.

Fixpoint insert (x : A) (l : list A) : list A :=
  match l with
  | [] => [x]
  | y :: l' => if (compareFn x y <=? 0)%Z then x :: y :: l' else y :: insert x l'
  end.

Definition sort (l : list A) : list A := fold_right insert [] l.

(** [before x y]: the comparator lets [x] stand before [y]. *)
Definition before (x y : A) : Prop := (compareFn x y <= 0)%Z.
End Sort.

(** *** [Array.prototype.slice]

    [slice_from_end n] is [slice(-n)] and [slice_to n] is [slice(0, n)]. *)

Definition slice_from_end {A} (n : nat) (l : list A) : list A :=
  skipn (List.length l - n) l.

Definition slice_to {A} (n : nat) (l : list A) : list A := firstn n l.

(** *** Plain objects used as records keyed by strings

    An object literal [{}] has no own properties and inherits the members
    of [Object.prototype].  Own properties are kept in creation order;
    assignment to an existing key keeps its position. *)

Definition Object (V : Type) : Type := list (string * V).

Definition empty {V} : Object V := [].

Definition keys {V} (o : Object V) : list string := map fst o.

Fixpoint lookup {V} (k : string) (o : Object V) : option V :=
  match o with
  | [] => None
  | (k', v) :: o' => if k' =? k then Some v else lookup k o'
  end.

(** [o[k] = v] *)
Fixpoint set {V} (k : string) (v : V) (o : Object V) : Object V :=
  match o with
  | [] => [(k, v)]
  | (k', v') :: o' => if k' =? k then (k', v) :: o' else (k', v') :: set k v o'
  end.

(** In-place mutation of the object stored under [k]; nothing happens to
    [o] when [k] is not an own key. *)
Fixpoint update {V} (k : string) (f : V -> V) (o : Object V) : Object V :=
  match o with
  | [] => []
  | (k', v') :: o' => if k' =? k then (k', f v') :: o' else (k', v') :: update k f o'
  end.

(** The property names every object literal inherits; each of them reads
    as a function or an object, hence truthy. *)
Definition Object_prototype : list string :=
  [ "constructor"; "__defineGetter__"; "__defineSetter__"; "hasOwnProperty";
    "__lookupGetter__"; "__lookupSetter__"; "isPrototypeOf";
    "propertyIsEnumerable"; "toString"; "valueOf"; "__proto__";
    "toLocaleString" ].

Definition inherited (k : string) : bool :=
  existsb (String.eqb k) Object_prototype.

(** Array indices: the canonical decimal spelling of an integer in
    [0, 2^32 - 2]. *)

Definition digit_of (c : ascii) : option Z :=
  let n := Z.of_N (N_of_ascii c) in
  if ((48 <=? n) && (n <=? 57))%Z then Some (n - 48) else None.

Fixpoint parse_digits (acc : Z) (s : string) : option Z :=
  match s with
  | EmptyString => Some acc
  | String c s' =>
      match digit_of c with
      | Some d => parse_digits (10 * acc + d) s'
      | None => None
      end
  end.

Definition array_index (k : string) : option Z :=
  match k with
  | EmptyString => None
  | _ =>
      match parse_digits 0 k with
      | Some n =>
          if (String_of (Int n) =? k) && (n <? 2 ^ 32 - 1)%Z then Some n else None
      | None => None
      end
  end.

Definition is_array_index (k : string) : bool :=
  match array_index k with Some _ => true | None => false end.

Definition index_of (k : string) : Z :=
  match array_index k with Some n => n | None => 0 end.

(** [Object.entries]: own keys that are array indices come first, in
    ascending numeric order; the remaining keys follow in creation
    order. *)
Definition entries {V} (o : Object V) : list (string * V) :=
  sort (fun a b => index_of (fst a) - index_of (fst b))
       (filter (fun p => is_array_index (fst p)) o)
  ++ filter (fun p => negb (is_array_index (fst p))) o.

(** [Object.values] *)
Definition values {V} (o : Object V) : list V := map snd (entries o).

End Js.

(* ================================================================== *)
(** ** The data the handler exchanges with its collaborators *)
(* ================================================================== *)

(** A value thrown by a collaborator: [null] or [undefined], of which no
    property can be read, or any other value, whose [message] may be
    missing. *)
Inductive Thrown :=
| Null
| Undefined
| Value (thrown_message : option string).

(** The [TypeError] thrown on reading [property] of [null] or
    [undefined]. *)
Definition TypeError (nullish property : string) : Thrown :=
  Value (Some ("Cannot read properties of " ++ nullish
               ++ " (reading '" ++ property ++ "')")).

(** What awaiting a call gives: the promise resolves, or it rejects. *)
Inductive Outcome (A : Type) :=
| Resolved (a : A)
| Rejected (reason : Thrown).
Arguments Resolved {A} a.
Arguments Rejected {A} reason.

(** The error object of a store response. *)
Record PostgrestError := {
  message : option string;
  details : option string;
  hint : option string;
  code : option string
}.

(** The [{ data, error }] pair every store query resolves to. *)
Record PostgrestResponse (A : Type) := {
  data : option A;
  error : option PostgrestError
}.
Arguments data {A} _.
Arguments error {A} _.

Record User := { user_id : string }.

(** [{ data: { user }, error }] of [auth.getUser()]. *)
Record UserResponse := {
  user : option User;
  authError : option PostgrestError
}.

(** A stored timestamp: its place on the time line, which is what the
    store orders by, and the calendar fields [new Date(created_at)] shows
    on the server ([None] for an Invalid Date, whose getters give NaN).
    [getMonth] counts from 0. *)
Record Timestamp := {
  instant : Z;
  local : option (Z * Z)
}.

Record JsDate := { date_fields : option (Z * Z) }.

Definition Date_new (t : Timestamp) : JsDate := {| date_fields := local t |}.

Definition getFullYear (d : JsDate) : Js.Num :=
  match date_fields d with
  | Some (y, _) => Js.Int y
  | None => Js.NaN
  end.

Definition getMonth (d : JsDate) : Js.Num :=
  match date_fields d with
  | Some (_, m) => Js.Int m
  | None => Js.NaN
  end.

(** Row shapes of the four selections. *)
Record ProfileRow := { role : string }.
Record JobIdRow := { id : string }.
Record CreatedAtRow := { created_at : Timestamp }.
Record JobsEmbed := { title : option string }.
Record ApplicationJobRow := {
  job_id : option string;
  jobs : option JobsEmbed
}.

(** The queries the handler can issue, with the filters it puts on them. *)
Inductive Query :=
| AuthGetUser
| ProfilesSelectRole (eq_id : string)
| JobsSelectId (eq_created_by : string)
| ApplicationsSelectCreatedAt (in_job_id : option (list string))
| ApplicationsSelectJobTitle (in_job_id : option (list string)).

Definition on_applications (q : Query) : bool :=
  match q with
  | ApplicationsSelectCreatedAt _ | ApplicationsSelectJobTitle _ => true
  | _ => false
  end.

(** The Supabase client: what each awaited call gives back. *)
Record SupabaseClient := {
  auth_getUser : Outcome UserResponse;
  profiles_select_role :
    string -> Outcome (PostgrestResponse ProfileRow);
  jobs_select_id :
    string -> Outcome (PostgrestResponse (list JobIdRow));
  applications_select_created_at :
    option (list string) -> Outcome (PostgrestResponse (list CreatedAtRow));
  applications_select_job_title :
    option (list string) -> Outcome (PostgrestResponse (list ApplicationJobRow))
}.

(** [request.nextUrl.searchParams] *)
Record NextRequest := { searchParams : list (string * string) }.

Fixpoint searchParams_get (ps : list (string * string)) (name : string)
  : option string :=
  match ps with
  | [] => None
  | (k, v) :: ps' => if k =? name then Some v else searchParams_get ps' name
  end.

(** Aggregate rows. *)
Module MonthRow.
Record t := mk { month : string; count : Z }.
End MonthRow.

Module JobRow.
Record t := mk { job_id : string; job_title : string; count : Z }.
End JobRow.

Inductive AggregateRow :=
| Monthly (r : MonthRow.t)
| ByJob (r : JobRow.t).

(** The JSON body: [{ success: true, data }] or
    [{ success: false, error, code? }]. *)
Inductive Body :=
| Success (rows : list AggregateRow)
| Failure (error_text : string) (error_code : option string).

Definition success (b : Body) : bool :=
  match b with
  | Success _ => true
  | Failure _ _ => false
  end.

Record NextResponse := { status : Z; body : Body }.

(** [NextResponse.json(body, { status })]; the status defaults to 200. *)
Definition json (b : Body) (init : option Z) : NextResponse :=
  {| status := match init with Some s => s | None => 200 end; body := b |}.

(* ================================================================== *)
(** ** Awaiting calls: a trace of the queries issued, and rejection *)
(* ================================================================== *)

Definition M (A : Type) : Type := list Query * Outcome A.

Definition ret {A} (a : A) : M A := ([], Resolved a).

Definition bind {A B} (m : M A) (k : A -> M B) : M B :=
  match m with
  | (t, Resolved a) => let (t', r) := k a in (t ++ t', r)%list
  | (t, Rejected e) => (t, Rejected e)
  end.

(** Awaiting a query records it and continues with what it gave. *)
Definition await {A} (q : Query) (o : Outcome A) : M A := ([q], o).

(** Awaiting something that is not a query. *)
Definition settle {A} (o : Outcome A) : M A := ([], o).

Notation "x <- m ;; k" := (bind m (fun x => k))
  (at level 61, m at next level, right associativity).

(* ================================================================== *)
(** ** The two aggregations *)
(* ================================================================== *)

Definition monthKey (date : JsDate) : string :=
  Js.String_of (getFullYear date) ++ "-"
  ++ Js.padStart (Js.String_of (Js.add (getMonth date) (Js.Int 1))) 2 "0".

(** [(monthCounts[monthKey] || 0) + 1]; a month key contains ['-'], so it
    never names a member of [Object.prototype]. *)
Definition bump (monthCounts : Js.Object Z) (k : string) : Z :=
  match Js.lookup k monthCounts with
  | Some n => (if (n =? 0)%Z then 0 else n) + 1
  | None => 0 + 1
  end.

(** [applications?.forEach]: nothing is visited when the data is [null]. *)
Definition fetched {A} (applications : option (list A)) : list A :=
  match applications with
  | Some apps => apps
  | None => []
  end.

(** The callback of the monthly [forEach]. *)
Definition tallyMonth (monthCounts : Js.Object Z) (app : CreatedAtRow) : Js.Object Z :=
  let date := Date_new (created_at app) in
  let monthKey := monthKey date in
  Js.set monthKey (bump monthCounts monthKey) monthCounts.

Definition monthCounts (applications : option (list CreatedAtRow)) : Js.Object Z :=
  fold_left tallyMonth (fetched applications) Js.empty.

(** [(a, b) => a.month.localeCompare(b.month)] *)
Definition byMonth (a b : MonthRow.t) : Z :=
  Js.localeCompare (MonthRow.month a) (MonthRow.month b).

(** [Object.entries(monthCounts).map(...).sort(...)], the chain up to the
    final [.slice(-12)]. *)
Definition monthlySorted (applications : option (list CreatedAtRow)) : list MonthRow.t :=
  Js.sort byMonth
    (map (fun '(month, count) => MonthRow.mk month count)
       (Js.entries (monthCounts applications))).

Definition monthlyData (applications : option (list CreatedAtRow)) : list MonthRow.t :=
  Js.slice_from_end 12 (monthlySorted applications).

(** [app.jobs?.title] *)
Definition jobs_title (app : ApplicationJobRow) : option string :=
  match jobs app with
  | Some j => title j
  | None => None
  end.

Definition jobTitle (app : ApplicationJobRow) : string :=
  Js.or_else (jobs_title app) "Unknown Job".

Definition jobId (app : ApplicationJobRow) : string :=
  Js.or_else (job_id app) "unknown".

(** [!jobCounts[jobId]]: an own entry is an object and a member of
    [Object.prototype] is a function or an object, all truthy. *)
Definition missing (jobCounts : Js.Object JobRow.t) (k : string) : bool :=
  match Js.lookup k jobCounts with
  | Some _ => false
  | None => negb (Js.inherited k)
  end.

Definition increment (r : JobRow.t) : JobRow.t :=
  JobRow.mk (JobRow.job_id r) (JobRow.job_title r) (JobRow.count r + 1).

(** The callback of the by-job [forEach]. *)
Definition tallyJob (jobCounts : Js.Object JobRow.t) (app : ApplicationJobRow)
  : Js.Object JobRow.t :=
  let jobTitle := jobTitle app in
  let jobId := jobId app in
  let jobCounts :=
    if missing jobCounts jobId
    then Js.set jobId (JobRow.mk jobId jobTitle 0) jobCounts
    else jobCounts in
  Js.update jobId increment jobCounts.

Definition jobCounts (applications : option (list ApplicationJobRow))
  : Js.Object JobRow.t :=
  fold_left tallyJob (fetched applications) Js.empty.

(** [(a, b) => b.count - a.count] *)
Definition byCountDescending (a b : JobRow.t) : Z := JobRow.count b - JobRow.count a.

(** [Object.values(jobCounts).sort(...)], the chain up to the final
    [.slice(0, 10)]. *)
Definition jobsSorted (applications : option (list ApplicationJobRow)) : list JobRow.t :=
  Js.sort byCountDescending
    (Js.values (jobCounts applications)).

Definition jobData (applications : option (list ApplicationJobRow)) : list JobRow.t :=
  Js.slice_to 10 (jobsSorted applications).

(* ================================================================== *)
(** ** The handler *)
(* ================================================================== *)

(** [error.message || error.details || fallback] *)
Definition errorMessage (e : PostgrestError) (fallback : string) : string :=
  Js.or_else (message e) (Js.or_else (details e) fallback).

(** The 500 envelope of a failed store call.  The [console.error] that
    precedes it writes to the server log only. *)
Definition store_failure (e : PostgrestError) (fallback : string) : NextResponse :=
  json (Failure (errorMessage e fallback)
                (Some (Js.or_else (code e) "UNKNOWN_ERROR")))
       (Some 500).

(** [if (!isAdmin && jobIds.length > 0) query = query.in('job_id', jobIds)]:
    the filter put on the applications query. *)
Definition in_job_ids (isAdmin : bool) (jobIds : list string) : option (list string) :=
  if negb isAdmin && (0 <? List.length jobIds)%nat then Some jobIds else None.

(** Step 5: the [switch] on the chart type. *)
Definition charts (supabase : SupabaseClient) (isAdmin : bool)
    (jobIds : list string) (chartType : string) : M NextResponse :=
  if chartType =? "monthly" then
    let query := in_job_ids isAdmin jobIds in
    r <- await (ApplicationsSelectCreatedAt query)
               (applications_select_created_at supabase query) ;;
    match error r with
    | Some e => ret (store_failure e "Failed to fetch applications")
    | None => ret (json (Success (map Monthly (monthlyData (data r)))) None)
    end
  else if chartType =? "by-job" then
    let query := in_job_ids isAdmin jobIds in
    r <- await (ApplicationsSelectJobTitle query)
               (applications_select_job_title supabase query) ;;
    match error r with
    | Some e => ret (store_failure e "Failed to fetch job data")
    | None => ret (json (Success (map ByJob (jobData (data r)))) None)
    end
  else
    ret (json (Failure ("Invalid chart type: " ++ chartType
                        ++ ". Supported types: monthly, by-job") None)
              (Some 400)).

(** Step 4: the caller's job ids, or the response that ends the request. *)
Definition scope (supabase : SupabaseClient) (isAdmin : bool) (user : User)
  : M (NextResponse + list string) :=
  if negb isAdmin then
    r <- await (JobsSelectId (user_id user)) (jobs_select_id supabase (user_id user)) ;;
    match error r with
    | Some jobsError => ret (inl (store_failure jobsError "Failed to fetch jobs"))
    | None =>
        let jobIds := match data r with Some jobs => map id jobs | None => [] end in
        if (List.length jobIds =? 0)%nat
        then ret (inl (json (Success []) None))
        else ret (inr jobIds)
    end
  else ret (inr []).

(** The body of the [try] block. *)
Definition handler (createClient : Outcome SupabaseClient) (request : NextRequest)
  : M NextResponse :=
  supabase <- settle createClient ;;
  (* 1. Verify authentication *)
  auth <- await AuthGetUser (auth_getUser supabase) ;;
  match authError auth, user auth with
  | None, Some user =>
      (* 2. Get user profile and verify HR/ADMIN role *)
      p <- await (ProfilesSelectRole (user_id user))
                 (profiles_select_role supabase (user_id user)) ;;
      match error p, data p with
      | None, Some profile =>
          if negb (role profile =? "HR") && negb (role profile =? "ADMIN") then
            ret (json (Failure "Forbidden: HR or ADMIN role required" None) (Some 403))
          else
            (* 3. Get chart type from query params *)
            let chartType := searchParams_get (searchParams request) "type" in
            (* [!chartType]: [null] or the empty string *)
            match chartType with
            | Some chartType =>
                if chartType =? "" then
                  ret (json (Failure "Missing required parameter: type" None) (Some 400))
                else
                  let isAdmin := role profile =? "ADMIN" in
                  s <- scope supabase isAdmin user ;;
                  match s with
                  | inl response => ret response
                  | inr jobIds => charts supabase isAdmin jobIds chartType
                  end
            | None =>
                ret (json (Failure "Missing required parameter: type" None) (Some 400))
            end
      | _, _ => ret (json (Failure "Profile not found" None) (Some 404))
      end
  | _, _ => ret (json (Failure "Unauthorized" None) (Some 401))
  end.

(** The [catch] block.  It reads [error.message]: when the value caught is
    [null] or [undefined] that read throws in its turn, and nothing
    catches it. *)
Definition catch (o : Outcome NextResponse) : Outcome NextResponse :=
  match o with
  | Resolved response => Resolved response
  | Rejected Null => Rejected (TypeError "null" "message")
  | Rejected Undefined => Rejected (TypeError "undefined" "message")
  | Rejected (Value message) =>
      Resolved (json (Failure (Js.or_else message "Internal server error") None)
                     (Some 500))
  end.

(** The handler: the queries it issued, and the response it resolves to
    or the fault it rejects with. *)
Definition GET (createClient : Outcome SupabaseClient) (request : NextRequest)
  : list Query * Outcome NextResponse :=
  let (issued, o) := handler createClient request in (issued, catch o).

(* ================================================================== *)
(** ** An in-memory data store behind the client *)
(* ================================================================== *)

Module Store.

Record Profile := { profiles_id : string; profiles_role : string }.

Record Job := {
  jobs_id : string;
  jobs_title : option string;
  jobs_created_by : string
}.

Record Application := {
  applications_job_id : option string;
  applications_created_at : Timestamp
}.

Record t := {
  from_profiles : list Profile;
  from_jobs : list Job;
  from_applications : list Application
}.

Definition no_rows : PostgrestError :=
  {| message := Some "JSON object requested, multiple (or no) rows returned";
     details := None; hint := None; code := Some "PGRST116" |}.

Definition no_session : PostgrestError :=
  {| message := Some "Auth session missing!";
     details := None; hint := None; code := None |}.

(** [from('profiles').select('role').eq('id', uid).single()] *)
Definition select_role (db : t) (uid : string) : PostgrestResponse ProfileRow :=
  match filter (fun p => profiles_id p =? uid) (from_profiles db) with
  | [p] => {| data := Some {| role := profiles_role p |}; error := None |}
  | _ => {| data := None; error := Some no_rows |}
  end.

(** [from('jobs').select('id').eq('created_by', uid)] *)
Definition owned (db : t) (uid : string) : list Job :=
  filter (fun j => jobs_created_by j =? uid) (from_jobs db).

Definition select_job_ids (db : t) (uid : string) : PostgrestResponse (list JobIdRow) :=
  {| data := Some (map (fun j => {| id := jobs_id j |}) (owned db uid));
     error := None |}.

(** [.in('job_id', jobIds)], when the handler applies it. *)
Definition job_id_in (jobIds : option (list string)) (a : Application) : bool :=
  match jobIds with
  | None => true
  | Some ids =>
      match applications_job_id a with
      | Some j => existsb (String.eqb j) ids
      | None => false
      end
  end.

(** [.order('created_at', { ascending: false })] *)
Definition order_by_created_at_desc (rows : list Application) : list Application :=
  Js.sort (fun a b => instant (applications_created_at b)
                      - instant (applications_created_at a)) rows.

(** [from('applications').select('created_at').order(...)] *)
Definition select_created_at (db : t) (jobIds : option (list string))
  : PostgrestResponse (list CreatedAtRow) :=
  {| data := Some (map (fun a => {| created_at := applications_created_at a |})
                     (order_by_created_at_desc
                        (filter (job_id_in jobIds) (from_applications db))));
     error := None |}.

(** The embedded resource [jobs:job_id (title)]: the job the foreign key
    points to, or [null]. *)
Definition embed_job (db : t) (a : Application) : option JobsEmbed :=
  match applications_job_id a with
  | Some j =>
      match find (fun job => jobs_id job =? j) (from_jobs db) with
      | Some job => Some {| title := jobs_title job |}
      | None => None
      end
  | None => None
  end.

(** [from('applications').select('job_id, jobs:job_id (title)')] *)
Definition select_job_title (db : t) (jobIds : option (list string))
  : PostgrestResponse (list ApplicationJobRow) :=
  {| data := Some (map (fun a => {| job_id := applications_job_id a;
                                    jobs := embed_job db a |})
                     (filter (job_id_in jobIds) (from_applications db)));
     error := None |}.

(** The caller's own job ids, and the applications filed under them. *)
Definition own_job_ids (db : t) (uid : string) : list string :=
  map jobs_id (owned db uid).

Definition own_applications (db : t) (uid : string) : list Application :=
  filter (job_id_in (Some (own_job_ids db uid))) (from_applications db).

(** The store cut down to what belongs to [uid]: the profiles, the
    caller's jobs and the applications to them. *)
Definition restrict (db : t) (uid : string) : t :=
  {| from_profiles := from_profiles db;
     from_jobs := owned db uid;
     from_applications := own_applications db uid |}.

(** [jobs.id] is a primary key. *)
Definition job_ids_unique (db : t) : Prop := NoDup (map jobs_id (from_jobs db)).

(** The profile of [uid] carries role [r]. *)
Definition has_role (db : t) (uid r : string) : Prop :=
  select_role db uid = {| data := Some {| role := r |}; error := None |}.

(** A client of a healthy store, for the session of [session]. *)
Definition client (session : option User) (db : t) : SupabaseClient :=
  {| auth_getUser :=
       Resolved {| user := session;
                   authError := match session with
                                | Some _ => None
                                | None => Some no_session
                                end |};
     profiles_select_role := fun uid => Resolved (select_role db uid);
     jobs_select_id := fun uid => Resolved (select_job_ids db uid);
     applications_select_created_at := fun f => Resolved (select_created_at db f);
     applications_select_job_title := fun f => Resolved (select_job_title db f) |}.

End Store.

(* ================================================================== *)
(** ** Vocabulary of the statements *)
(* ================================================================== *)

(** The month key of a fetched row. *)
Definition monthOf (app : CreatedAtRow) : string :=
  monthKey (Date_new (created_at app)).

(** How many of the fetched rows fall in month [k]. *)
Definition applications_in (k : string) (apps : list CreatedAtRow) : Z :=
  Z.of_nat (List.length (filter (fun a => monthOf a =? k) apps)).

(** How many of the fetched rows are grouped under job id [k]. *)
Definition applications_for (k : string) (apps : list ApplicationJobRow) : Z :=
  Z.of_nat (List.length (filter (fun a => jobId a =? k) apps)).

(** The first fetched row grouped under job id [k]. *)
Definition first_for (k : string) (apps : list ApplicationJobRow)
  : option ApplicationJobRow :=
  find (fun a => jobId a =? k) apps.

(** The caller has a session and a profile carrying role [r]. *)
Definition authorised (supabase : SupabaseClient) (caller : User) (r : string) : Prop :=
  auth_getUser supabase = Resolved {| user := Some caller; authError := None |}
  /\ profiles_select_role supabase (user_id caller)
     = Resolved {| data := Some {| role := r |}; error := None |}.

(** The request gets as far as the [switch]: an ADMIN with a chart type,
    or an HR caller with a chart type whose jobs query gave at least one
    job.  The last index lists the queries issued on the way. *)
Inductive reaches_charts (supabase : SupabaseClient) (request : NextRequest)
  : bool -> list string -> string -> list Query -> Prop :=
| admin_reaches caller chartType :
    authorised supabase caller "ADMIN" ->
    searchParams_get (searchParams request) "type" = Some chartType ->
    chartType <> "" ->
    reaches_charts supabase request true [] chartType
      [AuthGetUser; ProfilesSelectRole (user_id caller)]
| hr_reaches caller chartType job jobs :
    authorised supabase caller "HR" ->
    searchParams_get (searchParams request) "type" = Some chartType ->
    chartType <> "" ->
    jobs_select_id supabase (user_id caller)
    = Resolved {| data := Some (job :: jobs); error := None |} ->
    reaches_charts supabase request false (map id (job :: jobs)) chartType
      [AuthGetUser; ProfilesSelectRole (user_id caller);
       JobsSelectId (user_id caller)].

(** A monthly request whose applications query gave [applications]. *)
Inductive monthly_request (supabase : SupabaseClient) (request : NextRequest)
    (isAdmin : bool) (applications : option (list CreatedAtRow)) : Prop :=
| monthly_fetch jobIds issued r :
    reaches_charts supabase request isAdmin jobIds "monthly" issued ->
    applications_select_created_at supabase (in_job_ids isAdmin jobIds) = Resolved r ->
    error r = None ->
    data r = applications ->
    monthly_request supabase request isAdmin applications.

(** A by-job request whose applications query gave [applications]. *)
Inductive by_job_request (supabase : SupabaseClient) (request : NextRequest)
    (isAdmin : bool) (applications : option (list ApplicationJobRow)) : Prop :=
| by_job_fetch jobIds issued r :
    reaches_charts supabase request isAdmin jobIds "by-job" issued ->
    applications_select_job_title supabase (in_job_ids isAdmin jobIds) = Resolved r ->
    error r = None ->
    data r = applications ->
    by_job_request supabase request isAdmin applications.

(** The grouping key and the count of an aggregate row. *)
Definition row_key (r : AggregateRow) : string :=
  match r with
  | Monthly m => MonthRow.month m
  | ByJob j => JobRow.job_id j
  end.

Definition row_count (r : AggregateRow) : Z :=
  match r with
  | Monthly m => MonthRow.count m
  | ByJob j => JobRow.count j
  end.

(** The response the specification asks for when [type] is absent or not
    a chart type: status 400, [success: false], and a message naming the
    value received and the supported set. *)
Definition invalid_parameter (chartType : option string) (r : NextResponse) : Prop :=
  status r = 400
  /\ exists text c,
       body r = Failure text c
       /\ (forall v, chartType = Some v -> Js.includes v text = true)
       /\ Js.includes "monthly" text = true
       /\ Js.includes "by-job" text = true.


(** The status codes of the endpoint. *)
Definition status_codes : list Z := [200; 400; 401; 403; 404; 500].

(** The order of month keys: [earlier a b] when [a] sorts strictly before
    [b]. *)
Definition earlier (a b : string) : Prop := String.compare a b = Lt.

(** The distinct month keys among the fetched rows. *)
Definition distinct_months (apps : list CreatedAtRow) : list string :=
  nodup string_dec (map monthOf apps).

(** [rows] has exactly one row per distinct month key present among
    [apps], each counting the rows of its month. *)
Definition one_row_per_month (apps : list CreatedAtRow) (rows : list MonthRow.t) : Prop :=
  NoDup (map MonthRow.month rows)
  /\ (forall k, In k (map MonthRow.month rows) <-> exists a, In a apps /\ monthOf a = k)
  /\ (forall r, In r rows -> MonthRow.count r = applications_in (MonthRow.month r) apps).

(** The row's timestamp shows year [y] and month index [m] on the server,
    the year written with four digits. *)
Definition in_calendar (app : CreatedAtRow) (y m : Z) : Prop :=
  local (created_at app) = Some (y, m)
  /\ 1000 <= y <= 9999 /\ 0 <= m <= 11.

(** [p] holds of the [fuel] integers from [n] on. *)
Fixpoint all_from (fuel : nat) (n : Z) (p : Z -> bool) : bool :=
  match fuel with
  | O => true
  | S fuel' => p n && all_from fuel' (n + 1) p
  end.

Definition is_Lt (c : comparison) : bool :=
  match c with Lt => true | _ => false end.

Definition same_comparison (c d : comparison) : bool :=
  match c, d with
  | Lt, Lt | Eq, Eq | Gt, Gt => true
  | _, _ => false
  end.

(** The two parts of a month key. *)
Definition year_text (y : Z) : string := Js.String_of (Js.Int y).

Definition month_text (m : Z) : string :=
  "-" ++ Js.padStart (Js.String_of (Js.add (Js.Int m) (Js.Int 1))) 2 "0".

(** The position at which job id [k] is first met among the fetched
    rows. *)
Fixpoint first_seen (k : string) (apps : list ApplicationJobRow) : nat :=
  match apps with
  | [] => O
  | a :: apps' => if jobId a =? k then O else S (first_seen k apps')
  end.

(** Rows with equal counts stand in the order their job ids were first
    met. *)
Definition ties_keep_first_seen (apps : list ApplicationJobRow)
    (rows : list JobRow.t) : Prop :=
  forall i j a b,
    nth_error rows i = Some a -> nth_error rows j = Some b -> (i < j)%nat ->
    JobRow.count a = JobRow.count b ->
    (first_seen (JobRow.job_id a) apps < first_seen (JobRow.job_id b) apps)%nat.

(** The order [Object.values] puts on two groups: array-index job ids
    first, by ascending index; the other ids in the order first met. *)
Definition enumerated_before (apps : list ApplicationJobRow) (a b : JobRow.t) : Prop :=
  match Js.array_index (JobRow.job_id a), Js.array_index (JobRow.job_id b) with
  | Some m, Some n => m < n
  | Some _, None => True
  | None, Some _ => False
  | None, None =>
      (first_seen (JobRow.job_id a) apps < first_seen (JobRow.job_id b) apps)%nat
  end.

(** [a] stands before [b] in a list. *)
Inductive precedes {A : Type} (a b : A) : list A -> Prop :=
| precedes_here l : In b l -> precedes a b (a :: l)
| precedes_later x l : precedes a b l -> precedes a b (x :: l).

(* ================================================================== *)
(** ** Sample data *)
(* ================================================================== *)

Definition admin : User := {| user_id := "u-admin" |}.
Definition recruiter : User := {| user_id := "u-hr" |}.
Definition newcomer : User := {| user_id := "u-new" |}.

Definition at_month (i y m : Z) : Timestamp :=
  {| instant := i; local := Some (y, m) |}.

Definition application (job : string) (t : Timestamp) : Store.Application :=
  {| Store.applications_job_id := Some job; Store.applications_created_at := t |}.

Definition sample_profiles : list Store.Profile :=
  [ {| Store.profiles_id := "u-admin"; Store.profiles_role := "ADMIN" |};
    {| Store.profiles_id := "u-hr"; Store.profiles_role := "HR" |};
    {| Store.profiles_id := "u-new"; Store.profiles_role := "HR" |} ].

Definition sample_jobs : list Store.Job :=
  [ {| Store.jobs_id := "job-a"; Store.jobs_title := Some "Engineer";
       Store.jobs_created_by := "u-hr" |};
    {| Store.jobs_id := "job-b"; Store.jobs_title := Some "Designer";
       Store.jobs_created_by := "u-other" |} ].

(** Three applications in January 2024 and one in February. *)
Definition sample_db : Store.t :=
  {| Store.from_profiles := sample_profiles;
     Store.from_jobs := sample_jobs;
     Store.from_applications :=
       [ application "job-a" (at_month 10 2024 0);
         application "job-b" (at_month 20 2024 0);
         application "job-a" (at_month 30 2024 0);
         application "job-a" (at_month 40 2024 1) ] |}.

(** The same store after two more applications to somebody else's job. *)
Definition busier_db : Store.t :=
  {| Store.from_profiles := sample_profiles;
     Store.from_jobs := sample_jobs;
     Store.from_applications :=
       [ application "job-b" (at_month 5 2023 11);
         application "job-a" (at_month 10 2024 0);
         application "job-b" (at_month 20 2024 0);
         application "job-a" (at_month 30 2024 0);
         application "job-b" (at_month 35 2024 1);
         application "job-a" (at_month 40 2024 1) ] |}.

(** Job A with five applications, job B with two. *)
Definition ranked_db : Store.t :=
  {| Store.from_profiles := sample_profiles;
     Store.from_jobs := sample_jobs;
     Store.from_applications :=
       [ application "job-b" (at_month 1 2024 0);
         application "job-a" (at_month 2 2024 0);
         application "job-a" (at_month 3 2024 0);
         application "job-b" (at_month 4 2024 1);
         application "job-a" (at_month 5 2024 1);
         application "job-a" (at_month 6 2024 1);
         application "job-a" (at_month 7 2024 2) ] |}.

(** One application in each of the fourteen months from January 2023 to
    February 2024. *)
Definition fourteen_months_db : Store.t :=
  {| Store.from_profiles := sample_profiles;
     Store.from_jobs := sample_jobs;
     Store.from_applications :=
       map (fun n => application "job-a" (at_month n (2023 + n / 12) (n mod 12)))
           [0; 1; 2; 3; 4; 5; 6; 7; 8; 9; 10; 11; 12; 13] |}.

(** Jobs whose ids are the strings ["2"] and ["1"], with one application
    each, the one to job ["2"] stored first. *)
Definition numbered_db : Store.t :=
  {| Store.from_profiles := sample_profiles;
     Store.from_jobs :=
       [ {| Store.jobs_id := "2"; Store.jobs_title := Some "Builder";
            Store.jobs_created_by := "u-hr" |};
         {| Store.jobs_id := "1"; Store.jobs_title := Some "Analyst";
            Store.jobs_created_by := "u-hr" |} ];
     Store.from_applications :=
       [ application "2" (at_month 1 2024 0);
         application "1" (at_month 2 2024 0) ] |}.

(** Applications whose job is gone, untitled, or not given. *)
Definition dangling_db : Store.t :=
  {| Store.from_profiles := sample_profiles;
     Store.from_jobs :=
       [ {| Store.jobs_id := "job-a"; Store.jobs_title := Some "Engineer";
            Store.jobs_created_by := "u-hr" |};
         {| Store.jobs_id := "job-c"; Store.jobs_title := None;
            Store.jobs_created_by := "u-hr" |} ];
     Store.from_applications :=
       [ application "job-gone" (at_month 1 2024 0);
         {| Store.applications_job_id := None;
            Store.applications_created_at := at_month 2 2024 0 |};
         application "job-a" (at_month 3 2024 0);
         application "job-c" (at_month 4 2024 0) ] |}.

Definition chart (type : string) : NextRequest := {| searchParams := [("type", type)] |}.
Definition no_type : NextRequest := {| searchParams := [] |}.




(** The rows the by-job query of [numbered_db] gives an ADMIN. *)
Definition numbered_rows : list ApplicationJobRow :=
  [ {| job_id := Some "2"; jobs := Some {| title := Some "Builder" |} |};
    {| job_id := Some "1"; jobs := Some {| title := Some "Analyst" |} |} ].

(* ================================================================== *)
(** ** More JavaScript primitives, for the chart components

    Strings are taken over the ASCII range, where a character is one
    code unit. *)
(* ================================================================== *)

(** A possibly [undefined] value placed in a template literal. *)
Definition template (v : option string) : string :=
  match v with
  | Some s => s
  | None => "undefined"
  end.

(** [s.split(sep)] for a separator of one character. *)
Fixpoint split (sep : ascii) (s : string) : list string :=
  match s with
  | EmptyString => [""]
  | String c s' =>
      if Ascii.eqb c sep then "" :: split sep s'
      else match split sep s' with
           | [] => [String c ""]
           | part :: parts => String c part :: parts
           end
  end.

(** White space skipped by [parseInt]: TAB, LF, VT, FF, CR and SP. *)
Definition is_space (c : ascii) : bool :=
  let n := N_of_ascii c in
  ((9 <=? n) && (n <=? 13))%N || (n =? 32)%N.

Fixpoint trimStart (s : string) : string :=
  match s with
  | EmptyString => ""
  | String c s' => if is_space c then trimStart s' else s
  end.

(** The value of a digit in radix 10 or 16. *)
Definition digit_in (radix : Z) (c : ascii) : option Z :=
  let n := Z.of_N (N_of_ascii c) in
  if ((48 <=? n) && (n <=? 57))%Z then Some (n - 48)
  else if (radix =? 16)%Z && ((97 <=? n) && (n <=? 102))%Z then Some (n - 87)
  else if (radix =? 16)%Z && ((65 <=? n) && (n <=? 70))%Z then Some (n - 55)
  else None.

(** The number written by the longest prefix of digits, if there is one. *)
Fixpoint leading_digits (radix : Z) (acc : option Z) (s : string) : option Z :=
  match s with
  | EmptyString => acc
  | String c s' =>
      match digit_in radix c with
      | Some d =>
          leading_digits radix
            (Some (radix * match acc with Some n => n | None => 0 end + d)) s'
      | None => acc
      end
  end.

(** [parseInt(v)] without a radix: leading white space, a sign, a [0x]
    prefix for hexadecimal, then digits; [NaN] when no digit is there.
    Its only use here is as an index into a twelve-element array, for
    which the rounding of very long numerals plays no part. *)
Definition parseInt (v : option string) : Js.Num :=
  let s := trimStart (template v) in
  let negative := match s with String "-" _ => true | _ => false end in
  let s := match s with
           | String "-" r | String "+" r => r
           | _ => s
           end in
  let hex := prefix "0x" s || prefix "0X" s in
  let digits := if hex then substring 2 (String.length s - 2) s else s in
  match leading_digits (if hex then 16 else 10) None digits with
  | Some n => Js.Int (if negative then - n else n)
  | None => Js.NaN
  end.

(** [a - b] *)
Definition subtract (a b : Js.Num) : Js.Num :=
  match a, b with
  | Js.Int x, Js.Int y => Js.Int (x - y)
  | _, _ => Js.NaN
  end.

(** [array[n]]: [undefined] outside the array. *)
Definition at_index {A} (array : list A) (n : Js.Num) : option A :=
  match n with
  | Js.Int i => if (0 <=? i)%Z then nth_error array (Z.to_nat i) else None
  | Js.NaN => None
  end.

(** [array.map(f)] when [f] may throw: the first throw ends the map. *)
Fixpoint map_or_throw {A B} (f : A -> Outcome B) (array : list A) : Outcome (list B) :=
  match array with
  | [] => Resolved []
  | x :: array' =>
      match f x with
      | Resolved y =>
          match map_or_throw f array' with
          | Resolved ys => Resolved (y :: ys)
          | Rejected e => Rejected e
          end
      | Rejected e => Rejected e
      end
  end.

(* ================================================================== *)
(** ** The chart components

    [src/components/charts/JobMatchedChart.tsx] and the monthly
    applicants chart.  A component holds [data] and [loading]; on mount
    it fetches the endpoint once and then renders one of three views.
    [answer] is what [fetch] followed by [response.json()] gives. *)
(* ================================================================== *)

(** What [fetch] followed by [response.json()] gives a component in
    front of the endpoint: the body the handler answered with.  When the
    handler rejects, the framework answers in its place with an error
    page that is no JSON, on which [response.json()] rejects. *)
Definition response_json (o : Outcome NextResponse) : Outcome Body :=
  match o with
  | Resolved response => Resolved (body response)
  | Rejected _ => Rejected (Value (Some "Unexpected end of JSON input"))
  end.

Module JobMatchedChart.

Record JobData := { jobTitle : string; applications : Z }.

Definition COLORS : list string :=
  [ "#22A555"; "#3b82f6"; "#8b5cf6"; "#f59e0b";
    "#ef4444"; "#ec4899"; "#14b8a6"; "#6366f1" ].

Record State := { data : list JobData; loading : bool }.

(** [useState([])], [useState(true)] *)
Definition initial : State := {| data := []; loading := true |}.

(** [t.length > 30 ? t.substring(0, 30) + '...' : t] *)
Definition shorten (job_title : string) : string :=
  if (30 <? String.length job_title)%nat
  then substring 0 30 job_title ++ "..."
  else job_title.

(** The callback of [.map]; a row without [job_title] makes
    [item.job_title.length] throw. *)
Definition toJobData (item : AggregateRow) : Outcome JobData :=
  match item with
  | ByJob r =>
      Resolved {| jobTitle := shorten (JobRow.job_title r);
                  applications := JobRow.count r |}
  | Monthly _ => Rejected (TypeError "undefined" "length")
  end.

(** [fetchJobData]: the [try] block sets the data or throws, the [catch]
    only logs, the [finally] clears [loading]. *)
Definition fetchJobData (answer : Outcome Body) (s : State) : State :=
  let data' :=
    match answer with
    | Resolved (Success rows) =>
        match map_or_throw toJobData (Js.slice_to 8 rows) with
        | Resolved jobData => jobData
        | Rejected _ => data s
        end
    | Resolved (Failure _ _) => data s
    | Rejected _ => data s
    end in
  {| data := data'; loading := false |}.

Inductive View :=
| Loading
| NoData
| BarChart (bars : list JobData) (fills : list (option string)).

(** [COLORS[index % COLORS.length]] for each bar. *)
Definition cells (bars : list JobData) : list (option string) :=
  map (fun index => nth_error COLORS (index mod List.length COLORS))
      (seq 0 (List.length bars)).

Definition render (s : State) : View :=
  if loading s then Loading
  else if (List.length (data s) =? 0)%nat then NoData
  else BarChart (data s) (cells (data s)).

(** What is on screen once the effect has run. *)
Definition mounted (answer : Outcome Body) : View :=
  render (fetchJobData answer initial).

(** The component in front of the endpoint:
    [fetch('/api/hr/dashboard/charts?type=by-job')]. *)
Definition page (createClient : Outcome SupabaseClient) : View :=
  mounted (response_json (snd (GET createClient (chart "by-job")))).

End JobMatchedChart.

Module MonthlyApplicantsChart.

Record MonthlyData := { month : string; applications : Z }.

Definition monthNames : list string :=
  [ "Jan"; "Feb"; "Mar"; "Apr"; "May"; "Jun";
    "Jul"; "Aug"; "Sep"; "Oct"; "Nov"; "Dec" ].

Record State := { data : list MonthlyData; loading : bool }.

Definition initial : State := {| data := []; loading := true |}.

(** [const [year, month] = key.split('-')], then
    [`${monthNames[parseInt(month) - 1]} ${year}`]. *)
Definition label (key : string) : string :=
  let parts := split "-" key in
  let year := nth_error parts 0 in
  let month := nth_error parts 1 in
  template (at_index monthNames (subtract (parseInt month) (Js.Int 1)))
  ++ " " ++ template year.

(** The callback of [.map]; a row without [month] makes
    [item.month.split] throw. *)
Definition toMonthlyData (item : AggregateRow) : Outcome MonthlyData :=
  match item with
  | Monthly r =>
      Resolved {| month := label (MonthRow.month r);
                  applications := MonthRow.count r |}
  | ByJob _ => Rejected (TypeError "undefined" "split")
  end.

Definition fetchMonthlyData (answer : Outcome Body) (s : State) : State :=
  let data' :=
    match answer with
    | Resolved (Success rows) =>
        match map_or_throw toMonthlyData rows with
        | Resolved monthlyData => monthlyData
        | Rejected _ => data s
        end
    | Resolved (Failure _ _) => data s
    | Rejected _ => data s
    end in
  {| data := data'; loading := false |}.

Inductive View :=
| Loading
| NoData
| LineChart (points : list MonthlyData).

Definition render (s : State) : View :=
  if loading s then Loading
  else if (List.length (data s) =? 0)%nat then NoData
  else LineChart (data s).

Definition mounted (answer : Outcome Body) : View :=
  render (fetchMonthlyData answer initial).

(** [fetch('/api/hr/dashboard/charts?type=monthly')] *)
Definition page (createClient : Outcome SupabaseClient) : View :=
  mounted (response_json (snd (GET createClient (chart "monthly")))).

End MonthlyApplicantsChart.

(* ================================================================== *)
(** ** More sample data *)
(* ================================================================== *)

Definition applicant : User := {| user_id := "u-applicant" |}.
Definition stranger : User := {| user_id := "u-nobody" |}.

(** The sample store with one more profile, of a role that is neither HR
    nor ADMIN. *)
Definition public_db : Store.t :=
  {| Store.from_profiles :=
       {| Store.profiles_id := "u-applicant"; Store.profiles_role := "APPLICANT" |}
       :: sample_profiles;
     Store.from_jobs := sample_jobs;
     Store.from_applications := Store.from_applications sample_db |}.

(** One application in May of the year 999 and one in each month of
    2024. *)
Definition early_year_db : Store.t :=
  {| Store.from_profiles := sample_profiles;
     Store.from_jobs := sample_jobs;
     Store.from_applications :=
       application "job-a" (at_month 0 999 4)
       :: map (fun n => application "job-a" (at_month (n + 1) 2024 n))
              [0; 1; 2; 3; 4; 5; 6; 7; 8; 9; 10; 11] |}.


(** The sum of a list of counts. *)
Definition total (counts : list Z) : Z := fold_right Z.add 0 counts.

(** The queries an ADMIN's request issues. *)
Definition admin_queries (caller : User) (request : NextRequest) : list Query :=
  [AuthGetUser; ProfilesSelectRole (user_id caller)]
  ++ match searchParams_get (searchParams request) "type" with
     | Some chartType =>
         if chartType =? "monthly" then [ApplicationsSelectCreatedAt None]
         else if chartType =? "by-job" then [ApplicationsSelectJobTitle None]
         else []
     | None => []
     end.

(* ================================================================== *)
(** ** Facts about the JavaScript primitives *)
(* ================================================================== *)

(** *** The stable sort *)

Section SortFacts.
Context {A : Type}.
Variable compareFn : A -> A -> Z.

Lemma insert_perm (x : A) (l : list A) :
  Permutation (Js.insert compareFn x l) (x :: l).
Proof.
  induction l as [|y l IH]; simpl.
  - apply Permutation_refl.
  - destruct (compareFn x y <=? 0)%Z.
    + apply Permutation_refl.
    + eapply Permutation_trans; [apply perm_skip, IH | apply perm_swap].
Qed.

Lemma sort_perm (l : list A) : Permutation (Js.sort compareFn l) l.
Proof.
  induction l as [|x l IH]; simpl.
  - apply perm_nil.
  - eapply Permutation_trans; [apply insert_perm | apply perm_skip, IH].
Qed.

Lemma sort_length (l : list A) :
  List.length (Js.sort compareFn l) = List.length l.
Proof. apply Permutation_length, sort_perm. Qed.

Lemma sort_In (l : list A) (x : A) : In x (Js.sort compareFn l) <-> In x l.
Proof.
  split; apply Permutation_in;
    [apply sort_perm | apply Permutation_sym, sort_perm].
Qed.

(** The comparator orders the elements: it is total and transitive. *)


Hypothesis before_total : forall x y, Js.before compareFn x y \/ Js.before compareFn y x.
Hypothesis before_trans : forall x y z, Js.before compareFn x y -> Js.before compareFn y z -> Js.before compareFn x z.

Lemma insert_sorted (x : A) (l : list A) :
  StronglySorted (Js.before compareFn) l -> StronglySorted (Js.before compareFn) (Js.insert compareFn x l).
Proof.
  induction 1 as [|y l Hs IH Hall]; simpl.
  - repeat constructor.
  - destruct (compareFn x y <=? 0)%Z eqn:E.
    + apply Z.leb_le in E. constructor.
      * constructor; assumption.
      * constructor; [exact E|].
        eapply Forall_impl; [|exact Hall].
        intros z Hz. eapply before_trans; eauto.
    + apply Z.leb_gt in E. constructor; [exact IH|].
      assert (Hyx : Js.before compareFn y x).
      { destruct (before_total x y) as [H|H]; [unfold Js.before in H; lia | exact H]. }
      rewrite Forall_forall. intros z Hz.
      apply (Permutation_in _ (insert_perm x l)) in Hz.
      destruct Hz as [<-|Hz]; [exact Hyx|].
      rewrite Forall_forall in Hall. auto.
Qed.

Lemma sort_sorted (l : list A) : StronglySorted (Js.before compareFn) (Js.sort compareFn l).
Proof.
  induction l as [|x l IH]; simpl.
  - constructor.
  - apply insert_sorted, IH.
Qed.
End SortFacts.

(** Stability: elements that compare as equal keep their relative order.
    [p] selects a class of mutually equal elements. *)
Lemma insert_filter {A} (compareFn : A -> A -> Z) (p : A -> bool) (x : A) (l : list A) :
  (forall a b, p a = true -> p b = true -> (compareFn a b <= 0)%Z) ->
  filter p (Js.insert compareFn x l) = filter p (x :: l).
Proof.
  intros Hp. induction l as [|y l IH]; simpl; [reflexivity|].
  destruct (compareFn x y <=? 0)%Z eqn:E; simpl; [reflexivity|].
  simpl in IH. rewrite IH.
  destruct (p x) eqn:Px, (p y) eqn:Py; try reflexivity.
  apply Z.leb_gt in E. specialize (Hp x y Px Py). lia.
Qed.

Lemma sort_stable {A} (compareFn : A -> A -> Z) (p : A -> bool) (l : list A) :
  (forall a b, p a = true -> p b = true -> (compareFn a b <= 0)%Z) ->
  filter p (Js.sort compareFn l) = filter p l.
Proof.
  intros Hp. induction l as [|x l IH]; simpl; [reflexivity|].
  rewrite insert_filter by exact Hp. simpl. now rewrite IH.
Qed.

(** *** Slices *)

Lemma slice_from_end_split {A} (n : nat) (l : list A) :
  l = (firstn (List.length l - n) l ++ Js.slice_from_end n l)%list.
Proof. unfold Js.slice_from_end. symmetry. apply firstn_skipn. Qed.

Lemma slice_to_split {A} (n : nat) (l : list A) :
  l = (Js.slice_to n l ++ skipn n l)%list.
Proof. unfold Js.slice_to. symmetry. apply firstn_skipn. Qed.

Lemma slice_from_end_length {A} (n : nat) (l : list A) :
  List.length (Js.slice_from_end n l) = Nat.min n (List.length l).
Proof. unfold Js.slice_from_end. rewrite length_skipn. lia. Qed.

Lemma slice_to_length {A} (n : nat) (l : list A) :
  List.length (Js.slice_to n l) = Nat.min n (List.length l).
Proof. unfold Js.slice_to. apply length_firstn. Qed.

Lemma slice_from_end_incl {A} (n : nat) (l : list A) :
  incl (Js.slice_from_end n l) l.
Proof.
  intros x Hx. rewrite (slice_from_end_split n l). apply in_or_app. now right.
Qed.

Lemma slice_to_incl {A} (n : nat) (l : list A) : incl (Js.slice_to n l) l.
Proof.
  intros x Hx. rewrite (slice_to_split n l). apply in_or_app. now left.
Qed.

Lemma slice_from_end_all {A} (n : nat) (l : list A) :
  (List.length l <= n)%nat -> Js.slice_from_end n l = l.
Proof.
  intros H. unfold Js.slice_from_end.
  replace (List.length l - n)%nat with 0%nat by lia. reflexivity.
Qed.

Lemma slice_to_all {A} (n : nat) (l : list A) :
  (List.length l <= n)%nat -> Js.slice_to n l = l.
Proof. intros H. unfold Js.slice_to. now apply firstn_all2. Qed.

Lemma NoDup_map_app_l {A B} (f : A -> B) (l1 l2 : list A) :
  NoDup (map f (l1 ++ l2)) -> NoDup (map f l1).
Proof. rewrite map_app. apply NoDup_app_remove_r. Qed.

Lemma NoDup_map_app_r {A B} (f : A -> B) (l1 l2 : list A) :
  NoDup (map f (l1 ++ l2)) -> NoDup (map f l2).
Proof. rewrite map_app. apply NoDup_app_remove_l. Qed.

Lemma StronglySorted_app_l {A} (R : A -> A -> Prop) (l1 l2 : list A) :
  StronglySorted R (l1 ++ l2) -> StronglySorted R l1.
Proof.
  induction l1 as [|x l1 IH]; simpl; intros H; [constructor|].
  inversion H as [|? ? Hs Hall]; subst. constructor; [auto|].
  rewrite Forall_app in Hall. tauto.
Qed.

Lemma StronglySorted_app_r {A} (R : A -> A -> Prop) (l1 l2 : list A) :
  StronglySorted R (l1 ++ l2) -> StronglySorted R l2.
Proof.
  induction l1 as [|x l1 IH]; simpl; intros H; [exact H|].
  inversion H; subst. auto.
Qed.

Lemma StronglySorted_app_cross {A} (R : A -> A -> Prop) (l1 l2 : list A) :
  StronglySorted R (l1 ++ l2) -> forall x y, In x l1 -> In y l2 -> R x y.
Proof.
  induction l1 as [|z l1 IH]; simpl; intros H x y Hx Hy; [contradiction|].
  inversion H as [|? ? Hs Hall]; subst.
  destruct Hx as [<-|Hx].
  - rewrite Forall_forall in Hall. apply Hall, in_or_app. now right.
  - eapply IH; eauto.
Qed.

(** *** Objects *)

Lemma lookup_set {V} (k k' : string) (v : V) (o : Js.Object V) :
  Js.lookup k' (Js.set k v o) = if k =? k' then Some v else Js.lookup k' o.
Proof.
  induction o as [|[k0 v0] o IH]; simpl.
  - destruct (k =? k'); reflexivity.
  - destruct (String.eqb_spec k0 k) as [->|Hk]; simpl.
    + destruct (k =? k'); reflexivity.
    + rewrite IH. destruct (String.eqb_spec k0 k') as [->|Hk'].
      * apply String.eqb_neq in Hk. rewrite String.eqb_sym in Hk. now rewrite Hk.
      * reflexivity.
Qed.

Lemma lookup_update {V} (k k' : string) (f : V -> V) (o : Js.Object V) :
  Js.lookup k' (Js.update k f o)
  = if k =? k' then option_map f (Js.lookup k' o) else Js.lookup k' o.
Proof.
  induction o as [|[k0 v0] o IH]; simpl.
  - destruct (k =? k'); reflexivity.
  - destruct (String.eqb_spec k0 k) as [->|Hk]; simpl.
    + destruct (k =? k'); reflexivity.
    + rewrite IH. destruct (String.eqb_spec k0 k') as [->|Hk'].
      * apply String.eqb_neq in Hk. rewrite String.eqb_sym in Hk. now rewrite Hk.
      * reflexivity.
Qed.

Lemma lookup_None {V} (k : string) (o : Js.Object V) :
  Js.lookup k o = None <-> ~ In k (Js.keys o).
Proof.
  induction o as [|[k0 v0] o IH]; simpl.
  - tauto.
  - destruct (String.eqb_spec k0 k) as [->|Hk].
    + split; [discriminate | intros H; exfalso; apply H; now left].
    + rewrite IH. tauto.
Qed.

Lemma lookup_In {V} (k : string) (v : V) (o : Js.Object V) :
  Js.lookup k o = Some v -> In (k, v) o.
Proof.
  induction o as [|[k0 v0] o IH]; simpl; [discriminate|].
  destruct (String.eqb_spec k0 k) as [->|Hk].
  - intros [= ->]. now left.
  - intros H. right. auto.
Qed.

Lemma In_lookup {V} (k : string) (v : V) (o : Js.Object V) :
  NoDup (Js.keys o) -> In (k, v) o -> Js.lookup k o = Some v.
Proof.
  induction o as [|[k0 v0] o IH]; simpl; [contradiction|].
  intros Hnd [[= -> ->]|Hin].
  - now rewrite String.eqb_refl.
  - inversion Hnd as [|? ? Hnot Hnd']; subst.
    destruct (String.eqb_spec k0 k) as [->|Hk].
    + exfalso. apply Hnot. change k with (fst (k, v)). now apply in_map.
    + auto.
Qed.

Lemma keys_set {V} (k : string) (v : V) (o : Js.Object V) :
  Js.keys (Js.set k v o)
  = match Js.lookup k o with
    | Some _ => Js.keys o
    | None => (Js.keys o ++ [k])%list
    end.
Proof.
  induction o as [|[k0 v0] o IH]; simpl; [reflexivity|].
  destruct (String.eqb_spec k0 k) as [->|Hk]; simpl; [reflexivity|].
  unfold Js.keys in *. rewrite IH. now destruct (Js.lookup k o).
Qed.

Lemma keys_update {V} (k : string) (f : V -> V) (o : Js.Object V) :
  Js.keys (Js.update k f o) = Js.keys o.
Proof.
  induction o as [|[k0 v0] o IH]; simpl; [reflexivity|].
  destruct (k0 =? k); simpl; [reflexivity|].
  unfold Js.keys in *. now rewrite IH.
Qed.

Lemma NoDup_keys_set {V} (k : string) (v : V) (o : Js.Object V) :
  NoDup (Js.keys o) -> NoDup (Js.keys (Js.set k v o)).
Proof.
  intros H. rewrite keys_set. destruct (Js.lookup k o) eqn:E; [exact H|].
  apply lookup_None in E.
  apply (Permutation_NoDup (l := k :: Js.keys o)).
  - apply Permutation_cons_append.
  - now constructor.
Qed.

Lemma partition_perm {A} (p : A -> bool) (l : list A) :
  Permutation (filter p l ++ filter (fun x => negb (p x)) l) l.
Proof.
  induction l as [|x l IH]; simpl; [apply perm_nil|].
  destruct (p x); simpl.
  - now apply perm_skip.
  - eapply Permutation_trans; [apply Permutation_sym, Permutation_middle|].
    now apply perm_skip.
Qed.

Lemma entries_perm {V} (o : Js.Object V) : Permutation (Js.entries o) o.
Proof.
  unfold Js.entries.
  eapply Permutation_trans; [|apply (partition_perm (fun p => Js.is_array_index (fst p)))].
  apply Permutation_app_tail, sort_perm.
Qed.

Lemma filter_all {A} (p : A -> bool) (l : list A) :
  (forall x, In x l -> p x = true) -> filter p l = l.
Proof.
  induction l as [|x l IH]; simpl; intros H; [reflexivity|].
  rewrite (H x (or_introl eq_refl)). f_equal. auto.
Qed.

Lemma filter_none {A} (p : A -> bool) (l : list A) :
  (forall x, In x l -> p x = false) -> filter p l = [].
Proof.
  induction l as [|x l IH]; simpl; intros H; [reflexivity|].
  rewrite (H x (or_introl eq_refl)). auto.
Qed.

(** Without array-index keys, enumeration follows creation order. *)
Lemma entries_creation_order {V} (o : Js.Object V) :
  (forall k, In k (Js.keys o) -> Js.is_array_index k = false) ->
  Js.entries o = o.
Proof.
  intros H. unfold Js.entries.
  rewrite filter_none, filter_all; [reflexivity| |].
  - intros [k v] Hin. simpl. rewrite (H k); [reflexivity|].
    change k with (fst (k, v)). now apply in_map.
  - intros [k v] Hin. simpl. apply H.
    change k with (fst (k, v)). now apply in_map.
Qed.

(** *** The monthly tally *)

Lemma bump_spec (o : Js.Object Z) (k : string) :
  bump o k = match Js.lookup k o with Some n => n + 1 | None => 1 end.
Proof.
  unfold bump. destruct (Js.lookup k o) as [n|]; [|reflexivity].
  destruct (Z.eqb_spec n 0); lia.
Qed.

Lemma applications_in_cons (k : string) (a : CreatedAtRow) (apps : list CreatedAtRow) :
  applications_in k (a :: apps)
  = (if monthOf a =? k then 1 else 0) + applications_in k apps.
Proof.
  unfold applications_in. cbn [filter]. destruct (monthOf a =? k); cbn [List.length]; lia.
Qed.

Lemma applications_in_nonneg (k : string) (apps : list CreatedAtRow) :
  0 <= applications_in k apps.
Proof. unfold applications_in. lia. Qed.

Lemma applications_in_pos (k : string) (apps : list CreatedAtRow) :
  0 < applications_in k apps <-> exists a, In a apps /\ monthOf a = k.
Proof.
  unfold applications_in. split.
  - intros H. destruct (filter (fun a => monthOf a =? k) apps) as [|a l] eqn:E.
    + simpl in H. lia.
    + assert (Hin : In a (filter (fun a => monthOf a =? k) apps))
        by (rewrite E; now left).
      apply filter_In in Hin. destruct Hin as [Hin Hk].
      exists a. split; [exact Hin | now apply String.eqb_eq].
  - intros (a & Hin & Hk).
    assert (Hf : In a (filter (fun a => monthOf a =? k) apps)).
    { apply filter_In. split; [exact Hin | now apply String.eqb_eq]. }
    destruct (filter (fun a => monthOf a =? k) apps); [contradiction|cbn [List.length]; lia].
Qed.

Lemma fold_tallyMonth (apps : list CreatedAtRow) (o : Js.Object Z) (k : string) :
  Js.lookup k (fold_left tallyMonth apps o)
  = match Js.lookup k o with
    | Some n => Some (n + applications_in k apps)
    | None => if (applications_in k apps =? 0)%Z then None
              else Some (applications_in k apps)
    end.
Proof.
  revert o. induction apps as [|a apps IH]; intros o; simpl.
  - unfold applications_in. simpl. destruct (Js.lookup k o) as [n|]; [f_equal; lia|reflexivity].
  - rewrite IH, applications_in_cons. unfold tallyMonth. fold (monthOf a).
    rewrite lookup_set, bump_spec.
    pose proof (applications_in_nonneg k apps) as Hnn.
    destruct (String.eqb_spec (monthOf a) k) as [->|Hk].
    + destruct (Js.lookup k o) as [n|].
      * f_equal. lia.
      * destruct (Z.eqb_spec (1 + applications_in k apps) 0); [lia|reflexivity].
    + destruct (Js.lookup k o) as [n|]; [f_equal; lia|]. reflexivity.
Qed.

Lemma NoDup_fold_tallyMonth (apps : list CreatedAtRow) (o : Js.Object Z) :
  NoDup (Js.keys o) -> NoDup (Js.keys (fold_left tallyMonth apps o)).
Proof.
  revert o. induction apps as [|a apps IH]; intros o H; simpl; [exact H|].
  apply IH. unfold tallyMonth. now apply NoDup_keys_set.
Qed.

Lemma monthCounts_lookup (applications : option (list CreatedAtRow)) (k : string) :
  Js.lookup k (monthCounts applications)
  = if (applications_in k (fetched applications) =? 0)%Z then None
    else Some (applications_in k (fetched applications)).
Proof. unfold monthCounts. now rewrite fold_tallyMonth. Qed.

Lemma monthCounts_NoDup (applications : option (list CreatedAtRow)) :
  NoDup (Js.keys (monthCounts applications)).
Proof. apply NoDup_fold_tallyMonth. constructor. Qed.

(** *** The by-job tally *)

Lemma applications_for_cons (k : string) (a : ApplicationJobRow)
    (apps : list ApplicationJobRow) :
  applications_for k (a :: apps)
  = (if jobId a =? k then 1 else 0) + applications_for k apps.
Proof.
  unfold applications_for. cbn [filter].
  destruct (jobId a =? k); cbn [List.length]; lia.
Qed.

Lemma applications_for_nonneg (k : string) (apps : list ApplicationJobRow) :
  0 <= applications_for k apps.
Proof. unfold applications_for. lia. Qed.

Lemma first_for_Some (k : string) (apps : list ApplicationJobRow) (a : ApplicationJobRow) :
  first_for k apps = Some a -> In a apps /\ jobId a = k /\ 1 <= applications_for k apps.
Proof.
  unfold first_for. intros H. pose proof (find_some _ _ H) as [Hin Hk].
  repeat split; [exact Hin | now apply String.eqb_eq |].
  unfold applications_for.
  assert (Hf : In a (filter (fun a => jobId a =? k) apps))
    by (apply filter_In; now split).
  destruct (filter (fun a => jobId a =? k) apps); [contradiction|cbn [List.length]; lia].
Qed.

Lemma first_for_None (k : string) (apps : list ApplicationJobRow) :
  first_for k apps = None -> forall a, In a apps -> jobId a <> k.
Proof.
  unfold first_for. intros H a Hin Hk.
  pose proof (find_none _ _ H a Hin) as Hf. simpl in Hf.
  apply String.eqb_neq in Hf. contradiction.
Qed.

Lemma lookup_tallyJob (o : Js.Object JobRow.t) (a : ApplicationJobRow) (k : string) :
  Js.lookup k (tallyJob o a)
  = if jobId a =? k then
      match Js.lookup k o with
      | Some g => Some (increment g)
      | None => if Js.inherited k then None
                else Some (JobRow.mk k (jobTitle a) 1)
      end
    else Js.lookup k o.
Proof.
  unfold tallyJob, missing. rewrite lookup_update.
  destruct (String.eqb_spec (jobId a) k) as [->|Hk].
  - destruct (Js.lookup k o) as [g|] eqn:E; [now rewrite E|].
    destruct (Js.inherited k); simpl.
    + now rewrite E.
    + rewrite lookup_set, String.eqb_refl. reflexivity.
  - destruct (Js.lookup (jobId a) o); [reflexivity|].
    destruct (Js.inherited (jobId a)); simpl; [reflexivity|].
    rewrite lookup_set. apply String.eqb_neq in Hk. now rewrite Hk.
Qed.

Lemma fold_tallyJob (apps : list ApplicationJobRow) (o : Js.Object JobRow.t) (k : string) :
  Js.lookup k (fold_left tallyJob apps o)
  = match Js.lookup k o with
    | Some g =>
        Some (JobRow.mk (JobRow.job_id g) (JobRow.job_title g)
                (JobRow.count g + applications_for k apps))
    | None =>
        if Js.inherited k then None
        else match first_for k apps with
             | Some a => Some (JobRow.mk k (jobTitle a) (applications_for k apps))
             | None => None
             end
    end.
Proof.
  revert o. induction apps as [|a apps IH]; intros o.
  - simpl. unfold applications_for. simpl.
    destruct (Js.lookup k o) as [[i t c]|]; simpl.
    + do 2 f_equal. lia.
    + now destruct (Js.inherited k).
  - cbn [fold_left]. rewrite IH, lookup_tallyJob, applications_for_cons.
    unfold first_for. cbn [find]. fold (first_for k apps).
    destruct (jobId a =? k).
    + destruct (Js.lookup k o) as [[i t c]|].
      * unfold increment. cbn [JobRow.job_id JobRow.job_title JobRow.count].
        apply f_equal, f_equal. lia.
      * destruct (Js.inherited k); [reflexivity|].
        cbn [JobRow.job_id JobRow.job_title JobRow.count]. reflexivity.
    + destruct (Js.lookup k o) as [[i t c]|]; reflexivity.
Qed.

Lemma NoDup_tallyJob (o : Js.Object JobRow.t) (a : ApplicationJobRow) :
  NoDup (Js.keys o) -> NoDup (Js.keys (tallyJob o a)).
Proof.
  intros H. unfold tallyJob. rewrite keys_update.
  destruct (missing o (jobId a)); [now apply NoDup_keys_set | exact H].
Qed.

Lemma NoDup_fold_tallyJob (apps : list ApplicationJobRow) (o : Js.Object JobRow.t) :
  NoDup (Js.keys o) -> NoDup (Js.keys (fold_left tallyJob apps o)).
Proof.
  revert o. induction apps as [|a apps IH]; intros o H; simpl; [exact H|].
  apply IH. now apply NoDup_tallyJob.
Qed.

Lemma jobCounts_lookup (applications : option (list ApplicationJobRow)) (k : string) :
  Js.lookup k (jobCounts applications)
  = if Js.inherited k then None
    else match first_for k (fetched applications) with
         | Some a =>
             Some (JobRow.mk k (jobTitle a) (applications_for k (fetched applications)))
         | None => None
         end.
Proof. unfold jobCounts. now rewrite fold_tallyJob. Qed.

Lemma jobCounts_NoDup (applications : option (list ApplicationJobRow)) :
  NoDup (Js.keys (jobCounts applications)).
Proof. apply NoDup_fold_tallyJob. constructor. Qed.

(** Every own entry of [jobCounts] is filed under its own job id. *)
Lemma jobCounts_entry (applications : option (list ApplicationJobRow))
    (k : string) (g : JobRow.t) :
  In (k, g) (jobCounts applications) <->
  Js.inherited k = false /\
  exists a, first_for k (fetched applications) = Some a
            /\ g = JobRow.mk k (jobTitle a) (applications_for k (fetched applications)).
Proof.
  split.
  - intros Hin. apply In_lookup in Hin; [|apply jobCounts_NoDup].
    rewrite jobCounts_lookup in Hin.
    destruct (Js.inherited k); [discriminate|]. split; [reflexivity|].
    destruct (first_for k (fetched applications)) as [a|]; [|discriminate].
    exists a. split; [reflexivity|]. now injection Hin.
  - intros (Hi & a & Ha & ->). apply lookup_In.
    now rewrite jobCounts_lookup, Hi, Ha.
Qed.

(** The groups are the values of [jobCounts]: one per job id seen, with
    the title of the first row seen for it and the number of its rows. *)
Lemma jobCounts_values (applications : option (list ApplicationJobRow)) (g : JobRow.t) :
  In g (Js.values (jobCounts applications)) <->
  Js.inherited (JobRow.job_id g) = false /\
  exists a, first_for (JobRow.job_id g) (fetched applications) = Some a
            /\ JobRow.job_title g = jobTitle a
            /\ JobRow.count g = applications_for (JobRow.job_id g) (fetched applications).
Proof.
  unfold Js.values. rewrite in_map_iff. split.
  - intros ([k g'] & <- & Hin). simpl.
    apply (Permutation_in _ (entries_perm _)) in Hin.
    apply jobCounts_entry in Hin. destruct Hin as (Hi & a & Ha & ->). simpl.
    split; [exact Hi|]. exists a. auto.
  - intros (Hi & a & Ha & Ht & Hc).
    exists (JobRow.job_id g, g). split; [reflexivity|].
    apply (Permutation_in _ (Permutation_sym (entries_perm _))).
    apply jobCounts_entry. split; [exact Hi|]. exists a. split; [exact Ha|].
    destruct g as [i t c]. simpl in *. now subst.
Qed.

Lemma jobCounts_values_keys (applications : option (list ApplicationJobRow)) :
  map JobRow.job_id (Js.values (jobCounts applications))
  = map fst (Js.entries (jobCounts applications)).
Proof.
  unfold Js.values. rewrite map_map. apply map_ext_in.
  intros [k g] Hin. simpl.
  apply (Permutation_in _ (entries_perm _)) in Hin.
  apply jobCounts_entry in Hin. destruct Hin as (_ & a & _ & ->). reflexivity.
Qed.

Lemma jobCounts_values_NoDup (applications : option (list ApplicationJobRow)) :
  NoDup (map JobRow.job_id (Js.values (jobCounts applications))).
Proof.
  rewrite jobCounts_values_keys.
  apply (Permutation_NoDup (l := Js.keys (jobCounts applications))).
  - apply Permutation_sym, Permutation_map, entries_perm.
  - apply jobCounts_NoDup.
Qed.

(** *** The monthly rows *)

Lemma monthlySorted_perm (applications : option (list CreatedAtRow)) :
  Permutation (monthlySorted applications)
    (map (fun '(month, count) => MonthRow.mk month count) (monthCounts applications)).
Proof.
  unfold monthlySorted.
  eapply Permutation_trans; [apply sort_perm|].
  apply Permutation_map, entries_perm.
Qed.

Lemma monthlySorted_In (applications : option (list CreatedAtRow)) (r : MonthRow.t) :
  In r (monthlySorted applications) <->
  MonthRow.count r = applications_in (MonthRow.month r) (fetched applications)
  /\ 1 <= MonthRow.count r.
Proof.
  pose proof (applications_in_nonneg (MonthRow.month r) (fetched applications)) as Hnn.
  split.
  - intros Hin. apply (Permutation_in _ (monthlySorted_perm _)) in Hin.
    apply in_map_iff in Hin. destruct Hin as ([k c] & <- & Hin). simpl in *.
    apply In_lookup in Hin; [|apply monthCounts_NoDup].
    rewrite monthCounts_lookup in Hin.
    destruct (Z.eqb_spec (applications_in k (fetched applications)) 0); [discriminate|].
    injection Hin as <-. split; [reflexivity|].
    pose proof (applications_in_nonneg k (fetched applications)). lia.
  - intros [Hc Hpos].
    apply (Permutation_in _ (Permutation_sym (monthlySorted_perm _))).
    apply in_map_iff. exists (MonthRow.month r, MonthRow.count r).
    split; [now destruct r|].
    apply lookup_In. rewrite monthCounts_lookup.
    destruct (Z.eqb_spec (applications_in (MonthRow.month r) (fetched applications)) 0);
      [lia | now rewrite Hc].
Qed.

Lemma monthlySorted_months (applications : option (list CreatedAtRow)) :
  Permutation (map MonthRow.month (monthlySorted applications))
              (Js.keys (monthCounts applications)).
Proof.
  eapply Permutation_trans; [apply Permutation_map, monthlySorted_perm|].
  rewrite map_map. unfold Js.keys.
  erewrite map_ext; [apply Permutation_refl|]. now intros [k c].
Qed.

Lemma monthlySorted_NoDup (applications : option (list CreatedAtRow)) :
  NoDup (map MonthRow.month (monthlySorted applications)).
Proof.
  apply (Permutation_NoDup (l := Js.keys (monthCounts applications))).
  - apply Permutation_sym, monthlySorted_months.
  - apply monthCounts_NoDup.
Qed.

(* ================================================================== *)
(** ** The handler, step by step *)
(* ================================================================== *)

Ltac run_handler :=
  unfold GET, handler, scope, settle, await, bind, ret; simpl.

(** Closes a goal [o = Resolved response -> body response = Success rows -> _]
    when [o] is a rejection or resolves to a failure envelope. *)
Ltac no_success :=
  let H := fresh "H" in
  let Hb := fresh "Hb" in
  simpl; intros H Hb;
  first [ discriminate H | injection H as <-; discriminate Hb ].

Lemma nonempty_eqb (s : string) : s <> "" -> (s =? "") = false.
Proof. apply String.eqb_neq. Qed.

(** Past scope resolution the response is that of the [switch]. *)
Lemma GET_charts (supabase : SupabaseClient) (request : NextRequest)
    (isAdmin : bool) (jobIds : list string) (chartType : string) (issued : list Query) :
  reaches_charts supabase request isAdmin jobIds chartType issued ->
  GET (Resolved supabase) request
  = ((issued ++ fst (charts supabase isAdmin jobIds chartType))%list,
     catch (snd (charts supabase isAdmin jobIds chartType))).
Proof.
  intros [caller t [Hauth Hprof] Htype Hne | caller t job jobs [Hauth Hprof] Htype Hne Hjobs];
    run_handler; rewrite Hauth; simpl; rewrite Hprof; simpl;
    rewrite Htype, (nonempty_eqb _ Hne); simpl.
  - destruct (charts supabase true [] t) as [tr [r|e]]; reflexivity.
  - rewrite Hjobs. simpl.
    destruct (charts supabase false (id job :: map id jobs) t) as [tr [r|e]]; reflexivity.
Qed.

Lemma GET_monthly (supabase : SupabaseClient) (request : NextRequest)
    (isAdmin : bool) (applications : option (list CreatedAtRow)) :
  monthly_request supabase request isAdmin applications ->
  snd (GET (Resolved supabase) request)
  = Resolved (json (Success (map Monthly (monthlyData applications))) None).
Proof.
  intros [jobIds issued r Hreach Hq He Hd].
  rewrite (GET_charts _ _ _ _ _ _ Hreach). unfold charts. simpl.
  unfold await, bind. rewrite Hq, He, Hd. reflexivity.
Qed.

Lemma GET_by_job (supabase : SupabaseClient) (request : NextRequest)
    (isAdmin : bool) (applications : option (list ApplicationJobRow)) :
  by_job_request supabase request isAdmin applications ->
  snd (GET (Resolved supabase) request)
  = Resolved (json (Success (map ByJob (jobData applications))) None).
Proof.
  intros [jobIds issued r Hreach Hq He Hd].
  rewrite (GET_charts _ _ _ _ _ _ Hreach). unfold charts. simpl.
  unfold await, bind. rewrite Hq, He, Hd. reflexivity.
Qed.

(** Where a success body can come from. *)
Lemma charts_success (supabase : SupabaseClient) (isAdmin : bool)
    (jobIds : list string) (chartType : string)
    (response : NextResponse) (rows : list AggregateRow) :
  catch (snd (charts supabase isAdmin jobIds chartType)) = Resolved response ->
  body response = Success rows ->
  (exists applications, rows = map Monthly (monthlyData applications))
  \/ (exists applications, rows = map ByJob (jobData applications)).
Proof.
  unfold charts, await, bind, ret.
  destruct (chartType =? "monthly").
  - destruct (applications_select_created_at supabase _) as [r|e]; simpl.
    + destruct (error r); [no_success|]. simpl.
      intros [= <-] [= <-]. left. now exists (data r).
    + destruct e; no_success.
  - destruct (chartType =? "by-job").
    + destruct (applications_select_job_title supabase _) as [r|e]; simpl.
      * destruct (error r); [no_success|]. simpl.
        intros [= <-] [= <-]. right. now exists (data r).
      * destruct e; no_success.
    + no_success.
Qed.

Lemma GET_success (createClient : Outcome SupabaseClient) (request : NextRequest)
    (response : NextResponse) (rows : list AggregateRow) :
  snd (GET createClient request) = Resolved response ->
  body response = Success rows ->
  rows = []
  \/ (exists applications, rows = map Monthly (monthlyData applications))
  \/ (exists applications, rows = map ByJob (jobData applications)).
Proof.
  unfold GET, handler, settle, await, bind.
  destruct createClient as [supabase|e]; [|destruct e; no_success].
  destruct (auth_getUser supabase) as [auth|e]; [|destruct e; no_success].
  destruct (authError auth); [no_success|].
  destruct (user auth) as [caller|]; [|no_success].
  destruct (profiles_select_role supabase (user_id caller)) as [p|e];
    [|destruct e; no_success].
  destruct (error p); [no_success|].
  destruct (data p) as [profile|]; [|no_success].
  destruct (negb (role profile =? "HR") && negb (role profile =? "ADMIN"));
    [no_success|].
  destruct (searchParams_get (searchParams request) "type") as [chartType|];
    [|no_success].
  destruct (chartType =? ""); [no_success|].
  unfold scope, await, bind, ret.
  destruct (role profile =? "ADMIN"); simpl.
  - destruct (charts supabase true [] chartType) as [tr o] eqn:E. simpl.
    intros H Hb. right. apply (charts_success supabase true [] chartType response).
    + now rewrite E.
    + exact Hb.
  - destruct (jobs_select_id supabase (user_id caller)) as [r|e];
      [|destruct e; no_success].
    destruct (error r); [no_success|].
    destruct (List.length _ =? 0)%nat; simpl.
    + intros [= <-] [= <-]. now left.
    + match goal with
      | |- context [charts ?s ?a ?j ?c] =>
          destruct (charts s a j c) as [tr o] eqn:E
      end.
      simpl. intros H Hb. right. eapply charts_success; [|exact Hb].
      rewrite E. exact H.
Qed.

(** A response record is its two fields. *)
Lemma passes_authentication (supabase : SupabaseClient) (auth : UserResponse)
    (caller : User) :
  auth_getUser supabase = Resolved auth ->
  authError auth = None -> user auth = Some caller ->
  auth_getUser supabase = Resolved {| user := Some caller; authError := None |}.
Proof. intros H He Hu. rewrite H. destruct auth. simpl in *. now subst. Qed.

Lemma passes_authorisation (supabase : SupabaseClient) (uid : string)
    (p : PostgrestResponse ProfileRow) (profile : ProfileRow) :
  profiles_select_role supabase uid = Resolved p ->
  error p = None -> data p = Some profile ->
  profiles_select_role supabase uid
  = Resolved {| data := Some {| role := role profile |}; error := None |}.
Proof.
  intros H He Hd. rewrite H. destruct p, profile. simpl in *. now subst.
Qed.

(** Every request that gets past validation and scope resolution is one
    described by [reaches_charts], unless an HR caller has no job. *)
Lemma GET_reaches (supabase : SupabaseClient) (request : NextRequest) :
  (exists response,
     snd (GET (Resolved supabase) request) = Resolved response
     /\ In (status response) [401; 403; 404])
  \/ snd (GET (Resolved supabase) request)
     = Resolved (json (Failure "Missing required parameter: type" None) (Some 400))
  \/ (exists e, snd (GET (Resolved supabase) request)
                = Resolved (store_failure e "Failed to fetch jobs"))
  \/ (exists e, handler (Resolved supabase) request
                = (fst (GET (Resolved supabase) request), Rejected e))
  \/ snd (GET (Resolved supabase) request) = Resolved (json (Success []) None)
  \/ exists isAdmin jobIds chartType issued,
       reaches_charts supabase request isAdmin jobIds chartType issued.
Proof.
  unfold GET, handler, settle, await, bind. simpl.
  destruct (auth_getUser supabase) as [auth|e] eqn:Hauth;
    [|right; right; right; left; now exists e].
  destruct (authError auth) eqn:Hae;
    [left; eexists; split; [reflexivity | simpl; tauto]|].
  destruct (user auth) as [caller|] eqn:Hu;
    [|left; eexists; split; [reflexivity | simpl; tauto]].
  pose proof (passes_authentication _ _ _ Hauth Hae Hu) as Hauth'.
  destruct (profiles_select_role supabase (user_id caller)) as [p|e] eqn:Hprof;
    [|right; right; right; left; now exists e].
  destruct (error p) eqn:Hpe;
    [left; eexists; split; [reflexivity | simpl; tauto]|].
  destruct (data p) as [profile|] eqn:Hpd;
    [|left; eexists; split; [reflexivity | simpl; tauto]].
  pose proof (passes_authorisation _ _ _ _ Hprof Hpe Hpd) as Hprof'.
  destruct (negb (role profile =? "HR") && negb (role profile =? "ADMIN")) eqn:Hrole;
    [left; eexists; split; [reflexivity | simpl; tauto]|].
  destruct (searchParams_get (searchParams request) "type") as [chartType|] eqn:Htype;
    [|right; left; reflexivity].
  destruct (String.eqb_spec chartType "") as [->|Hne]; [right; left; reflexivity|].
  unfold scope, await, bind, ret.
  destruct (role profile =? "ADMIN") eqn:Hadmin; simpl.
  - do 5 right. exists true, [], chartType,
      [AuthGetUser; ProfilesSelectRole (user_id caller)].
    apply String.eqb_eq in Hadmin. rewrite Hadmin in Hprof'.
    apply (admin_reaches _ _ caller chartType); [now split | exact Htype | exact Hne].
  - destruct (jobs_select_id supabase (user_id caller)) as [r|e] eqn:Hjobs;
      [|right; right; right; left; now exists e].
    destruct (error r) as [e|] eqn:Hje; [right; right; left; now exists e|].
    destruct (data r) as [[|job jobs]|] eqn:Hjd;
      [do 4 right; left; reflexivity | | do 4 right; left; reflexivity].
    do 5 right. exists false, (map id (job :: jobs)), chartType,
      [AuthGetUser; ProfilesSelectRole (user_id caller); JobsSelectId (user_id caller)].
    assert (Hhr : role profile = "HR").
    { simpl in Hrole. rewrite andb_true_r in Hrole.
      apply negb_false_iff, String.eqb_eq in Hrole. exact Hrole. }
    rewrite Hhr in Hprof'.
    apply (hr_reaches _ _ caller chartType job jobs);
      [now split | exact Htype | exact Hne |].
    rewrite Hjobs. destruct r. simpl in *. now subst.
Qed.

(** *** Rows of the two aggregations *)

Lemma monthlyData_NoDup (applications : option (list CreatedAtRow)) :
  NoDup (map MonthRow.month (monthlyData applications)).
Proof.
  unfold monthlyData.
  pose proof (monthlySorted_NoDup applications) as H.
  rewrite (slice_from_end_split 12 (monthlySorted applications)) in H.
  exact (NoDup_map_app_r _ _ _ H).
Qed.

Lemma monthlyData_In (applications : option (list CreatedAtRow)) (r : MonthRow.t) :
  In r (monthlyData applications) ->
  MonthRow.count r = applications_in (MonthRow.month r) (fetched applications)
  /\ 1 <= MonthRow.count r.
Proof.
  intros H. apply monthlySorted_In. exact (slice_from_end_incl _ _ _ H).
Qed.

Lemma jobsSorted_In (applications : option (list ApplicationJobRow)) (g : JobRow.t) :
  In g (jobsSorted applications) <-> In g (Js.values (jobCounts applications)).
Proof. unfold jobsSorted. apply sort_In. Qed.

Lemma jobsSorted_NoDup (applications : option (list ApplicationJobRow)) :
  NoDup (map JobRow.job_id (jobsSorted applications)).
Proof.
  apply (Permutation_NoDup (l := map JobRow.job_id (Js.values (jobCounts applications)))).
  - apply Permutation_sym, Permutation_map. unfold jobsSorted. apply sort_perm.
  - apply jobCounts_values_NoDup.
Qed.

Lemma jobData_NoDup (applications : option (list ApplicationJobRow)) :
  NoDup (map JobRow.job_id (jobData applications)).
Proof.
  unfold jobData.
  pose proof (jobsSorted_NoDup applications) as H.
  rewrite (slice_to_split 10 (jobsSorted applications)) in H.
  exact (NoDup_map_app_l _ _ _ H).
Qed.

Lemma jobData_In (applications : option (list ApplicationJobRow)) (g : JobRow.t) :
  In g (jobData applications) -> In g (Js.values (jobCounts applications)).
Proof. intros H. apply jobsSorted_In. exact (slice_to_incl _ _ _ H). Qed.

Lemma job_group_count (applications : option (list ApplicationJobRow)) (g : JobRow.t) :
  In g (Js.values (jobCounts applications)) -> 1 <= JobRow.count g.
Proof.
  intros H. apply jobCounts_values in H.
  destruct H as (_ & a & Ha & _ & ->). now apply first_for_Some in Ha.
Qed.

(* ================================================================== *)
(** ** Early exits and the shape of success responses *)
(* ================================================================== *)

(** C8.  A request without a valid session ([getUser] reports an error or
    no user) is answered 401 with [success: false], whatever its [type]
    parameter; the only call made is [getUser]: no profile lookup, no jobs
    query, no applications query. *)
Theorem unauthenticated_request_is_401
    (supabase : SupabaseClient) (request : NextRequest) (auth : UserResponse) :
  auth_getUser supabase = Resolved auth ->
  authError auth <> None \/ user auth = None ->
  GET (Resolved supabase) request
  = ([AuthGetUser],
     Resolved {| status := 401; body := Failure "Unauthorized" None |})
  /\ (forall response,
        snd (GET (Resolved supabase) request) = Resolved response ->
        success (body response) = false).
Proof.
  intros Hauth Hbad.
  assert (E : GET (Resolved supabase) request
              = ([AuthGetUser],
                 Resolved {| status := 401; body := Failure "Unauthorized" None |})).
  { run_handler. rewrite Hauth. simpl.
    destruct (authError auth) as [e|]; [reflexivity|].
    destruct (user auth) as [u|]; [|reflexivity].
    destruct Hbad as [H|H]; [now contradiction H | discriminate]. }
  split; [exact E|]. rewrite E. now intros response [= <-].
Qed.

(** C3.  An HR caller whose jobs query gives no job is answered 200 with
    [{ success: true, data: [] }] for both chart types, and the request
    issues no query on the applications. *)
Theorem hr_without_jobs_gets_empty_data
    (supabase : SupabaseClient) (request : NextRequest) (caller : User)
    (chartType : string) (r : PostgrestResponse (list JobIdRow)) :
  authorised supabase caller "HR" ->
  searchParams_get (searchParams request) "type" = Some chartType ->
  chartType = "monthly" \/ chartType = "by-job" ->
  jobs_select_id supabase (user_id caller) = Resolved r ->
  error r = None ->
  data r = None \/ data r = Some [] ->
  GET (Resolved supabase) request
  = ([AuthGetUser; ProfilesSelectRole (user_id caller); JobsSelectId (user_id caller)],
     Resolved {| status := 200; body := Success [] |})
  /\ existsb on_applications (fst (GET (Resolved supabase) request)) = false.
Proof.
  intros [Hauth Hprof] Htype Hchart Hjobs He Hd.
  assert (E : GET (Resolved supabase) request
              = ([AuthGetUser; ProfilesSelectRole (user_id caller);
                  JobsSelectId (user_id caller)],
                 Resolved {| status := 200; body := Success [] |})).
  { run_handler. rewrite Hauth. simpl. rewrite Hprof. simpl. rewrite Htype.
    assert (Hne : (chartType =? "") = false)
      by (destruct Hchart as [-> | ->]; reflexivity).
    rewrite Hne. simpl. rewrite Hjobs. simpl. rewrite He.
    destruct Hd as [-> | ->]; reflexivity. }
  split; [exact E | now rewrite E].
Qed.

(** C10.  In every success response the rows have pairwise distinct keys
    (months for the monthly chart, job ids for the by-job chart) and every
    count is at least 1. *)
Theorem success_rows_distinct_and_positive
    (createClient : Outcome SupabaseClient) (request : NextRequest)
    (response : NextResponse) (rows : list AggregateRow) :
  snd (GET createClient request) = Resolved response ->
  body response = Success rows ->
  NoDup (map row_key rows) /\ Forall (fun r => 1 <= row_count r) rows.
Proof.
  intros H Hb. apply (GET_success _ _ _ _ H) in Hb. clear H.
  destruct Hb as [-> | [[applications ->] | [applications ->]]].
  - split; constructor.
  - split.
    + rewrite map_map. simpl. apply monthlyData_NoDup.
    + rewrite Forall_map. simpl. apply Forall_forall.
      intros r Hr. now apply monthlyData_In in Hr.
  - split.
    + rewrite map_map. simpl. apply jobData_NoDup.
    + rewrite Forall_map. simpl. apply Forall_forall.
      intros g Hg. eapply job_group_count, jobData_In, Hg.
Qed.

(* ================================================================== *)
(** ** Scope isolation *)
(* ================================================================== *)

(** Filtering rows keeps their keys distinct. *)
Lemma unique_keys_filter {Row Key} (key : Row -> Key) (keep : Row -> bool)
    (rows : list Row) (Hunique : NoDup (map key rows)) :
  NoDup (map key (filter keep rows)).
Proof.
  induction rows as [|row rows IH]; simpl; [constructor|].
  simpl in Hunique. apply NoDup_cons_iff in Hunique.
  destruct Hunique as [Hfresh Hrest].
  destruct (keep row); simpl; [|auto].
  apply NoDup_cons; [|auto].
  rewrite in_map_iff. intros (other & Hsame & Hin).
  apply filter_In in Hin. apply Hfresh, in_map_iff. exists other. tauto.
Qed.

Lemma find_job_unique (l : list Store.Job) (job : Store.Job) :
  NoDup (map Store.jobs_id l) -> In job l ->
  find (fun x => Store.jobs_id x =? Store.jobs_id job) l = Some job.
Proof.
  induction l as [|x l IH]; simpl; intros Hnd Hin; [contradiction|].
  inversion Hnd as [|? ? Hnot Hnd']; subst.
  destruct (String.eqb_spec (Store.jobs_id x) (Store.jobs_id job)) as [E|E].
  - destruct Hin as [->|Hin]; [reflexivity|].
    exfalso. apply Hnot. rewrite E. now apply in_map.
  - destruct Hin as [->|Hin]; [contradiction|]. auto.
Qed.

(** The job an own application points to is looked up among the caller's
    own jobs. *)
Lemma embed_own_job (db : Store.t) (uid : string) (a : Store.Application) :
  Store.job_ids_unique db ->
  In a (Store.own_applications db uid) ->
  Store.embed_job db a
  = match Store.applications_job_id a with
    | Some j =>
        match find (fun job => Store.jobs_id job =? j) (Store.owned db uid) with
        | Some job => Some {| title := Store.jobs_title job |}
        | None => None
        end
    | None => None
    end.
Proof.
  intros Hnd Hin. unfold Store.own_applications in Hin.
  apply filter_In in Hin. destruct Hin as [_ Hin]. unfold Store.job_id_in in Hin.
  unfold Store.embed_job. destruct (Store.applications_job_id a) as [j|]; [|reflexivity].
  apply existsb_exists in Hin. destruct Hin as (j' & Hj' & E).
  apply String.eqb_eq in E. subst j'.
  unfold Store.own_job_ids in Hj'. apply in_map_iff in Hj'.
  destruct Hj' as (job & <- & Hjob).
  rewrite (find_job_unique (Store.owned db uid) job);
    [| now apply unique_keys_filter | exact Hjob].
  unfold Store.owned in Hjob. apply filter_In in Hjob.
  now rewrite (find_job_unique (Store.from_jobs db) job).
Qed.

Lemma select_job_ids_own (db : Store.t) (uid : string) :
  map id (map (fun j => {| id := Store.jobs_id j |}) (Store.owned db uid))
  = Store.own_job_ids db uid.
Proof. unfold Store.own_job_ids. rewrite map_map. reflexivity. Qed.

(** What an HR caller gets from a store depends on three things only. *)
Lemma hr_response_determined (caller : User) (db1 db2 : Store.t) (request : NextRequest) :
  Store.has_role db1 (user_id caller) "HR" ->
  Store.has_role db2 (user_id caller) "HR" ->
  Store.job_ids_unique db1 ->
  Store.job_ids_unique db2 ->
  Store.owned db1 (user_id caller) = Store.owned db2 (user_id caller) ->
  Store.own_applications db1 (user_id caller)
  = Store.own_applications db2 (user_id caller) ->
  GET (Resolved (Store.client (Some caller) db1)) request
  = GET (Resolved (Store.client (Some caller) db2)) request.
Proof.
  intros Hr1 Hr2 Hu1 Hu2 Hown Happs.
  assert (Hids : Store.own_job_ids db1 (user_id caller)
                 = Store.own_job_ids db2 (user_id caller))
    by (unfold Store.own_job_ids; now rewrite Hown).
  run_handler. unfold Store.has_role in Hr1, Hr2. rewrite Hr1, Hr2. simpl.
  destruct (searchParams_get (searchParams request) "type") as [chartType|];
    [|reflexivity].
  destruct (chartType =? ""); [reflexivity|]. simpl.
  rewrite !select_job_ids_own, <- Hids.
  destruct (Store.own_job_ids db1 (user_id caller)) as [|j js] eqn:Ej; [reflexivity|].
  simpl. unfold charts, await, bind, ret, in_job_ids. simpl.
  destruct (chartType =? "monthly"); simpl.
  - unfold Store.select_created_at.
    fold (Store.own_job_ids db1 (user_id caller)) in *.
    assert (E : filter (Store.job_id_in (Some (j :: js))) (Store.from_applications db1)
                = filter (Store.job_id_in (Some (j :: js))) (Store.from_applications db2)).
    { unfold Store.own_applications in Happs. now rewrite <- Hids, Ej in Happs. }
    now rewrite E.
  - destruct (chartType =? "by-job"); simpl; [|reflexivity].
    unfold Store.select_job_title.
    assert (E : map (fun a => {| job_id := Store.applications_job_id a;
                                 jobs := Store.embed_job db1 a |})
                  (filter (Store.job_id_in (Some (j :: js))) (Store.from_applications db1))
                = map (fun a => {| job_id := Store.applications_job_id a;
                                   jobs := Store.embed_job db2 a |})
                  (filter (Store.job_id_in (Some (j :: js))) (Store.from_applications db2))).
    { pose proof Happs as Happs'. unfold Store.own_applications in Happs'.
      rewrite <- Hids, Ej in Happs'. rewrite <- Happs'.
      apply map_ext_in. intros a Ha. f_equal.
      assert (Ha1 : In a (Store.own_applications db1 (user_id caller)))
        by (unfold Store.own_applications; now rewrite Ej).
      rewrite (embed_own_job db1 (user_id caller) a Hu1 Ha1).
      rewrite Happs in Ha1.
      rewrite (embed_own_job db2 (user_id caller) a Hu2 Ha1).
      now rewrite Hown. }
    now rewrite E.
Qed.

Lemma filter_idem {A} (p : A -> bool) (l : list A) : filter p (filter p l) = filter p l.
Proof.
  apply filter_all. intros x Hx. now apply filter_In in Hx.
Qed.

Lemma restrict_owned (db : Store.t) (uid : string) :
  Store.owned (Store.restrict db uid) uid = Store.owned db uid.
Proof. unfold Store.owned at 1. simpl. apply filter_idem. Qed.

Lemma restrict_own_applications (db : Store.t) (uid : string) :
  Store.own_applications (Store.restrict db uid) uid = Store.own_applications db uid.
Proof.
  unfold Store.own_applications at 1, Store.own_job_ids.
  rewrite restrict_owned. simpl. apply filter_idem.
Qed.

(** C1.  What an HR caller receives is derived only from their own jobs
    and the applications to those jobs: two stores that agree on the
    caller's jobs and on the applications whose [job_id] is among them
    give the caller the same response, for any chart type, however they
    differ elsewhere; in particular the response is that of the store cut
    down to the caller's jobs and their applications. *)
Theorem hr_scope_isolation (caller : User) (db1 db2 : Store.t) (request : NextRequest) :
  Store.has_role db1 (user_id caller) "HR" ->
  Store.has_role db2 (user_id caller) "HR" ->
  Store.job_ids_unique db1 ->
  Store.job_ids_unique db2 ->
  Store.owned db1 (user_id caller) = Store.owned db2 (user_id caller) ->
  Store.own_applications db1 (user_id caller)
  = Store.own_applications db2 (user_id caller) ->
  GET (Resolved (Store.client (Some caller) db1)) request
  = GET (Resolved (Store.client (Some caller) db2)) request
  /\ GET (Resolved (Store.client (Some caller) db1)) request
     = GET (Resolved (Store.client (Some caller) (Store.restrict db1 (user_id caller))))
           request.
Proof.
  intros Hr1 Hr2 Hu1 Hu2 Hown Happs. split.
  - now apply hr_response_determined.
  - apply hr_response_determined; try assumption.
    + unfold Store.job_ids_unique, Store.restrict. simpl.
      now apply unique_keys_filter.
    + symmetry. apply restrict_owned.
    + symmetry. apply restrict_own_applications.
Qed.

(* ================================================================== *)
(** ** Parameter validation *)
(* ================================================================== *)

(** *** Substrings *)

Lemma prefix_app (a b : string) : prefix a (a ++ b) = true.
Proof.
  induction a as [|c a IH]; simpl.
  - now destruct b.
  - destruct (ascii_dec c c) as [_|H]; [exact IH | now contradiction H].
Qed.

Lemma includes_prefix (needle s : string) :
  prefix needle s = true -> Js.includes needle s = true.
Proof. intros H. destruct s; simpl in *; now rewrite H. Qed.

Lemma includes_app (needle a b : string) :
  Js.includes needle (a ++ needle ++ b) = true.
Proof.
  induction a as [|c a IH].
  - change ("" ++ needle ++ b) with (needle ++ b). apply includes_prefix, prefix_app.
  - simpl. rewrite IH. apply orb_true_r.
Qed.

Lemma includes_tail (needle a b : string) :
  Js.includes needle b = true -> Js.includes needle (a ++ b) = true.
Proof.
  intros H. induction a as [|c a IH]; simpl; [exact H|].
  rewrite IH. apply orb_true_r.
Qed.

(** C2, as stated, fails: without a [type] parameter an ADMIN caller is
    answered 400, but the message names no supported chart type. *)
Lemma missing_type_names_no_chart_type :
  authorised (Store.client (Some admin) sample_db) admin "ADMIN"
  /\ searchParams_get (searchParams no_type) "type" = None
  /\ snd (GET (Resolved (Store.client (Some admin) sample_db)) no_type)
     = Resolved {| status := 400;
                   body := Failure "Missing required parameter: type" None |}
  /\ ~ invalid_parameter None
         {| status := 400; body := Failure "Missing required parameter: type" None |}.
Proof.
  split; [split; reflexivity|]. split; [reflexivity|]. split; [reflexivity|].
  intros (_ & text & c & Hb & _ & Hm & _).
  vm_compute in Hb. injection Hb as <- <-. vm_compute in Hm. discriminate.
Qed.

(** An HR caller without jobs is answered before the chart type is looked
    at. *)
Example hr_without_jobs_any_type :
  snd (GET (Resolved (Store.client (Some newcomer) sample_db)) (chart "weekly"))
  = Resolved {| status := 200; body := Success [] |}.
Proof. reflexivity. Qed.

Lemma missing_type (supabase : SupabaseClient) (request : NextRequest)
    (caller : User) (r : string) :
  authorised supabase caller r ->
  r = "HR" \/ r = "ADMIN" ->
  searchParams_get (searchParams request) "type" = None
  \/ searchParams_get (searchParams request) "type" = Some "" ->
  GET (Resolved supabase) request
  = ([AuthGetUser; ProfilesSelectRole (user_id caller)],
     Resolved {| status := 400;
                 body := Failure "Missing required parameter: type" None |}).
Proof.
  intros [Hauth Hprof] Hr Htype. run_handler. rewrite Hauth. simpl. rewrite Hprof.
  destruct Hr as [-> | ->]; simpl; destruct Htype as [-> | ->]; reflexivity.
Qed.

Lemma unsupported_type (supabase : SupabaseClient) (request : NextRequest)
    (isAdmin : bool) (jobIds : list string) (chartType : string) (issued : list Query) :
  reaches_charts supabase request isAdmin jobIds chartType issued ->
  chartType <> "monthly" -> chartType <> "by-job" ->
  GET (Resolved supabase) request
  = (issued,
     Resolved {| status := 400;
                 body := Failure ("Invalid chart type: " ++ chartType
                                  ++ ". Supported types: monthly, by-job") None |}).
Proof.
  intros Hreach Hm Hj. rewrite (GET_charts _ _ _ _ _ _ Hreach). unfold charts.
  apply String.eqb_neq in Hm, Hj. rewrite Hm, Hj. simpl.
  now rewrite app_nil_r.
Qed.

(** C2, amended.  For a caller with a session and role HR or ADMIN: when
    [type] is absent or empty the answer is 400 with the message
    ["Missing required parameter: type"]; when [type] is a non-empty
    string other than [monthly] and [by-job] and the request gets to the
    chart switch (an ADMIN, or an HR caller whose jobs query gave at least
    one job) the answer is 400 with a message naming the value and the
    supported types. *)
Theorem invalid_type_is_400 (supabase : SupabaseClient) (request : NextRequest) :
  (forall caller r,
      authorised supabase caller r ->
      r = "HR" \/ r = "ADMIN" ->
      searchParams_get (searchParams request) "type" = None
      \/ searchParams_get (searchParams request) "type" = Some "" ->
      GET (Resolved supabase) request
      = ([AuthGetUser; ProfilesSelectRole (user_id caller)],
         Resolved {| status := 400;
                     body := Failure "Missing required parameter: type" None |}))
  /\ (forall isAdmin jobIds chartType issued,
         reaches_charts supabase request isAdmin jobIds chartType issued ->
         chartType <> "monthly" -> chartType <> "by-job" ->
         GET (Resolved supabase) request
         = (issued,
            Resolved {| status := 400;
                        body := Failure ("Invalid chart type: " ++ chartType
                                         ++ ". Supported types: monthly, by-job")
                                  None |})
         /\ exists response,
              snd (GET (Resolved supabase) request) = Resolved response
              /\ invalid_parameter (Some chartType) response).
Proof.
  split.
  - intros caller r. apply missing_type.
  - intros isAdmin jobIds chartType issued Hreach Hm Hj.
    pose proof (unsupported_type _ _ _ _ _ _ Hreach Hm Hj) as E.
    split; [exact E|]. rewrite E. simpl. eexists. split; [reflexivity|].
    split; [reflexivity|].
    eexists _, _. split; [reflexivity|]. repeat split.
    + intros v [= <-]. apply (includes_app chartType "Invalid chart type: ").
    + apply (includes_tail _ "Invalid chart type: "), (includes_tail _ chartType).
      reflexivity.
    + apply (includes_tail _ "Invalid chart type: "), (includes_tail _ chartType).
      reflexivity.
Qed.

(* ================================================================== *)
(** ** Failures *)
(* ================================================================== *)








(** Reading [message] of [null] or [undefined] in the [catch] block
    throws: the fault leaves the handler. *)
Lemma nullish_is_not_caught (createClient : Outcome SupabaseClient)
    (request : NextRequest) (issued : list Query) :
  (handler createClient request = (issued, Rejected Null) ->
   GET createClient request = (issued, Rejected (TypeError "null" "message")))
  /\ (handler createClient request = (issued, Rejected Undefined) ->
      GET createClient request = (issued, Rejected (TypeError "undefined" "message"))).
Proof. split; intros H; unfold GET; rewrite H; reflexivity. Qed.


(** Closes a goal [forall r, o = Resolved r -> _] about the status of [r]
    once [o] is a rejection or a given response. *)
Ltac status_known :=
  let H := fresh "H" in
  simpl; intros ? H;
  first [ discriminate H | injection H as <-; simpl; intuition discriminate ].

Lemma charts_status (supabase : SupabaseClient) (isAdmin : bool)
    (jobIds : list string) (chartType : string) (r : NextResponse) :
  catch (snd (charts supabase isAdmin jobIds chartType)) = Resolved r ->
  In (status r) status_codes /\ (success (body r) = true <-> status r = 200).
Proof.
  revert r. unfold charts, await, bind, ret, status_codes.
  destruct (chartType =? "monthly").
  - destruct (applications_select_created_at supabase _) as [r|e]; simpl.
    + destruct (error r); status_known.
    + destruct e; status_known.
  - destruct (chartType =? "by-job").
    + destruct (applications_select_job_title supabase _) as [r|e]; simpl.
      * destruct (error r); status_known.
      * destruct e; status_known.
    + status_known.
Qed.

(** Whenever the handler answers, the caller gets one of the six
    statuses, and [success] is [true] exactly at status 200. *)
Lemma GET_status (createClient : Outcome SupabaseClient) (request : NextRequest)
    (response : NextResponse) :
  snd (GET createClient request) = Resolved response ->
  In (status response) status_codes
  /\ (success (body response) = true <-> status response = 200).
Proof.
  revert response. unfold GET, handler, settle, await, bind.
  destruct createClient as [supabase|e]; [|destruct e; unfold status_codes; status_known].
  destruct (auth_getUser supabase) as [auth|e];
    [|destruct e; unfold status_codes; status_known].
  destruct (authError auth); [unfold status_codes; status_known|].
  destruct (user auth) as [caller|]; [|unfold status_codes; status_known].
  destruct (profiles_select_role supabase (user_id caller)) as [p|e];
    [|destruct e; unfold status_codes; status_known].
  destruct (error p); [unfold status_codes; status_known|].
  destruct (data p) as [profile|]; [|unfold status_codes; status_known].
  destruct (negb (role profile =? "HR") && negb (role profile =? "ADMIN"));
    [unfold status_codes; status_known|].
  destruct (searchParams_get (searchParams request) "type") as [chartType|];
    [|unfold status_codes; status_known].
  destruct (chartType =? ""); [unfold status_codes; status_known|].
  unfold scope, await, bind, ret.
  destruct (role profile =? "ADMIN"); simpl.
  - intros response.
    pose proof (charts_status supabase true [] chartType response) as H.
    destruct (charts supabase true [] chartType) as [tr o]. exact H.
  - destruct (jobs_select_id supabase (user_id caller)) as [r|e];
      [|destruct e; unfold status_codes; status_known].
    destruct (error r); [unfold status_codes; status_known|].
    destruct (List.length _ =? 0)%nat; simpl; [unfold status_codes; status_known|].
    intros response.
    match goal with
    | |- context [charts ?s ?a ?j ?c] =>
        pose proof (charts_status s a j c response) as H;
        destruct (charts s a j c) as [tr o]
    end.
    exact H.
Qed.


(* ================================================================== *)
(** ** Monthly aggregation *)
(* ================================================================== *)

(** *** The order of month keys *)

Lemma compare_refl (s : string) : String.compare s s = Eq.
Proof. now apply String_as_OT.cmp_eq. Qed.

Lemma earlier_trans (a b c : string) : earlier a b -> earlier b c -> earlier a c.
Proof.
  unfold earlier. intros H1 H2.
  apply String_as_OT.cmp_lt in H1, H2. apply String_as_OT.cmp_lt.
  eapply String_as_OT.lt_trans; eauto.
Qed.

Lemma later_earlier (a b : string) : String.compare a b = Gt -> earlier b a.
Proof.
  unfold earlier. intros H. rewrite String.compare_antisym, H. reflexivity.
Qed.

Lemma byMonth_before (a b : MonthRow.t) :
  Js.before byMonth a b <->
  earlier (MonthRow.month a) (MonthRow.month b) \/ MonthRow.month a = MonthRow.month b.
Proof.
  unfold Js.before, byMonth, Js.localeCompare, earlier.
  destruct (String.compare (MonthRow.month a) (MonthRow.month b)) eqn:E.
  - apply String.compare_eq_iff in E. split; [now right | lia].
  - split; [now left | lia].
  - split; [lia|]. intros [H|H]; [discriminate|].
    rewrite H, compare_refl in E. discriminate.
Qed.

Lemma byMonth_total (a b : MonthRow.t) :
  Js.before byMonth a b \/ Js.before byMonth b a.
Proof.
  rewrite !byMonth_before.
  destruct (String.compare (MonthRow.month a) (MonthRow.month b)) eqn:E.
  - apply String.compare_eq_iff in E. left. now right.
  - left. now left.
  - right. left. now apply later_earlier.
Qed.

Lemma byMonth_trans (a b c : MonthRow.t) :
  Js.before byMonth a b -> Js.before byMonth b c -> Js.before byMonth a c.
Proof.
  rewrite !byMonth_before. intros [H1|H1] [H2|H2].
  - left. eapply earlier_trans; eauto.
  - left. now rewrite <- H2.
  - left. now rewrite H1.
  - right. congruence.
Qed.

Lemma StronglySorted_strict {A B} (f : A -> B) (R R' : A -> A -> Prop) (l : list A) :
  (forall x y, R x y -> f x <> f y -> R' x y) ->
  NoDup (map f l) -> StronglySorted R l -> StronglySorted R' l.
Proof.
  intros HR. induction l as [|x l IH]; simpl; intros Hnd Hs; [constructor|].
  inversion Hnd as [|? ? Hnot Hnd']; subst.
  inversion Hs as [|? ? Hs' Hall]; subst.
  constructor; [auto|].
  rewrite Forall_forall in *. intros y Hy. apply HR; [auto|].
  intros E. apply Hnot. rewrite E. now apply in_map.
Qed.

(** The sorted rows ascend strictly by month key. *)
Lemma monthlySorted_ascending (applications : option (list CreatedAtRow)) :
  StronglySorted (fun a b => earlier (MonthRow.month a) (MonthRow.month b))
    (monthlySorted applications).
Proof.
  apply (StronglySorted_strict MonthRow.month (Js.before byMonth)).
  - intros x y H Hne. apply byMonth_before in H. tauto.
  - apply monthlySorted_NoDup.
  - unfold monthlySorted. apply sort_sorted.
    + apply byMonth_total.
    + apply byMonth_trans.
Qed.

Lemma monthCounts_keys (applications : option (list CreatedAtRow)) (k : string) :
  In k (Js.keys (monthCounts applications)) <->
  In k (distinct_months (fetched applications)).
Proof.
  unfold distinct_months. rewrite nodup_In, in_map_iff.
  pose proof (applications_in_pos k (fetched applications)) as Hpos.
  pose proof (applications_in_nonneg k (fetched applications)) as Hnn.
  pose proof (monthCounts_lookup applications k) as Hl.
  pose proof (lookup_None k (monthCounts applications)) as Hn.
  destruct (Z.eqb_spec (applications_in k (fetched applications)) 0) as [E|E].
  - split.
    + intros Hin. exfalso. now apply Hn.
    + intros (a & Ha & Hin). exfalso.
      assert (0 < applications_in k (fetched applications))
        by (apply Hpos; now exists a).
      lia.
  - split.
    + intros _. destruct Hpos as [Hpos _].
      destruct Hpos as (a & Ha & Hk); [lia|]. now exists a.
    + intros _. destruct (in_dec string_dec k (Js.keys (monthCounts applications)))
        as [Hin|Hin]; [exact Hin|].
      apply Hn in Hin. rewrite Hin in Hl. discriminate.
Qed.

Lemma monthlySorted_month (applications : option (list CreatedAtRow)) (k : string) :
  In k (map MonthRow.month (monthlySorted applications)) <->
  In k (distinct_months (fetched applications)).
Proof.
  rewrite <- monthCounts_keys. split; apply Permutation_in.
  - apply monthlySorted_months.
  - apply Permutation_sym, monthlySorted_months.
Qed.

Lemma monthlySorted_length (applications : option (list CreatedAtRow)) :
  List.length (monthlySorted applications)
  = List.length (distinct_months (fetched applications)).
Proof.
  rewrite <- (length_map MonthRow.month).
  apply Permutation_length, NoDup_Permutation.
  - apply monthlySorted_NoDup.
  - apply NoDup_nodup.
  - intros k. apply monthlySorted_month.
Qed.

(** *** Month keys and the calendar *)

Lemma all_from_spec (p : Z -> bool) (fuel : nat) (n k : Z) :
  all_from fuel n p = true -> n <= k < n + Z.of_nat fuel -> p k = true.
Proof.
  revert n. induction fuel as [|fuel IH]; intros n H Hk; [lia|].
  cbn [all_from] in H. apply andb_true_iff in H. destruct H as [Hn H].
  destruct (Z.eq_dec k n) as [->|Hne]; [exact Hn|].
  apply (IH (n + 1)); [exact H | lia].
Qed.

Lemma compare_app (a b s t : string) :
  String.length a = String.length b ->
  String.compare (a ++ s) (b ++ t)
  = match String.compare a b with
    | Eq => String.compare s t
    | c => c
    end.
Proof.
  revert b. induction a as [|c a IH]; intros [|d b] H; try discriminate; simpl.
  - reflexivity.
  - injection H as H. rewrite (IH b H).
    destruct (Ascii.compare c d); reflexivity.
Qed.

Lemma four_digit_years_checked :
  all_from (Z.to_nat 9000) 1000
    (fun y => (String.length (year_text y) =? 4)%nat) = true.
Proof. vm_compute. reflexivity. Qed.

Lemma consecutive_years_checked :
  all_from (Z.to_nat 8999) 1000
    (fun y => is_Lt (String.compare (year_text y) (year_text (y + 1)))) = true.
Proof. vm_compute. reflexivity. Qed.

Lemma months_checked :
  all_from 12 0
    (fun m1 => all_from 12 0
       (fun m2 => same_comparison (String.compare (month_text m1) (month_text m2))
                                  (m1 ?= m2)%Z)) = true.
Proof. vm_compute. reflexivity. Qed.

Lemma year_text_length (y : Z) :
  1000 <= y <= 9999 -> String.length (year_text y) = 4%nat.
Proof.
  intros H. apply Nat.eqb_eq.
  apply (all_from_spec _ _ _ y four_digit_years_checked). lia.
Qed.

Lemma year_text_next (y : Z) :
  1000 <= y < 9999 -> earlier (year_text y) (year_text (y + 1)).
Proof.
  intros H. unfold earlier.
  assert (E := all_from_spec _ _ _ y consecutive_years_checked ltac:(lia)).
  cbv beta in E.
  destruct (String.compare (year_text y) (year_text (y + 1)));
    try reflexivity; discriminate E.
Qed.

Lemma year_text_ascending (x y : Z) :
  1000 <= x -> x < y -> y <= 9999 -> earlier (year_text x) (year_text y).
Proof.
  intros Hx Hlt Hy.
  assert (H : forall d : nat, x + 1 + Z.of_nat d <= 9999 ->
                              earlier (year_text x) (year_text (x + 1 + Z.of_nat d))).
  { induction d as [|d IH]; intros Hd.
    - replace (x + 1 + Z.of_nat 0) with (x + 1) by lia. apply year_text_next. lia.
    - eapply earlier_trans; [apply IH; lia|].
      replace (x + 1 + Z.of_nat (S d)) with (x + 1 + Z.of_nat d + 1) by lia.
      apply year_text_next. lia. }
  replace y with (x + 1 + Z.of_nat (Z.to_nat (y - x - 1))) by lia.
  apply H. lia.
Qed.

Lemma month_text_compare (m1 m2 : Z) :
  0 <= m1 <= 11 -> 0 <= m2 <= 11 ->
  String.compare (month_text m1) (month_text m2) = (m1 ?= m2)%Z.
Proof.
  intros H1 H2.
  assert (E1 := all_from_spec _ _ _ m1 months_checked ltac:(cbn; lia)).
  cbv beta in E1.
  assert (E2 := all_from_spec _ _ _ m2 E1 ltac:(cbn; lia)).
  cbv beta in E2.
  destruct (String.compare (month_text m1) (month_text m2)), (m1 ?= m2)%Z;
    try reflexivity; discriminate.
Qed.

Lemma monthOf_calendar (app : CreatedAtRow) (y m : Z) :
  local (created_at app) = Some (y, m) ->
  monthOf app = year_text y ++ month_text m.
Proof.
  intros H. unfold monthOf, monthKey, Date_new, getFullYear, getMonth. simpl.
  rewrite H. reflexivity.
Qed.

(** For four-digit years the order of month keys is the order of the
    calendar. *)
Lemma earlier_chronological (a b : CreatedAtRow) (ya ma yb mb : Z) :
  in_calendar a ya ma -> in_calendar b yb mb ->
  (earlier (monthOf a) (monthOf b) <-> ya < yb \/ (ya = yb /\ ma < mb)).
Proof.
  intros (Ha & Hya & Hma) (Hb & Hyb & Hmb).
  rewrite (monthOf_calendar a ya ma Ha), (monthOf_calendar b yb mb Hb).
  unfold earlier. rewrite compare_app
    by (rewrite !year_text_length by lia; reflexivity).
  destruct (Z.lt_trichotomy ya yb) as [Hlt | [-> | Hgt]].
  - pose proof (year_text_ascending ya yb ltac:(lia) Hlt ltac:(lia)) as E.
    unfold earlier in E. rewrite E. split; [intros _; now left | reflexivity].
  - rewrite compare_refl, month_text_compare by lia.
    rewrite Z.compare_lt_iff. split; [intros H; now right | lia].
  - pose proof (year_text_ascending yb ya ltac:(lia) Hgt ltac:(lia)) as E.
    unfold earlier in E. rewrite String.compare_antisym, E. simpl.
    split; [discriminate | lia].
Qed.

Lemma distinct_months_In (apps : list CreatedAtRow) (k : string) :
  In k (distinct_months apps) <-> exists a, In a apps /\ monthOf a = k.
Proof.
  unfold distinct_months. rewrite nodup_In, in_map_iff.
  split; intros (a & H1 & H2); exists a; tauto.
Qed.

(** C5, as stated, fails: with one application in May of the year 999
    and one in each month of 2024, thirteen months are present; the
    response keeps May 999, the earliest of them, as its last row, and
    drops January 2024. *)
Lemma earliest_month_is_kept :
  (12 < List.length
          (distinct_months
             (fetched (data (Store.select_created_at early_year_db None)))))%nat
  /\ In {| created_at := at_month 0 999 4 |}
        (fetched (data (Store.select_created_at early_year_db None)))
  /\ In {| created_at := at_month 1 2024 0 |}
        (fetched (data (Store.select_created_at early_year_db None)))
  /\ monthOf {| created_at := at_month 0 999 4 |} = "999-05"
  /\ monthOf {| created_at := at_month 1 2024 0 |} = "2024-01"
  /\ snd (GET (Resolved (Store.client (Some admin) early_year_db)) (chart "monthly"))
     = Resolved
         {| status := 200;
            body := Success
                      (map (fun k => Monthly (MonthRow.mk k 1))
                         [ "2024-02"; "2024-03"; "2024-04"; "2024-05"; "2024-06";
                           "2024-07"; "2024-08"; "2024-09"; "2024-10"; "2024-11";
                           "2024-12"; "999-05" ]) |}.
Proof.
  split; [vm_compute; lia|].
  split; [vm_compute; do 12 right; now left|].
  split; [vm_compute; do 11 right; now left|].
  split; [reflexivity|]. split; reflexivity.
Qed.

(** C5, amended.  When the fetched applications span more than 12
    distinct month keys, the monthly response carries exactly 12 rows, in
    strictly ascending month-key order, each with the number of
    applications of its month, and every month left out sorts before every
    month kept: the 12 latest in the order of month keys.  Between
    timestamps that are dates with a four-digit local year that order is
    the order of the calendar, so among them every month left out is
    chronologically earlier than every month kept. *)
Theorem monthly_keeps_latest_twelve
    (supabase : SupabaseClient) (request : NextRequest) (isAdmin : bool)
    (applications : option (list CreatedAtRow)) :
  monthly_request supabase request isAdmin applications ->
  (12 < List.length (distinct_months (fetched applications)))%nat ->
  snd (GET (Resolved supabase) request)
  = Resolved {| status := 200;
                body := Success (map Monthly (monthlyData applications)) |}
  /\ List.length (monthlyData applications) = 12%nat
  /\ StronglySorted (fun a b => earlier (MonthRow.month a) (MonthRow.month b))
       (monthlyData applications)
  /\ (forall r, In r (monthlyData applications) ->
        In (MonthRow.month r) (distinct_months (fetched applications))
        /\ MonthRow.count r
           = applications_in (MonthRow.month r) (fetched applications))
  /\ (forall k, In k (distinct_months (fetched applications)) ->
        ~ In k (map MonthRow.month (monthlyData applications)) ->
        forall r, In r (monthlyData applications) -> earlier k (MonthRow.month r))
  /\ (forall a b ya ma yb mb,
        in_calendar a ya ma -> in_calendar b yb mb ->
        (earlier (monthOf a) (monthOf b) <-> ya < yb \/ (ya = yb /\ ma < mb)))
  /\ (forall a b ya ma yb mb,
        In a (fetched applications) -> In b (fetched applications) ->
        in_calendar a ya ma -> in_calendar b yb mb ->
        ~ In (monthOf a) (map MonthRow.month (monthlyData applications)) ->
        In (monthOf b) (map MonthRow.month (monthlyData applications)) ->
        ya < yb \/ (ya = yb /\ ma < mb)).
Proof.
  intros Hreq Hmany.
  pose proof (slice_from_end_split 12 (monthlySorted applications)) as Hsplit.
  fold (monthlyData applications) in Hsplit.
  pose proof (monthlySorted_ascending applications) as Hsorted.
  split; [exact (GET_monthly _ _ _ _ Hreq)|].
  split.
  { unfold monthlyData. rewrite slice_from_end_length, monthlySorted_length. lia. }
  split.
  { rewrite Hsplit in Hsorted. exact (StronglySorted_app_r _ _ _ Hsorted). }
  split.
  { intros r Hr. split.
    - apply monthlySorted_month, in_map. unfold monthlyData in Hr.
      exact (slice_from_end_incl _ _ _ Hr).
    - now apply monthlyData_In in Hr. }
  split.
  { intros k Hk Hout r Hr.
    apply monthlySorted_month, in_map_iff in Hk. destruct Hk as (r' & <- & Hr').
    rewrite Hsplit in Hr', Hsorted. apply in_app_or in Hr'.
    destruct Hr' as [Hr'|Hr'].
    - exact (StronglySorted_app_cross _ _ _ Hsorted r' r Hr' Hr).
    - exfalso. apply Hout. now apply in_map. }
  split; [intros a b ya ma yb mb; apply earlier_chronological|].
  intros a b ya ma yb mb Ha Hb Ca Cb Hout Hkept.
  apply (earlier_chronological a b ya ma yb mb Ca Cb).
  apply in_map_iff in Hkept. destruct Hkept as (r & Er & Hr). rewrite <- Er.
  assert (Hk : In (monthOf a) (distinct_months (fetched applications)))
    by (apply distinct_months_In; now exists a).
  apply monthlySorted_month, in_map_iff in Hk. destruct Hk as (r' & Er' & Hr').
  rewrite Hsplit in Hr', Hsorted. apply in_app_or in Hr'.
  destruct Hr' as [Hr'|Hr'].
  - rewrite <- Er'. exact (StronglySorted_app_cross _ _ _ Hsorted r' r Hr' Hr).
  - exfalso. apply Hout. rewrite <- Er'. now apply in_map.
Qed.

(** *** The example of the specification *)

Lemma monthCounts_of_keys (applications : option (list CreatedAtRow)) :
  monthCounts applications
  = fold_left (fun o k => Js.set k (bump o k) o)
      (map monthOf (fetched applications)) Js.empty.
Proof.
  unfold monthCounts. generalize (@Js.empty Z).
  induction (fetched applications) as [|a apps IH]; intros o; simpl; [reflexivity|].
  apply IH.
Qed.

Lemma january_or_february (k : string) :
  In k ["2024-01"; "2024-01"; "2024-01"; "2024-02"] ->
  k = "2024-01" \/ k = "2024-02".
Proof. simpl. intuition. Qed.

Lemma three_and_one (applications : option (list CreatedAtRow)) :
  Permutation (map monthOf (fetched applications))
    ["2024-01"; "2024-01"; "2024-01"; "2024-02"] ->
  monthlyData applications
  = [MonthRow.mk "2024-01" 3; MonthRow.mk "2024-02" 1].
Proof.
  intros H. unfold monthlyData, monthlySorted. rewrite monthCounts_of_keys.
  set (ks := map monthOf (fetched applications)) in *. clearbody ks.
  pose proof (Permutation_length H) as Hlen.
  assert (Hc : count_occ string_dec ks "2024-02" = 1%nat)
    by (rewrite (Permutation_count_occ string_dec) in H; now rewrite H).
  assert (Hin : forall k, In k ks -> k = "2024-01" \/ k = "2024-02")
    by (intros k Hk; apply january_or_february; eapply Permutation_in; eauto).
  destruct ks as [|k1 [|k2 [|k3 [|k4 [|k5 ks]]]]]; try discriminate Hlen.
  destruct (Hin k1) as [-> | ->]; [simpl; tauto| |];
    (destruct (Hin k2) as [-> | ->]; [simpl; tauto| |]);
    (destruct (Hin k3) as [-> | ->]; [simpl; tauto| |]);
    (destruct (Hin k4) as [-> | ->]; [simpl; tauto| |]);
    first [reflexivity | vm_compute in Hc; discriminate Hc].
Qed.

Lemma monthlySorted_one_row_per_month (applications : option (list CreatedAtRow)) :
  one_row_per_month (fetched applications) (monthlySorted applications).
Proof.
  split; [apply monthlySorted_NoDup|]. split.
  - intros k. rewrite monthlySorted_month. apply distinct_months_In.
  - intros r Hr. now apply monthlySorted_In in Hr.
Qed.

(** C6, as stated, fails: of the fourteen months present in
    [fourteen_months_db], January 2023 has no row in the monthly
    response. *)
Lemma fourteen_months_not_all_listed :
  snd (GET (Resolved (Store.client (Some admin) fourteen_months_db)) (chart "monthly"))
  = Resolved
      {| status := 200;
         body := Success
                   (map Monthly
                      (monthlyData (data (Store.select_created_at
                                            fourteen_months_db None)))) |}
  /\ (exists a, In a (fetched (data (Store.select_created_at fourteen_months_db None)))
                /\ monthOf a = "2023-01")
  /\ ~ In "2023-01"
         (map MonthRow.month
            (monthlyData (data (Store.select_created_at fourteen_months_db None))))
  /\ ~ one_row_per_month
         (fetched (data (Store.select_created_at fourteen_months_db None)))
         (monthlyData (data (Store.select_created_at fourteen_months_db None))).
Proof.
  assert (Hin : exists a,
             In a (fetched (data (Store.select_created_at fourteen_months_db None)))
             /\ monthOf a = "2023-01").
  { exists {| created_at := at_month 0 2023 0 |}. split; [|reflexivity].
    vm_compute. do 13 right. now left. }
  assert (Hout : ~ In "2023-01"
                     (map MonthRow.month
                        (monthlyData (data (Store.select_created_at
                                              fourteen_months_db None))))).
  { vm_compute. intuition discriminate. }
  split; [reflexivity|]. split; [exact Hin|]. split; [exact Hout|].
  intros (_ & Hkeys & _). apply Hout, Hkeys, Hin.
Qed.

(** C6, amended.  The monthly response is the last 12 rows of the
    aggregate that has one row per distinct month key present among the
    fetched applications, each counting the applications of its month:
    every row of the response stands for a month that is present, with the
    number of its applications (at least 1, no month is made up), no month
    has two rows, and when at most 12 months are present every one of them
    has its row.  Applications falling three times in 2024-01 and once in
    2024-02 give exactly the rows [2024-01: 3] and [2024-02: 1]. *)
Theorem monthly_counts_per_month
    (supabase : SupabaseClient) (request : NextRequest) (isAdmin : bool)
    (applications : option (list CreatedAtRow)) :
  monthly_request supabase request isAdmin applications ->
  snd (GET (Resolved supabase) request)
  = Resolved {| status := 200;
                body := Success (map Monthly (monthlyData applications)) |}
  /\ monthlyData applications = Js.slice_from_end 12 (monthlySorted applications)
  /\ one_row_per_month (fetched applications) (monthlySorted applications)
  /\ ((List.length (distinct_months (fetched applications)) <= 12)%nat ->
      one_row_per_month (fetched applications) (monthlyData applications))
  /\ NoDup (map MonthRow.month (monthlyData applications))
  /\ (forall r, In r (monthlyData applications) ->
        (exists a, In a (fetched applications) /\ monthOf a = MonthRow.month r)
        /\ MonthRow.count r = applications_in (MonthRow.month r) (fetched applications)
        /\ 1 <= MonthRow.count r)
  /\ (Permutation (map monthOf (fetched applications))
        ["2024-01"; "2024-01"; "2024-01"; "2024-02"] ->
      snd (GET (Resolved supabase) request)
      = Resolved
          {| status := 200;
             body := Success [ Monthly (MonthRow.mk "2024-01" 3);
                               Monthly (MonthRow.mk "2024-02" 1) ] |}).
Proof.
  intros Hreq.
  pose proof (GET_monthly _ _ _ _ Hreq) as E.
  pose proof (monthlySorted_one_row_per_month applications) as Hall.
  split; [exact E|].
  split; [reflexivity|].
  split; [exact Hall|].
  split.
  { intros H. unfold monthlyData. rewrite slice_from_end_all; [exact Hall|].
    now rewrite monthlySorted_length. }
  split; [apply monthlyData_NoDup|].
  split.
  { intros r Hr. pose proof (monthlyData_In _ _ Hr) as [Hc Hpos].
    split; [|split; assumption].
    destruct Hall as (_ & Hkeys & _). apply Hkeys, in_map.
    unfold monthlyData in Hr. exact (slice_from_end_incl _ _ _ Hr). }
  intros H. rewrite E, (three_and_one applications H). reflexivity.
Qed.

(* ================================================================== *)
(** ** By-job aggregation *)
(* ================================================================== *)

(** *** Relative order in a list *)

Lemma precedes_nth {A} (l : list A) (i j : nat) (a b : A) :
  nth_error l i = Some a -> nth_error l j = Some b -> (i < j)%nat -> precedes a b l.
Proof.
  revert i j. induction l as [|x l IH]; intros i j Hi Hj Hlt.
  - destruct i; discriminate.
  - destruct j as [|j]; [lia|]. destruct i as [|i]; simpl in *.
    + injection Hi as ->. apply precedes_here. eapply nth_error_In; eauto.
    + apply precedes_later. apply (IH i j); auto. lia.
Qed.

Lemma precedes_In {A} (a b : A) (l : list A) : precedes a b l -> In a l /\ In b l.
Proof.
  induction 1 as [l Hb | x l H IH]; simpl; tauto.
Qed.

Lemma precedes_app_l {A} (a b : A) (l m : list A) :
  precedes a b l -> precedes a b (l ++ m).
Proof.
  induction 1 as [l Hb | x l H IH]; simpl.
  - apply precedes_here, in_or_app. now left.
  - now apply precedes_later.
Qed.

Lemma precedes_filter {A} (p : A -> bool) (a b : A) (l : list A) :
  precedes a b l -> p a = true -> p b = true -> precedes a b (filter p l).
Proof.
  intros H Pa Pb. induction H as [l Hb | x l H IH]; simpl.
  - rewrite Pa. apply precedes_here, filter_In. now split.
  - destruct (p x); [now apply precedes_later | exact IH].
Qed.

Lemma precedes_unfilter {A} (p : A -> bool) (a b : A) (l : list A) :
  precedes a b (filter p l) -> precedes a b l.
Proof.
  induction l as [|x l IH]; simpl; intros H; [inversion H|].
  destruct (p x).
  - inversion H as [l' Hb | x' l' H']; subst.
    + apply precedes_here. apply filter_In in Hb. tauto.
    + apply precedes_later. auto.
  - apply precedes_later. auto.
Qed.

Lemma precedes_in_tail {A} (a b : A) (l m : list A) :
  precedes a b (l ++ m) -> ~ In a l -> precedes a b m.
Proof.
  induction l as [|x l IH]; simpl; intros H Hn; [exact H|].
  inversion H as [l' Hb | x' l' H']; subst.
  - exfalso. apply Hn. now left.
  - apply IH; [exact H' | tauto].
Qed.

Lemma precedes_in_head {A} (a b : A) (l m : list A) :
  precedes a b (l ++ m) -> ~ In b m -> precedes a b l.
Proof.
  induction l as [|x l IH]; simpl; intros H Hn.
  - apply precedes_In in H. tauto.
  - inversion H as [l' Hb | x' l' H']; subst.
    + apply precedes_here. apply in_app_or in Hb. tauto.
    + apply precedes_later. auto.
Qed.

Lemma precedes_map {A B} (f : A -> B) (a b : A) (l : list A) :
  precedes a b l -> precedes (f a) (f b) (map f l).
Proof.
  induction 1 as [l Hb | x l H IH]; simpl.
  - apply precedes_here. now apply in_map.
  - now apply precedes_later.
Qed.

Lemma precedes_unmap {A B} (f : A -> B) (a b : B) (l : list A) :
  precedes a b (map f l) ->
  exists x y, precedes x y l /\ f x = a /\ f y = b.
Proof.
  induction l as [|z l IH]; simpl; intros H; [inversion H|].
  inversion H as [l' Hb | x' l' H']; subst.
  - apply in_map_iff in Hb. destruct Hb as (y & Hy & Hin).
    exists z, y. split; [now apply precedes_here | tauto].
  - destruct (IH H') as (x & y & Hp & Hx & Hy).
    exists x, y. split; [now apply precedes_later | tauto].
Qed.

Lemma precedes_sorted {A} (R : A -> A -> Prop) (a b : A) (l : list A) :
  StronglySorted R l -> precedes a b l -> R a b.
Proof.
  intros Hs H. induction H as [l Hb | x l H IH].
  - inversion Hs as [|? ? _ Hall]; subst. rewrite Forall_forall in Hall. auto.
  - inversion Hs; subst. auto.
Qed.

Lemma precedes_distinct {A B} (f : A -> B) (a b : A) (l : list A) :
  NoDup (map f l) -> precedes a b l -> f a <> f b.
Proof.
  intros Hnd H. induction H as [l Hb | x l H IH]; simpl in Hnd;
    inversion Hnd as [|? ? Hnot Hnd']; subst.
  - intros E. apply Hnot. rewrite E. now apply in_map.
  - auto.
Qed.

(** *** The order in which job ids enter [jobCounts] *)

Lemma keys_tallyJob (o : Js.Object JobRow.t) (a : ApplicationJobRow) :
  Js.keys (tallyJob o a)
  = if missing o (jobId a) then (Js.keys o ++ [jobId a])%list else Js.keys o.
Proof.
  unfold tallyJob. rewrite keys_update.
  destruct (missing o (jobId a)) eqn:E; [|reflexivity].
  rewrite keys_set. unfold missing in E.
  now destruct (Js.lookup (jobId a) o).
Qed.

Lemma first_seen_found (k : string) (done rest : list ApplicationJobRow) :
  (exists a, In a done /\ jobId a = k) ->
  first_seen k (done ++ rest) = first_seen k done
  /\ (first_seen k done < List.length done)%nat.
Proof.
  induction done as [|x done IH]; simpl; intros (a & Hin & Hk); [contradiction|].
  destruct (String.eqb_spec (jobId x) k) as [E|E]; [split; [reflexivity | lia]|].
  destruct Hin as [->|Hin]; [contradiction|].
  destruct IH as [IH1 IH2]; [now exists a|]. split; [now f_equal | lia].
Qed.

Lemma first_seen_new (k : string) (done rest : list ApplicationJobRow)
    (a : ApplicationJobRow) :
  (forall x, In x done -> jobId x <> k) -> jobId a = k ->
  first_seen k (done ++ a :: rest) = List.length done.
Proof.
  intros Hn Ha. induction done as [|x done IH]; simpl.
  - apply String.eqb_eq in Ha. now rewrite Ha.
  - assert (E : (jobId x =? k) = false)
      by (apply String.eqb_neq, Hn; now left).
    rewrite E. f_equal. apply IH. intros y Hy. apply Hn. now right.
Qed.

Lemma jobCounts_key (apps : list ApplicationJobRow) (k : string) :
  In k (Js.keys (fold_left tallyJob apps Js.empty)) <->
  Js.inherited k = false /\ exists a, In a apps /\ jobId a = k.
Proof.
  pose proof (jobCounts_lookup (Some apps) k) as Hl.
  unfold jobCounts in Hl. simpl in Hl.
  pose proof (lookup_None k (fold_left tallyJob apps Js.empty)) as Hn.
  split.
  - intros Hin. destruct (Js.inherited k).
    + exfalso. now apply Hn.
    + split; [reflexivity|].
      destruct (first_for k apps) as [a|] eqn:E.
      * apply first_for_Some in E. exists a. tauto.
      * exfalso. now apply Hn.
  - intros (Hi & a & Hin & Hk). rewrite Hi in Hl.
    destruct (first_for k apps) as [a'|] eqn:E.
    + destruct (in_dec string_dec k (Js.keys (fold_left tallyJob apps Js.empty)))
        as [H|H]; [exact H|].
      apply Hn in H. rewrite H in Hl. discriminate.
    + exfalso. exact (first_for_None k apps E a Hin Hk).
Qed.

Lemma StronglySorted_snoc {A} (R : A -> A -> Prop) (l : list A) (x : A) :
  StronglySorted R l -> (forall y, In y l -> R y x) -> StronglySorted R (l ++ [x]).
Proof.
  induction 1 as [|y l Hs IH Hall]; simpl; intros Hx.
  - repeat constructor.
  - constructor; [apply IH; auto|].
    apply Forall_app. split; [exact Hall|]. constructor; [auto|constructor].
Qed.

Lemma StronglySorted_ext {A} (R R' : A -> A -> Prop) (l : list A) :
  (forall x y, In x l -> In y l -> R x y -> R' x y) ->
  StronglySorted R l -> StronglySorted R' l.
Proof.
  intros H. induction 1 as [|x l Hs IH Hall].
  - constructor.
  - constructor.
    + apply IH. intros; apply H; simpl; auto.
    + rewrite Forall_forall in *. intros y Hy. apply H; simpl; auto.
Qed.

(** Own keys are created in the order their job ids are first met. *)
Lemma jobCounts_keys_first_seen (apps : list ApplicationJobRow) :
  StronglySorted (fun k k' => (first_seen k apps < first_seen k' apps)%nat)
    (Js.keys (fold_left tallyJob apps Js.empty)).
Proof.
  induction apps as [|a apps IH] using rev_ind; [constructor|].
  rewrite fold_left_app. simpl. rewrite keys_tallyJob.
  assert (Hold : forall k, In k (Js.keys (fold_left tallyJob apps Js.empty)) ->
                 first_seen k (apps ++ [a]) = first_seen k apps
                 /\ (first_seen k apps < List.length apps)%nat).
  { intros k Hk. apply jobCounts_key in Hk. apply first_seen_found. tauto. }
  assert (Hkeep : StronglySorted
            (fun k k' => (first_seen k (apps ++ [a]) < first_seen k' (apps ++ [a]))%nat)
            (Js.keys (fold_left tallyJob apps Js.empty))).
  { eapply StronglySorted_ext; [|exact IH].
    intros x y Hx Hy Hlt. simpl in Hlt.
    destruct (Hold x Hx) as [-> _]. destruct (Hold y Hy) as [-> _]. exact Hlt. }
  destruct (missing (fold_left tallyJob apps Js.empty) (jobId a)) eqn:E;
    [|exact Hkeep].
  apply StronglySorted_snoc; [exact Hkeep|].
  intros y Hy. destruct (Hold y Hy) as [-> Hlt].
  rewrite (first_seen_new (jobId a) apps [] a); [exact Hlt| |reflexivity].
  intros x Hx Hk. unfold missing in E.
  destruct (Js.lookup (jobId a) (fold_left tallyJob apps Js.empty)) eqn:El;
    [discriminate|].
  apply negb_true_iff in E. apply lookup_None in El. apply El.
  apply jobCounts_key. split; [exact E|]. now exists x.
Qed.

(** *** The ranking of the job groups *)

Lemma jobsSorted_descending (applications : option (list ApplicationJobRow)) :
  StronglySorted (fun a b => JobRow.count b <= JobRow.count a) (jobsSorted applications).
Proof.
  apply (StronglySorted_ext (Js.before byCountDescending)).
  - intros x y _ _ H. unfold Js.before, byCountDescending in H. lia.
  - unfold jobsSorted. apply sort_sorted.
    + intros x y. unfold Js.before, byCountDescending. lia.
    + intros x y z. unfold Js.before, byCountDescending. lia.
Qed.

Lemma In_precedes {A} (a b : A) (l : list A) :
  In a l -> In b l -> a = b \/ precedes a b l \/ precedes b a l.
Proof.
  induction l as [|x l IH]; simpl; [contradiction|].
  intros [->|Ha] [->|Hb].
  - now left.
  - right. left. now apply precedes_here.
  - right. right. now apply precedes_here.
  - destruct (IH Ha Hb) as [H|[H|H]]; [now left | |].
    + right. left. now apply precedes_later.
    + right. right. now apply precedes_later.
Qed.

Lemma array_index_canonical (k : string) (n : Z) :
  Js.array_index k = Some n -> k = Js.String_of (Js.Int n).
Proof.
  unfold Js.array_index. destruct k as [|c k]; [discriminate|].
  destruct (Js.parse_digits 0 (String c k)) as [m|]; [|discriminate].
  destruct (String.eqb_spec (Js.String_of (Js.Int m)) (String c k)) as [E|E];
    [|discriminate].
  destruct (m <? 2 ^ 32 - 1)%Z; [|discriminate].
  cbn [andb]. intros H. injection H as <-. now symmetry.
Qed.

(** The entries of [jobCounts], split as [Object.entries] lists them. *)
Lemma jobCounts_numbered (applications : option (list ApplicationJobRow))
    (e : string * JobRow.t) :
  In e (Js.sort (fun a b => Js.index_of (fst a) - Js.index_of (fst b))
          (filter (fun p => Js.is_array_index (fst p)) (jobCounts applications))) ->
  Js.is_array_index (JobRow.job_id (snd e)) = true /\ fst e = JobRow.job_id (snd e).
Proof.
  intros H. apply sort_In, filter_In in H. destruct H as [Hin Hidx].
  destruct e as [k g]. simpl in *. apply jobCounts_entry in Hin.
  destruct Hin as (_ & a & _ & ->). simpl. now split.
Qed.

Lemma jobCounts_named (applications : option (list ApplicationJobRow))
    (e : string * JobRow.t) :
  In e (filter (fun p => negb (Js.is_array_index (fst p))) (jobCounts applications)) ->
  Js.is_array_index (JobRow.job_id (snd e)) = false /\ fst e = JobRow.job_id (snd e).
Proof.
  intros H. apply filter_In in H. destruct H as [Hin Hidx].
  destruct e as [k g]. simpl in *. apply jobCounts_entry in Hin.
  destruct Hin as (_ & a & _ & ->). simpl. apply negb_true_iff in Hidx. now split.
Qed.

(** Two groups listed by [Object.values] stand in the order
    [enumerated_before]. *)
Lemma values_enumerated (applications : option (list ApplicationJobRow))
    (a b : JobRow.t) :
  precedes a b (Js.values (jobCounts applications)) ->
  enumerated_before (fetched applications) a b.
Proof.
  intros H.
  pose proof (precedes_distinct JobRow.job_id a b _
                (jobCounts_values_NoDup applications) H) as Hne.
  unfold Js.values, Js.entries in H. rewrite map_app in H.
  unfold enumerated_before.
  destruct (Js.array_index (JobRow.job_id a)) as [m|] eqn:Ea;
    destruct (Js.array_index (JobRow.job_id b)) as [n|] eqn:Eb; [| exact I | |].
  - (* both array indices *)
    apply precedes_in_head in H.
    + apply precedes_unmap in H. destruct H as (x & y & Hp & <- & <-).
      pose proof (precedes_In _ _ _ Hp) as [Hx Hy].
      apply jobCounts_numbered in Hx, Hy.
      assert (Hs : Js.before (fun a b : string * JobRow.t =>
                                Js.index_of (fst a) - Js.index_of (fst b)) x y).
      { eapply precedes_sorted; [|exact Hp]. apply sort_sorted.
        - intros u v. unfold Js.before. lia.
        - intros u v w. unfold Js.before. lia. }
      unfold Js.before, Js.index_of in Hs.
      destruct Hx as [_ Hx], Hy as [_ Hy]. rewrite Hx, Hy, Ea, Eb in Hs.
      destruct (Z.eq_dec m n) as [->|Hmn]; [|lia].
      exfalso. apply Hne.
      now rewrite (array_index_canonical _ _ Ea), (array_index_canonical _ _ Eb).
    + intros Hin. apply in_map_iff in Hin. destruct Hin as (y & <- & Hy).
      apply jobCounts_named in Hy. destruct Hy as [Hy _].
      unfold Js.is_array_index in Hy. now rewrite Eb in Hy.
  - (* a named, b an array index: impossible *)
    apply precedes_in_head in H.
    + apply precedes_In in H. destruct H as [Ha _].
      apply in_map_iff in Ha. destruct Ha as (x & <- & Hx).
      apply jobCounts_numbered in Hx. destruct Hx as [Hx _].
      unfold Js.is_array_index in Hx. now rewrite Ea in Hx.
    + intros Hin. apply in_map_iff in Hin. destruct Hin as (y & <- & Hy).
      apply jobCounts_named in Hy. destruct Hy as [Hy _].
      unfold Js.is_array_index in Hy. now rewrite Eb in Hy.
  - (* both named *)
    apply precedes_in_tail in H.
    + apply precedes_unmap in H. destruct H as (x & y & Hp & <- & <-).
      pose proof (precedes_In _ _ _ Hp) as [Hx Hy].
      apply jobCounts_named in Hx, Hy. destruct Hx as [_ Hx], Hy as [_ Hy].
      apply precedes_unfilter in Hp. apply (precedes_map fst) in Hp.
      rewrite Hx, Hy in Hp.
      exact (precedes_sorted _ _ _ _
               (jobCounts_keys_first_seen (fetched applications)) Hp).
    + intros Hin. apply in_map_iff in Hin. destruct Hin as (x & <- & Hx).
      apply jobCounts_numbered in Hx. destruct Hx as [Hx _].
      unfold Js.is_array_index in Hx. now rewrite Ea in Hx.
Qed.

(** Sorting by count keeps ties in the order of [Object.values]. *)
Lemma jobData_ties (applications : option (list ApplicationJobRow)) (a b : JobRow.t) :
  precedes a b (jobData applications) ->
  JobRow.count a = JobRow.count b ->
  precedes a b (Js.values (jobCounts applications)).
Proof.
  intros H Hc.
  assert (Hs : precedes a b (jobsSorted applications)).
  { rewrite (slice_to_split 10 (jobsSorted applications)).
    now apply precedes_app_l. }
  set (p := fun g => (JobRow.count g =? JobRow.count a)%Z).
  apply (precedes_unfilter p).
  rewrite <- (sort_stable byCountDescending p).
  - apply precedes_filter; [exact Hs | |]; unfold p.
    + apply Z.eqb_refl.
    + apply Z.eqb_eq. now symmetry.
  - intros x y Hx Hy. unfold p in Hx, Hy. apply Z.eqb_eq in Hx, Hy.
    unfold byCountDescending. lia.
Qed.

Lemma jobData_tie_order (applications : option (list ApplicationJobRow))
    (i j : nat) (a b : JobRow.t) :
  nth_error (jobData applications) i = Some a ->
  nth_error (jobData applications) j = Some b ->
  (i < j)%nat ->
  JobRow.count a = JobRow.count b ->
  enumerated_before (fetched applications) a b.
Proof.
  intros Hi Hj Hlt Hc. apply values_enumerated, jobData_ties; [|exact Hc].
  eapply precedes_nth; eauto.
Qed.

Lemma jobData_group (applications : option (list ApplicationJobRow)) (g : JobRow.t) :
  In g (jobData applications) ->
  exists a, first_for (JobRow.job_id g) (fetched applications) = Some a
            /\ JobRow.job_title g = jobTitle a
            /\ JobRow.count g = applications_for (JobRow.job_id g) (fetched applications).
Proof.
  intros H. apply jobData_In, jobCounts_values in H. tauto.
Qed.

Lemma jobData_length (applications : option (list ApplicationJobRow)) :
  List.length (jobData applications)
  = Nat.min 10 (List.length (Js.values (jobCounts applications))).
Proof.
  unfold jobData. rewrite slice_to_length. unfold jobsSorted.
  now rewrite sort_length.
Qed.

Lemma jobData_top (applications : option (list ApplicationJobRow)) (g r : JobRow.t) :
  In g (Js.values (jobCounts applications)) ->
  ~ In g (jobData applications) ->
  In r (jobData applications) ->
  JobRow.count g <= JobRow.count r.
Proof.
  intros Hg Hout Hr. apply jobsSorted_In in Hg.
  pose proof (jobsSorted_descending applications) as Hs.
  rewrite (slice_to_split 10 (jobsSorted applications)) in Hg, Hs.
  fold (jobData applications) in Hg, Hs.
  apply in_app_or in Hg. destruct Hg as [Hg|Hg]; [contradiction|].
  exact (StronglySorted_app_cross _ _ _ Hs r g Hr Hg).
Qed.

Lemma jobData_descending (applications : option (list ApplicationJobRow)) :
  StronglySorted (fun a b => JobRow.count b <= JobRow.count a) (jobData applications).
Proof.
  pose proof (jobsSorted_descending applications) as Hs.
  rewrite (slice_to_split 10 (jobsSorted applications)) in Hs.
  exact (StronglySorted_app_l _ _ _ Hs).
Qed.

Lemma jobData_higher_first (applications : option (list ApplicationJobRow))
    (a b : JobRow.t) :
  In a (jobData applications) -> In b (jobData applications) ->
  JobRow.count b < JobRow.count a ->
  precedes a b (jobData applications).
Proof.
  intros Ha Hb Hlt. destruct (In_precedes a b _ Ha Hb) as [->|[H|H]].
  - lia.
  - exact H.
  - pose proof (precedes_sorted _ _ _ _ (jobData_descending applications) H) as Hd.
    cbv beta in Hd. lia.
Qed.

Lemma first_for_In (k : string) (apps : list ApplicationJobRow) (a : ApplicationJobRow) :
  In a apps -> jobId a = k -> exists a', first_for k apps = Some a'.
Proof.
  intros Hin Hk. destruct (first_for k apps) as [a'|] eqn:E; [now exists a'|].
  exfalso. exact (first_for_None k apps E a Hin Hk).
Qed.

(** C7.  Every row of a by-job response carries, as [job_title], the
    title joined to the first fetched row of its group when that title
    is there and not empty, and ["Unknown Job"] otherwise; and the
    applications without a [job_id] are grouped under the job id
    ["unknown"]. *)
Theorem by_job_titles_and_placeholders
    (supabase : SupabaseClient) (request : NextRequest) (isAdmin : bool)
    (applications : option (list ApplicationJobRow)) :
  by_job_request supabase request isAdmin applications ->
  snd (GET (Resolved supabase) request)
  = Resolved {| status := 200; body := Success (map ByJob (jobData applications)) |}
  /\ (forall g, In g (jobData applications) ->
        exists a,
          first_for (JobRow.job_id g) (fetched applications) = Some a
          /\ JobRow.job_title g = jobTitle a
          /\ JobRow.count g
             = applications_for (JobRow.job_id g) (fetched applications))
  /\ (forall a t, jobs a = Some {| title := Some t |} -> t <> "" -> jobTitle a = t)
  /\ (forall a,
        jobs a = None \/ jobs a = Some {| title := None |}
        \/ jobs a = Some {| title := Some "" |} ->
        jobTitle a = "Unknown Job")
  /\ (forall a j, job_id a = Some j -> j <> "" -> jobId a = j)
  /\ (forall a, job_id a = None \/ job_id a = Some "" -> jobId a = "unknown")
  /\ (forall a, In a (fetched applications) -> jobId a = "unknown" ->
        exists g, In g (Js.values (jobCounts applications))
                  /\ JobRow.job_id g = "unknown"
                  /\ JobRow.count g = applications_for "unknown" (fetched applications))
  /\ (forall g, In g (jobData applications) -> In g (Js.values (jobCounts applications)))
  /\ ((List.length (Js.values (jobCounts applications)) <= 10)%nat ->
      forall g, In g (Js.values (jobCounts applications)) -> In g (jobData applications)).
Proof.
  intros Hreq.
  split; [exact (GET_by_job _ _ _ _ Hreq)|].
  split; [apply jobData_group|].
  split.
  { intros a t Hj Ht. unfold jobTitle, jobs_title. rewrite Hj. simpl.
    apply String.eqb_neq in Ht. now rewrite Ht. }
  split.
  { intros a [H|[H|H]]; unfold jobTitle, jobs_title; rewrite H; reflexivity. }
  split.
  { intros a j Hj Hne. unfold jobId. rewrite Hj. simpl.
    apply String.eqb_neq in Hne. now rewrite Hne. }
  split.
  { intros a [H|H]; unfold jobId; rewrite H; reflexivity. }
  split.
  { intros a Hin Hk. destruct (first_for_In _ _ _ Hin Hk) as [a' Ha'].
    exists (JobRow.mk "unknown" (jobTitle a')
              (applications_for "unknown" (fetched applications))).
    split; [|split; reflexivity].
    apply jobCounts_values. simpl. split; [reflexivity|]. exists a'. auto. }
  split; [apply jobData_In|].
  intros Hlen g Hg. unfold jobData. rewrite slice_to_all.
  - now apply jobsSorted_In.
  - unfold jobsSorted. now rewrite sort_length.
Qed.

(** C4, as stated, fails: two jobs with ids ["2"] and ["1"] and one
    application each, the one to ["2"] fetched first, come back with
    ["1"] first. *)
Lemma numeric_job_ids_are_listed_by_number :
  data (Store.select_job_title numbered_db None) = Some numbered_rows
  /\ snd (GET (Resolved (Store.client (Some admin) numbered_db)) (chart "by-job"))
     = Resolved {| status := 200;
                   body := Success [ ByJob (JobRow.mk "1" "Analyst" 1);
                                     ByJob (JobRow.mk "2" "Builder" 1) ] |}
  /\ ~ ties_keep_first_seen numbered_rows (jobData (Some numbered_rows)).
Proof.
  split; [reflexivity|]. split; [reflexivity|].
  intros H.
  specialize (H 0%nat 1%nat (JobRow.mk "1" "Analyst" 1) (JobRow.mk "2" "Builder" 1)
                eq_refl eq_refl ltac:(lia) eq_refl).
  vm_compute in H. lia.
Qed.

(** Every fetched job id that names no member of [Object.prototype] has
    its group, counting its applications. *)
Lemma fetched_job_has_group (applications : option (list ApplicationJobRow))
    (x : ApplicationJobRow) :
  In x (fetched applications) ->
  Js.inherited (jobId x) = false ->
  exists g, In g (Js.values (jobCounts applications))
            /\ JobRow.job_id g = jobId x
            /\ JobRow.count g = applications_for (jobId x) (fetched applications).
Proof.
  intros Hin Hown. destruct (first_for_In _ _ _ Hin eq_refl) as [x' Hx'].
  exists (JobRow.mk (jobId x) (jobTitle x')
            (applications_for (jobId x) (fetched applications))).
  split; [|split; reflexivity].
  apply jobCounts_values. simpl. split; [exact Hown|]. exists x'. auto.
Qed.

(** A group with more applications than a row of the response is a row
    of the response, and stands before it. *)
Lemma jobData_listed_before (applications : option (list ApplicationJobRow))
    (g r : JobRow.t) :
  In g (Js.values (jobCounts applications)) ->
  In r (jobData applications) ->
  JobRow.count r < JobRow.count g ->
  In g (jobData applications) /\ precedes g r (jobData applications).
Proof.
  intros Hg Hr Hlt.
  assert (Hin : In g (jobData applications)).
  { apply jobsSorted_In in Hg.
    pose proof (jobsSorted_descending applications) as Hs.
    rewrite (slice_to_split 10 (jobsSorted applications)) in Hg, Hs.
    fold (jobData applications) in Hg, Hs.
    apply in_app_or in Hg. destruct Hg as [Hg|Hg]; [exact Hg|].
    pose proof (StronglySorted_app_cross _ _ _ Hs r g Hr Hg) as Hle.
    cbv beta in Hle. lia. }
  split; [exact Hin|]. now apply jobData_higher_first.
Qed.

(** C4, amended.  The groups of a by-job response are the job ids of the
    fetched rows that name no member of [Object.prototype], each with the
    number of its applications.  The rows of the response are the first
    10 of the groups ordered by descending count: counts never increase
    along the rows, no group left out has a higher count than a row, and a
    job with more applications than a listed job is listed before it (so
    job A with 5 applications stands before job B with 2).  Rows with
    equal counts stand in the order [Object.values] lists the groups: job
    ids that are array indices first, by ascending index, then the other
    job ids in the order they were first met; so when no fetched job id
    is an array index, ties keep the first-met order. *)
Theorem by_job_ranking
    (supabase : SupabaseClient) (request : NextRequest) (isAdmin : bool)
    (applications : option (list ApplicationJobRow)) :
  by_job_request supabase request isAdmin applications ->
  snd (GET (Resolved supabase) request)
  = Resolved {| status := 200; body := Success (map ByJob (jobData applications)) |}
  /\ StronglySorted (fun a b => JobRow.count b <= JobRow.count a)
       (jobData applications)
  /\ List.length (jobData applications)
     = Nat.min 10 (List.length (Js.values (jobCounts applications)))
  /\ (forall g, In g (jobData applications) ->
        In g (Js.values (jobCounts applications))
        /\ JobRow.count g
           = applications_for (JobRow.job_id g) (fetched applications))
  /\ (forall g r, In g (Js.values (jobCounts applications)) ->
        ~ In g (jobData applications) -> In r (jobData applications) ->
        JobRow.count g <= JobRow.count r)
  /\ (forall a b, In a (jobData applications) -> In b (jobData applications) ->
        JobRow.count b < JobRow.count a -> precedes a b (jobData applications))
  /\ (forall i j a b,
        nth_error (jobData applications) i = Some a ->
        nth_error (jobData applications) j = Some b ->
        (i < j)%nat ->
        JobRow.count a = JobRow.count b ->
        enumerated_before (fetched applications) a b)
  /\ ((forall x, In x (fetched applications) -> Js.is_array_index (jobId x) = false) ->
      ties_keep_first_seen (fetched applications) (jobData applications))
  /\ (forall x, In x (fetched applications) -> Js.inherited (jobId x) = false ->
        exists g, In g (Js.values (jobCounts applications))
                  /\ JobRow.job_id g = jobId x
                  /\ JobRow.count g
                     = applications_for (jobId x) (fetched applications))
  /\ (forall g, In g (Js.values (jobCounts applications)) ->
        Js.inherited (JobRow.job_id g) = false
        /\ exists x, In x (fetched applications) /\ jobId x = JobRow.job_id g)
  /\ ((List.length (Js.values (jobCounts applications)) <= 10)%nat ->
      forall g, In g (Js.values (jobCounts applications)) -> In g (jobData applications))
  /\ (forall x y gy,
        In x (fetched applications) -> In y (fetched applications) ->
        Js.inherited (jobId x) = false ->
        applications_for (jobId y) (fetched applications)
        < applications_for (jobId x) (fetched applications) ->
        In gy (jobData applications) -> JobRow.job_id gy = jobId y ->
        exists gx, In gx (jobData applications)
                   /\ JobRow.job_id gx = jobId x
                   /\ JobRow.count gx
                      = applications_for (jobId x) (fetched applications)
                   /\ precedes gx gy (jobData applications))
  /\ (forall x y,
        In x (fetched applications) -> In y (fetched applications) ->
        Js.inherited (jobId x) = false -> Js.inherited (jobId y) = false ->
        applications_for (jobId x) (fetched applications) = 5 ->
        applications_for (jobId y) (fetched applications) = 2 ->
        (List.length (Js.values (jobCounts applications)) <= 10)%nat ->
        exists gx gy,
          JobRow.job_id gx = jobId x /\ JobRow.count gx = 5
          /\ JobRow.job_id gy = jobId y /\ JobRow.count gy = 2
          /\ precedes gx gy (jobData applications)).
Proof.
  intros Hreq.
  split; [exact (GET_by_job _ _ _ _ Hreq)|].
  split; [apply jobData_descending|].
  split; [apply jobData_length|].
  split.
  { intros g Hg. split; [now apply jobData_In|].
    destruct (jobData_group _ _ Hg) as (a & _ & _ & Hc). exact Hc. }
  split; [intros g r; apply jobData_top|].
  split; [apply jobData_higher_first|].
  split; [apply jobData_tie_order|].
  split.
  { intros Hnamed i j a b Hi Hj Hlt Hc.
    pose proof (jobData_tie_order applications i j a b Hi Hj Hlt Hc) as H.
    unfold enumerated_before in H.
    assert (Hkey : forall g, In g (jobData applications) ->
                             Js.array_index (JobRow.job_id g) = None).
    { intros g Hg. destruct (jobData_group _ _ Hg) as (x & Hx & _).
      apply first_for_Some in Hx. destruct Hx as (Hin & Hk & _).
      specialize (Hnamed x Hin). rewrite Hk in Hnamed.
      unfold Js.is_array_index in Hnamed.
      now destruct (Js.array_index (JobRow.job_id g)). }
    rewrite (Hkey a), (Hkey b) in H; [exact H | |]; eapply nth_error_In; eauto. }
  assert (Hall : (List.length (Js.values (jobCounts applications)) <= 10)%nat ->
                 forall g, In g (Js.values (jobCounts applications)) ->
                           In g (jobData applications)).
  { intros Hlen g Hg. unfold jobData. rewrite slice_to_all.
    - now apply jobsSorted_In.
    - unfold jobsSorted. now rewrite sort_length. }
  assert (Hcount : forall g, In g (jobData applications) ->
                     JobRow.count g
                     = applications_for (JobRow.job_id g) (fetched applications)).
  { intros g Hg. destruct (jobData_group _ _ Hg) as (a & _ & _ & Hc). exact Hc. }
  split; [apply fetched_job_has_group|].
  split.
  { intros g Hg. apply jobCounts_values in Hg. destruct Hg as (Hown & a & Ha & _).
    split; [exact Hown|]. apply first_for_Some in Ha. exists a. tauto. }
  split; [exact Hall|].
  split.
  { intros x y gy Hx Hy Hown Hlt Hgy Ey.
    destruct (fetched_job_has_group _ _ Hx Hown) as (gx & Hgx & Ex & Cx).
    destruct (jobData_listed_before applications gx gy Hgx Hgy) as [Hin Hbefore].
    { rewrite (Hcount gy Hgy), Ey, Cx. exact Hlt. }
    exists gx. split; [exact Hin|]. split; [exact Ex|]. split; [exact Cx | exact Hbefore]. }
  intros x y Hx Hy Hownx Howny Cx5 Cy2 Hlen.
  destruct (fetched_job_has_group _ _ Hx Hownx) as (gx & Hgx & Ex & Cx).
  destruct (fetched_job_has_group _ _ Hy Howny) as (gy & Hgy & Ey & Cy).
  exists gx, gy.
  split; [exact Ex|]. split; [now rewrite Cx|].
  split; [exact Ey|]. split; [now rewrite Cy|].
  apply jobData_listed_before; [exact Hgx | now apply Hall | rewrite Cx, Cy; lia].
Qed.

(* ================================================================== *)
(** ** The claims on the sample data *)
(* ================================================================== *)

(** C8 on the sample store, for a request without a session. *)
Lemma unauthenticated_request_is_401_witness :
  user {| user := None; authError := Some Store.no_session |} = None
  /\ GET (Resolved (Store.client None sample_db)) (chart "by-job")
     = ([AuthGetUser],
        Resolved {| status := 401; body := Failure "Unauthorized" None |}).
Proof.
  split; [reflexivity|].
  refine (proj1 (unauthenticated_request_is_401
                   (Store.client None sample_db) (chart "by-job")
                   {| user := None; authError := Some Store.no_session |} _ _)).
  - reflexivity.
  - right. reflexivity.
Defined.

(** C3 on the sample store, for the HR caller who has posted no job. *)
Lemma hr_without_jobs_gets_empty_data_witness :
  Store.owned sample_db (user_id newcomer) = []
  /\ GET (Resolved (Store.client (Some newcomer) sample_db)) (chart "by-job")
     = ([AuthGetUser; ProfilesSelectRole "u-new"; JobsSelectId "u-new"],
        Resolved {| status := 200; body := Success [] |}).
Proof.
  split; [reflexivity|].
  refine (proj1 (hr_without_jobs_gets_empty_data
                   (Store.client (Some newcomer) sample_db) (chart "by-job") newcomer
                   "by-job" (Store.select_job_ids sample_db "u-new") _ _ _ _ _ _)).
  - split; reflexivity.
  - reflexivity.
  - right. reflexivity.
  - reflexivity.
  - reflexivity.
  - right. reflexivity.
Defined.

(** C10 on the by-job response an ADMIN gets from the sample store. *)
Lemma success_rows_distinct_and_positive_witness :
  NoDup (map row_key [ ByJob (JobRow.mk "job-a" "Engineer" 3);
                       ByJob (JobRow.mk "job-b" "Designer" 1) ])
  /\ Forall (fun r => 1 <= row_count r)
       [ ByJob (JobRow.mk "job-a" "Engineer" 3);
         ByJob (JobRow.mk "job-b" "Designer" 1) ].
Proof.
  apply (success_rows_distinct_and_positive
           (Resolved (Store.client (Some admin) sample_db)) (chart "by-job")
           {| status := 200;
              body := Success [ ByJob (JobRow.mk "job-a" "Engineer" 3);
                                ByJob (JobRow.mk "job-b" "Designer" 1) ] |}).
  - reflexivity.
  - reflexivity.
Defined.

(** C1 on two stores that differ only in applications to somebody else's
    job. *)
Lemma hr_scope_isolation_witness :
  Store.from_applications sample_db <> Store.from_applications busier_db
  /\ GET (Resolved (Store.client (Some recruiter) sample_db)) (chart "monthly")
     = GET (Resolved (Store.client (Some recruiter) busier_db)) (chart "monthly").
Proof.
  split; [discriminate|].
  apply (hr_scope_isolation recruiter sample_db busier_db (chart "monthly")).
  - reflexivity.
  - reflexivity.
  - unfold Store.job_ids_unique. simpl.
    repeat constructor; simpl; intuition discriminate.
  - unfold Store.job_ids_unique. simpl.
    repeat constructor; simpl; intuition discriminate.
  - reflexivity.
  - reflexivity.
Defined.

(** C2 (amended) for an HR caller with a job asking for a [weekly] chart. *)
Lemma invalid_type_is_400_witness :
  GET (Resolved (Store.client (Some recruiter) sample_db)) (chart "weekly")
  = ([AuthGetUser; ProfilesSelectRole "u-hr"; JobsSelectId "u-hr"],
     Resolved
       {| status := 400;
          body := Failure "Invalid chart type: weekly. Supported types: monthly, by-job"
                          None |})
  /\ exists response,
       snd (GET (Resolved (Store.client (Some recruiter) sample_db)) (chart "weekly"))
       = Resolved response
       /\ invalid_parameter (Some "weekly") response.
Proof.
  apply (proj2 (invalid_type_is_400
                  (Store.client (Some recruiter) sample_db) (chart "weekly"))
           false ["job-a"] "weekly"
           [AuthGetUser; ProfilesSelectRole "u-hr"; JobsSelectId "u-hr"]).
  - apply (hr_reaches _ _ recruiter "weekly" {| id := "job-a" |} []).
    + split; reflexivity.
    + reflexivity.
    + discriminate.
    + reflexivity.
  - discriminate.
  - discriminate.
Defined.


(** An ADMIN's monthly and by-job requests to a healthy store. *)
Lemma admin_monthly_request (db : Store.t) :
  Store.has_role db "u-admin" "ADMIN" ->
  monthly_request (Store.client (Some admin) db) (chart "monthly") true
    (data (Store.select_created_at db None)).
Proof.
  intros H.
  apply (monthly_fetch _ _ _ _ [] [AuthGetUser; ProfilesSelectRole "u-admin"]
           (Store.select_created_at db None)); try reflexivity.
  apply (admin_reaches _ _ admin "monthly"); [|reflexivity|discriminate].
  split; [reflexivity|]. simpl. unfold Store.has_role in H. now rewrite H.
Qed.

Lemma admin_by_job_request (db : Store.t) :
  Store.has_role db "u-admin" "ADMIN" ->
  by_job_request (Store.client (Some admin) db) (chart "by-job") true
    (data (Store.select_job_title db None)).
Proof.
  intros H.
  apply (by_job_fetch _ _ _ _ [] [AuthGetUser; ProfilesSelectRole "u-admin"]
           (Store.select_job_title db None)); try reflexivity.
  apply (admin_reaches _ _ admin "by-job"); [|reflexivity|discriminate].
  split; [reflexivity|]. simpl. unfold Store.has_role in H. now rewrite H.
Qed.

(** C5 on fourteen months of applications: January and February 2023 are
    dropped. *)
Lemma monthly_keeps_latest_twelve_witness :
  (12 < List.length
          (distinct_months
             (fetched (data (Store.select_created_at fourteen_months_db None)))))%nat
  /\ List.length
       (monthlyData (data (Store.select_created_at fourteen_months_db None)))
     = 12%nat.
Proof.
  assert (Hmany : (12 < List.length
                          (distinct_months
                             (fetched (data (Store.select_created_at
                                               fourteen_months_db None)))))%nat)
    by (vm_compute; lia).
  split; [exact Hmany|].
  exact (proj1 (proj2 (monthly_keeps_latest_twelve
                         (Store.client (Some admin) fourteen_months_db)
                         (chart "monthly") true
                         (data (Store.select_created_at fourteen_months_db None))
                         (admin_monthly_request fourteen_months_db eq_refl)
                         Hmany))).
Defined.

(** C6 on the sample store: three applications in January 2024, one in
    February. *)
Lemma monthly_counts_per_month_witness :
  snd (GET (Resolved (Store.client (Some admin) sample_db)) (chart "monthly"))
  = Resolved {| status := 200;
                body := Success [ Monthly (MonthRow.mk "2024-01" 3);
                                  Monthly (MonthRow.mk "2024-02" 1) ] |}.
Proof.
  refine (proj2 (proj2 (proj2 (proj2 (proj2 (proj2
            (monthly_counts_per_month
               (Store.client (Some admin) sample_db) (chart "monthly") true
               (data (Store.select_created_at sample_db None))
               (admin_monthly_request sample_db eq_refl))))))) _).
  vm_compute. apply (Permutation_cons_append ["2024-01"; "2024-01"; "2024-01"]).
Defined.

(** C7 on applications whose job is gone, untitled, or not given. *)
Lemma by_job_titles_and_placeholders_witness :
  snd (GET (Resolved (Store.client (Some admin) dangling_db)) (chart "by-job"))
  = Resolved
      {| status := 200;
         body := Success
                   (map ByJob
                      (jobData (data (Store.select_job_title dangling_db None)))) |}
  /\ jobData (data (Store.select_job_title dangling_db None))
     = [ JobRow.mk "job-gone" "Unknown Job" 1;
         JobRow.mk "unknown" "Unknown Job" 1;
         JobRow.mk "job-a" "Engineer" 1;
         JobRow.mk "job-c" "Unknown Job" 1 ].
Proof.
  split; [|reflexivity].
  exact (proj1 (by_job_titles_and_placeholders
                  (Store.client (Some admin) dangling_db) (chart "by-job") true
                  (data (Store.select_job_title dangling_db None))
                  (admin_by_job_request dangling_db eq_refl))).
Defined.

(** C4 (amended) on job A with five applications and job B with two. *)
Lemma by_job_ranking_witness :
  snd (GET (Resolved (Store.client (Some admin) ranked_db)) (chart "by-job"))
  = Resolved
      {| status := 200;
         body := Success
                   (map ByJob
                      (jobData (data (Store.select_job_title ranked_db None)))) |}
  /\ jobData (data (Store.select_job_title ranked_db None))
     = [ JobRow.mk "job-a" "Engineer" 5; JobRow.mk "job-b" "Designer" 2 ].
Proof.
  split; [|reflexivity].
  exact (proj1 (by_job_ranking
                  (Store.client (Some admin) ranked_db) (chart "by-job") true
                  (data (Store.select_job_title ranked_db None))
                  (admin_by_job_request ranked_db eq_refl))).
Defined.

(* ================================================================== *)
(** ** Further properties of the handler *)
(* ================================================================== *)

(** X1.  A caller with a session whose profile carries a role other than
    HR and ADMIN is answered 403, whatever the request; after the profile
    lookup nothing more is asked of the store. *)
Theorem other_roles_are_forbidden
    (supabase : SupabaseClient) (request : NextRequest) (caller : User) (r : string) :
  authorised supabase caller r ->
  r <> "HR" -> r <> "ADMIN" ->
  GET (Resolved supabase) request
  = ([AuthGetUser; ProfilesSelectRole (user_id caller)],
     Resolved {| status := 403;
                 body := Failure "Forbidden: HR or ADMIN role required" None |}).
Proof.
  intros [Hauth Hprof] Hhr Hadmin. run_handler. rewrite Hauth. simpl.
  rewrite Hprof. simpl.
  apply String.eqb_neq in Hhr, Hadmin. rewrite Hhr, Hadmin. reflexivity.
Qed.

(** X1 for an applicant asking for the monthly chart. *)
Lemma other_roles_are_forbidden_witness :
  GET (Resolved (Store.client (Some applicant) public_db)) (chart "monthly")
  = ([AuthGetUser; ProfilesSelectRole "u-applicant"],
     Resolved {| status := 403;
                 body := Failure "Forbidden: HR or ADMIN role required" None |}).
Proof.
  apply (other_roles_are_forbidden
           (Store.client (Some applicant) public_db) (chart "monthly")
           applicant "APPLICANT").
  - split; reflexivity.
  - discriminate.
  - discriminate.
Defined.

(** X2.  When the profile lookup of an authenticated caller resolves with
    an error or without a row, the answer is 404 ["Profile not found"],
    whatever the request, and neither jobs nor applications are
    queried. *)
Theorem missing_profile_is_404
    (supabase : SupabaseClient) (request : NextRequest) (caller : User)
    (p : PostgrestResponse ProfileRow) :
  auth_getUser supabase = Resolved {| user := Some caller; authError := None |} ->
  profiles_select_role supabase (user_id caller) = Resolved p ->
  error p <> None \/ data p = None ->
  GET (Resolved supabase) request
  = ([AuthGetUser; ProfilesSelectRole (user_id caller)],
     Resolved {| status := 404; body := Failure "Profile not found" None |}).
Proof.
  intros Hauth Hprof Hbad. run_handler. rewrite Hauth. simpl. rewrite Hprof. simpl.
  destruct (error p) as [e|]; [reflexivity|].
  destruct (data p) as [profile|]; [|reflexivity].
  destruct Hbad as [H|H]; [now contradiction H | discriminate].
Qed.

(** X2 for a user without a profile row. *)
Lemma missing_profile_is_404_witness :
  Store.select_role sample_db "u-nobody"
  = {| data := None; error := Some Store.no_rows |}
  /\ GET (Resolved (Store.client (Some stranger) sample_db)) (chart "by-job")
     = ([AuthGetUser; ProfilesSelectRole "u-nobody"],
        Resolved {| status := 404; body := Failure "Profile not found" None |}).
Proof.
  split; [reflexivity|].
  apply (missing_profile_is_404
           (Store.client (Some stranger) sample_db) (chart "by-job") stranger
           (Store.select_role sample_db "u-nobody")).
  - reflexivity.
  - reflexivity.
  - right. reflexivity.
Defined.

(** X3.  For an HR caller, a query on the applications is only ever
    issued after the jobs query has given at least one job, and it carries
    the [job_id] filter made of exactly the ids that query returned. *)
Theorem hr_applications_query_is_filtered
    (supabase : SupabaseClient) (request : NextRequest) (caller : User) (q : Query) :
  authorised supabase caller "HR" ->
  In q (fst (GET (Resolved supabase) request)) ->
  on_applications q = true ->
  exists job jobs,
    jobs_select_id supabase (user_id caller)
    = Resolved {| data := Some (job :: jobs); error := None |}
    /\ (q = ApplicationsSelectCreatedAt (Some (map id (job :: jobs)))
        \/ q = ApplicationsSelectJobTitle (Some (map id (job :: jobs))))
    /\ fst (GET (Resolved supabase) request)
       = [AuthGetUser; ProfilesSelectRole (user_id caller);
          JobsSelectId (user_id caller); q].
Proof.
  intros [Hauth Hprof]. run_handler. rewrite Hauth. simpl. rewrite Hprof. simpl.
  destruct (searchParams_get (searchParams request) "type") as [chartType|];
    [|simpl; intros [H|[H|[]]] Hq; subst q; discriminate].
  destruct (chartType =? ""); [simpl; intros [H|[H|[]]] Hq; subst q; discriminate|].
  simpl.
  destruct (jobs_select_id supabase (user_id caller)) as [[d e]|thrown] eqn:Hjobs;
    [|simpl; intros [H|[H|[H|[]]]] Hq; subst q; discriminate].
  simpl. destruct e as [e|];
    [simpl; intros [H|[H|[H|[]]]] Hq; subst q; discriminate|].
  destruct d as [[|job jobs]|];
    try (simpl; intros [H|[H|[H|[]]]] Hq; subst q; discriminate).
  cbn [map List.length Nat.eqb].
  unfold charts, await, bind, ret, in_job_ids. cbn [negb andb List.length Nat.ltb Nat.leb].
  destruct (chartType =? "monthly").
  - destruct (applications_select_created_at supabase _) as [r|thrown];
      [destruct (error r)|]; simpl;
      intros [H|[H|[H|[H|[]]]]] Hq; subst q; try discriminate;
      exists job, jobs; auto.
  - destruct (chartType =? "by-job").
    + destruct (applications_select_job_title supabase _) as [r|thrown];
        [destruct (error r)|]; simpl;
        intros [H|[H|[H|[H|[]]]]] Hq; subst q; try discriminate;
        exists job, jobs; auto.
    + simpl. intros [H|[H|[H|[]]]] Hq; subst q; discriminate.
Qed.

(** X3 for the recruiter of the sample store asking for the monthly
    chart. *)
Lemma hr_applications_query_is_filtered_witness :
  fst (GET (Resolved (Store.client (Some recruiter) sample_db)) (chart "monthly"))
  = [AuthGetUser; ProfilesSelectRole "u-hr"; JobsSelectId "u-hr";
     ApplicationsSelectCreatedAt (Some ["job-a"])].
Proof.
  destruct (hr_applications_query_is_filtered
              (Store.client (Some recruiter) sample_db) (chart "monthly") recruiter
              (ApplicationsSelectCreatedAt (Some ["job-a"])))
    as (job & jobs & _ & _ & E).
  - split; reflexivity.
  - simpl. tauto.
  - reflexivity.
  - exact E.
Defined.

(** X4.  An ADMIN's request never queries the jobs, and its query on the
    applications, if any, carries no [job_id] filter: the queries issued
    are the authentication, the profile lookup and, for a chart type, the
    unfiltered applications query. *)
Theorem admin_queries_are_unfiltered
    (supabase : SupabaseClient) (request : NextRequest) (caller : User) :
  authorised supabase caller "ADMIN" ->
  fst (GET (Resolved supabase) request) = admin_queries caller request.
Proof.
  intros [Hauth Hprof]. unfold admin_queries.
  run_handler. rewrite Hauth. simpl. rewrite Hprof. simpl.
  destruct (searchParams_get (searchParams request) "type") as [chartType|];
    [|reflexivity].
  destruct (String.eqb_spec chartType "") as [->|Hne]; [reflexivity|].
  simpl. unfold charts, await, bind, ret, in_job_ids. simpl.
  destruct (chartType =? "monthly").
  - destruct (applications_select_created_at supabase None) as [r|thrown];
      [destruct (error r)|]; reflexivity.
  - destruct (chartType =? "by-job"); [|reflexivity].
    destruct (applications_select_job_title supabase None) as [r|thrown];
      [destruct (error r)|]; reflexivity.
Qed.

(** X4 for the administrator of the sample store. *)
Lemma admin_queries_are_unfiltered_witness :
  fst (GET (Resolved (Store.client (Some admin) sample_db)) (chart "by-job"))
  = [AuthGetUser; ProfilesSelectRole "u-admin"; ApplicationsSelectJobTitle None].
Proof.
  apply (admin_queries_are_unfiltered
           (Store.client (Some admin) sample_db) (chart "by-job") admin).
  split; reflexivity.
Defined.

(** X5.  Whatever the client does, a request issues at most four calls,
    each at most once and in the order authentication, profile, jobs,
    applications; so at most one query reaches the applications, and it is
    the last call made. *)
Theorem queries_are_issued_in_order
    (createClient : Outcome SupabaseClient) (request : NextRequest) :
  exists uid filter,
    let all := [AuthGetUser; ProfilesSelectRole uid; JobsSelectId uid] in
    (exists n, fst (GET createClient request) = firstn n all)
    \/ (exists q, on_applications q = true
          /\ (fst (GET createClient request)
              = [AuthGetUser; ProfilesSelectRole uid; q]
              \/ fst (GET createClient request)
                 = [AuthGetUser; ProfilesSelectRole uid; JobsSelectId uid; q])
          /\ (q = ApplicationsSelectCreatedAt filter
              \/ q = ApplicationsSelectJobTitle filter)).
Proof.
  unfold GET, handler, settle, await, bind.
  destruct createClient as [supabase|e];
    [|exists "", None; left; exists 0%nat; reflexivity].
  destruct (auth_getUser supabase) as [auth|e];
    [|exists "", None; left; exists 1%nat; reflexivity].
  destruct (authError auth);
    [exists "", None; left; exists 1%nat; reflexivity|].
  destruct (user auth) as [caller|];
    [|exists "", None; left; exists 1%nat; reflexivity].
  destruct (profiles_select_role supabase (user_id caller)) as [p|e];
    [|exists (user_id caller), None; left; exists 2%nat; reflexivity].
  destruct (error p);
    [exists (user_id caller), None; left; exists 2%nat; reflexivity|].
  destruct (data p) as [profile|];
    [|exists (user_id caller), None; left; exists 2%nat; reflexivity].
  destruct (negb (role profile =? "HR") && negb (role profile =? "ADMIN"));
    [exists (user_id caller), None; left; exists 2%nat; reflexivity|].
  destruct (searchParams_get (searchParams request) "type") as [chartType|];
    [|exists (user_id caller), None; left; exists 2%nat; reflexivity].
  destruct (chartType =? "");
    [exists (user_id caller), None; left; exists 2%nat; reflexivity|].
  unfold scope, await, bind, ret.
  destruct (role profile =? "ADMIN"); simpl.
  - unfold charts, await, bind, ret.
    destruct (chartType =? "monthly").
    + exists (user_id caller), (in_job_ids true []). right.
      exists (ApplicationsSelectCreatedAt (in_job_ids true [])).
      destruct (applications_select_created_at supabase _) as [r|thrown];
        [destruct (error r)|]; simpl; auto.
    + destruct (chartType =? "by-job").
      * exists (user_id caller), (in_job_ids true []). right.
        exists (ApplicationsSelectJobTitle (in_job_ids true [])).
        destruct (applications_select_job_title supabase _) as [r|thrown];
          [destruct (error r)|]; simpl; auto.
      * exists (user_id caller), None. left. exists 2%nat. reflexivity.
  - destruct (jobs_select_id supabase (user_id caller)) as [r|e];
      [|exists (user_id caller), None; left; exists 3%nat; reflexivity].
    destruct (error r);
      [exists (user_id caller), None; left; exists 3%nat; reflexivity|].
    destruct (List.length _ =? 0)%nat; simpl;
      [exists (user_id caller), None; left; exists 3%nat; reflexivity|].
    unfold charts, await, bind, ret.
    destruct (chartType =? "monthly").
    + match goal with
      | |- context [applications_select_created_at supabase ?f] =>
          exists (user_id caller), f; right;
          exists (ApplicationsSelectCreatedAt f)
      end.
      destruct (applications_select_created_at supabase _) as [r'|thrown];
        [destruct (error r')|]; simpl; auto.
    + destruct (chartType =? "by-job").
      * match goal with
        | |- context [applications_select_job_title supabase ?f] =>
            exists (user_id caller), f; right;
            exists (ApplicationsSelectJobTitle f)
        end.
        destruct (applications_select_job_title supabase _) as [r'|thrown];
          [destruct (error r')|]; simpl; auto.
      * exists (user_id caller), None. left. exists 3%nat. reflexivity.
Qed.

(** X6.  The empty-scope answer comes before the [switch] on the chart
    type: an HR caller whose jobs query gives no job is answered 200 with
    no rows for every non-empty [type], supported or not. *)
Theorem empty_scope_precedes_type_switch
    (supabase : SupabaseClient) (request : NextRequest) (caller : User)
    (chartType : string) (r : PostgrestResponse (list JobIdRow)) :
  authorised supabase caller "HR" ->
  searchParams_get (searchParams request) "type" = Some chartType ->
  chartType <> "" ->
  jobs_select_id supabase (user_id caller) = Resolved r ->
  error r = None ->
  data r = None \/ data r = Some [] ->
  GET (Resolved supabase) request
  = ([AuthGetUser; ProfilesSelectRole (user_id caller); JobsSelectId (user_id caller)],
     Resolved {| status := 200; body := Success [] |}).
Proof.
  intros [Hauth Hprof] Htype Hne Hjobs He Hd.
  run_handler. rewrite Hauth. simpl. rewrite Hprof. simpl. rewrite Htype.
  apply String.eqb_neq in Hne. rewrite Hne. simpl. rewrite Hjobs. simpl. rewrite He.
  destruct Hd as [-> | ->]; reflexivity.
Qed.

(** X6 for an HR caller without jobs asking for a weekly chart. *)
Lemma empty_scope_precedes_type_switch_witness :
  GET (Resolved (Store.client (Some newcomer) sample_db)) (chart "weekly")
  = ([AuthGetUser; ProfilesSelectRole "u-new"; JobsSelectId "u-new"],
     Resolved {| status := 200; body := Success [] |}).
Proof.
  apply (empty_scope_precedes_type_switch
           (Store.client (Some newcomer) sample_db) (chart "weekly")
           newcomer "weekly" {| data := Some []; error := None |}).
  - split; reflexivity.
  - reflexivity.
  - discriminate.
  - reflexivity.
  - reflexivity.
  - now right.
Defined.

(** A success body carries the rows of the requested chart type. *)
Lemma charts_success_typed (supabase : SupabaseClient) (isAdmin : bool)
    (jobIds : list string) (chartType : string)
    (response : NextResponse) (rows : list AggregateRow) :
  catch (snd (charts supabase isAdmin jobIds chartType)) = Resolved response ->
  body response = Success rows ->
  (chartType = "monthly"
   /\ exists applications, rows = map Monthly (monthlyData applications))
  \/ (chartType = "by-job"
      /\ exists applications, rows = map ByJob (jobData applications)).
Proof.
  unfold charts, await, bind, ret.
  destruct (String.eqb_spec chartType "monthly") as [Em|_].
  - destruct (applications_select_created_at supabase _) as [r|e]; simpl.
    + destruct (error r); [no_success|]. simpl.
      intros [= <-] [= <-]. left. split; [exact Em|]. now exists (data r).
    + destruct e; no_success.
  - destruct (String.eqb_spec chartType "by-job") as [Ej|_].
    + destruct (applications_select_job_title supabase _) as [r|e]; simpl.
      * destruct (error r); [no_success|]. simpl.
        intros [= <-] [= <-]. right. split; [exact Ej|]. now exists (data r).
      * destruct e; no_success.
    + no_success.
Qed.

Lemma GET_success_typed (createClient : Outcome SupabaseClient)
    (request : NextRequest) (response : NextResponse) (rows : list AggregateRow) :
  snd (GET createClient request) = Resolved response ->
  body response = Success rows ->
  rows = []
  \/ (searchParams_get (searchParams request) "type" = Some "monthly"
      /\ exists applications, rows = map Monthly (monthlyData applications))
  \/ (searchParams_get (searchParams request) "type" = Some "by-job"
      /\ exists applications, rows = map ByJob (jobData applications)).
Proof.
  unfold GET, handler, settle, await, bind.
  destruct createClient as [supabase|e]; [|destruct e; no_success].
  destruct (auth_getUser supabase) as [auth|e]; [|destruct e; no_success].
  destruct (authError auth); [no_success|].
  destruct (user auth) as [caller|]; [|no_success].
  destruct (profiles_select_role supabase (user_id caller)) as [p|e];
    [|destruct e; no_success].
  destruct (error p); [no_success|].
  destruct (data p) as [profile|]; [|no_success].
  destruct (negb (role profile =? "HR") && negb (role profile =? "ADMIN"));
    [no_success|].
  destruct (searchParams_get (searchParams request) "type") as [chartType|];
    [|no_success].
  destruct (chartType =? ""); [no_success|].
  assert (Hcharts : forall isAdmin jobIds,
             catch (snd (charts supabase isAdmin jobIds chartType)) = Resolved response ->
             body response = Success rows ->
             rows = []
             \/ (Some chartType = Some "monthly"
                 /\ exists applications, rows = map Monthly (monthlyData applications))
             \/ (Some chartType = Some "by-job"
                 /\ exists applications, rows = map ByJob (jobData applications))).
  { intros isAdmin jobIds H Hb. right.
    destruct (charts_success_typed _ _ _ _ _ _ H Hb) as [[-> Hx]|[-> Hx]];
      [left|right]; (split; [reflexivity|exact Hx]). }
  unfold scope, await, bind, ret.
  destruct (role profile =? "ADMIN"); simpl.
  - destruct (charts supabase true [] chartType) as [tr o] eqn:E. simpl.
    intros H. apply (Hcharts true []). now rewrite E.
  - destruct (jobs_select_id supabase (user_id caller)) as [r|e];
      [|destruct e; no_success].
    destruct (error r); [no_success|].
    destruct (List.length _ =? 0)%nat; simpl.
    + intros [= <-] [= <-]. now left.
    + match goal with
      | |- context [charts ?s ?a ?j ?c] =>
          destruct (charts s a j c) as [tr o] eqn:E
      end.
      simpl. intros H. eapply Hcharts. rewrite E. exact H.
Qed.

(** X7.  A success response carries month rows only when [type] is
    [monthly] and job rows only when it is [by-job]; any other success
    has no rows. *)
Theorem success_rows_match_the_type (createClient : Outcome SupabaseClient)
    (request : NextRequest) (response : NextResponse) (rows : list AggregateRow) :
  snd (GET createClient request) = Resolved response ->
  body response = Success rows ->
  (forall r, In (Monthly r) rows ->
     searchParams_get (searchParams request) "type" = Some "monthly")
  /\ (forall g, In (ByJob g) rows ->
        searchParams_get (searchParams request) "type" = Some "by-job").
Proof.
  intros H Hb.
  destruct (GET_success_typed _ _ _ _ H Hb) as [->|[[Ht [apps ->]]|[Ht [apps ->]]]].
  - split; intros ? [].
  - split; intros x Hx; [exact Ht|].
    apply in_map_iff in Hx. destruct Hx as (? & ? & _). discriminate.
  - split; intros x Hx; [|exact Ht].
    apply in_map_iff in Hx. destruct Hx as (? & ? & _). discriminate.
Qed.

(** X7 on the sample store, for an ADMIN asking for the by-job chart. *)
Lemma success_rows_match_the_type_witness :
  snd (GET (Resolved (Store.client (Some admin) sample_db)) (chart "by-job"))
  = Resolved {| status := 200;
                body := Success [ ByJob (JobRow.mk "job-a" "Engineer" 3);
                                  ByJob (JobRow.mk "job-b" "Designer" 1) ] |}
  /\ searchParams_get (searchParams (chart "by-job")) "type" = Some "by-job".
Proof.
  split; [reflexivity|].
  exact (proj2 (success_rows_match_the_type
                  (Resolved (Store.client (Some admin) sample_db)) (chart "by-job")
                  {| status := 200;
                     body := Success [ ByJob (JobRow.mk "job-a" "Engineer" 3);
                                       ByJob (JobRow.mk "job-b" "Designer" 1) ] |}
                  [ ByJob (JobRow.mk "job-a" "Engineer" 3);
                    ByJob (JobRow.mk "job-b" "Designer" 1) ]
                  eq_refl eq_refl)
               (JobRow.mk "job-a" "Engineer" 3) (or_introl eq_refl)).
Defined.

(** X8.  No success response carries more than 12 rows, and none but a
    monthly one more than 10. *)
Theorem success_rows_are_few
    (createClient : Outcome SupabaseClient) (request : NextRequest)
    (response : NextResponse) (rows : list AggregateRow) :
  snd (GET createClient request) = Resolved response ->
  body response = Success rows ->
  (List.length rows <= 12)%nat
  /\ (searchParams_get (searchParams request) "type" <> Some "monthly" ->
      (List.length rows <= 10)%nat).
Proof.
  intros H Hb. apply (GET_success_typed _ _ _ _ H) in Hb. clear H.
  destruct Hb as [-> | [[Ht [applications ->]] | [_ [applications ->]]]].
  - simpl. split; intros; lia.
  - rewrite length_map. unfold monthlyData. rewrite slice_from_end_length.
    split; [lia | now intros Hne].
  - rewrite length_map. unfold jobData. rewrite slice_to_length.
    split; intros; lia.
Qed.

(** X8 on the fourteen months of applications. *)
Lemma success_rows_are_few_witness :
  (List.length
     (map Monthly
        (monthlyData (data (Store.select_created_at fourteen_months_db None))))
   <= 12)%nat.
Proof.
  exact (proj1 (success_rows_are_few
                  (Resolved (Store.client (Some admin) fourteen_months_db))
                  (chart "monthly")
                  (json (Success
                           (map Monthly
                              (monthlyData
                                 (data (Store.select_created_at
                                          fourteen_months_db None))))) None)
                  (map Monthly
                     (monthlyData
                        (data (Store.select_created_at fourteen_months_db None))))
                  eq_refl eq_refl)).
Defined.

(* ================================================================== *)
(** ** Further properties of the two aggregations *)
(* ================================================================== *)

(** *** A strictly sorted list is determined by its elements *)

Lemma strictly_sorted_unique {A} (R : A -> A -> Prop) (l1 l2 : list A) :
  (forall x, ~ R x x) ->
  (forall x y z, R x y -> R y z -> R x z) ->
  StronglySorted R l1 -> StronglySorted R l2 ->
  (forall x, In x l1 <-> In x l2) ->
  l1 = l2.
Proof.
  intros Hirr Htrans. revert l2.
  induction l1 as [|a l1 IH]; intros l2 H1 H2 Hsame.
  - destruct l2 as [|b l2]; [reflexivity|].
    exfalso. apply (Hsame b). now left.
  - destruct l2 as [|b l2]; [exfalso; apply (Hsame a); now left|].
    inversion H1 as [|? ? H1' Ha]; subst. inversion H2 as [|? ? H2' Hb]; subst.
    rewrite Forall_forall in Ha, Hb.
    assert (Hab : a = b).
    { destruct (proj1 (Hsame a) (or_introl eq_refl)) as [E|Hin]; [now symmetry|].
      destruct (proj2 (Hsame b) (or_introl eq_refl)) as [E|Hin']; [exact E|].
      exfalso. apply (Hirr a). eapply Htrans; [apply Ha, Hin' | apply Hb, Hin]. }
    subst b. f_equal. apply IH; [assumption..|].
    intros x. split; intros Hx.
    + destruct (proj1 (Hsame x) (or_intror Hx)) as [E|Hin]; [|exact Hin].
      subst x. exfalso. exact (Hirr a (Ha a Hx)).
    + destruct (proj2 (Hsame x) (or_intror Hx)) as [E|Hin]; [|exact Hin].
      subst x. exfalso. exact (Hirr a (Hb a Hx)).
Qed.

Lemma applications_in_keys (k : string) (apps : list CreatedAtRow) :
  applications_in k apps
  = Z.of_nat (List.length (filter (fun m => m =? k) (map monthOf apps))).
Proof.
  unfold applications_in. f_equal.
  induction apps as [|a apps IH]; simpl; [reflexivity|].
  destruct (monthOf a =? k); simpl; now rewrite IH.
Qed.

Lemma filter_length_perm {A} (p : A -> bool) (l l' : list A) :
  Permutation l l' -> List.length (filter p l) = List.length (filter p l').
Proof.
  induction 1 as [|x l l' _ IH|x y l|l l' l'' _ IH1 _ IH2]; simpl.
  - reflexivity.
  - destruct (p x); simpl; now rewrite IH.
  - destruct (p x), (p y); reflexivity.
  - now rewrite IH1.
Qed.

(** X9.  The monthly rows depend only on how many fetched applications
    fall in each month: fetching the same applications in another order
    gives the same rows in the same order. *)
Theorem monthly_rows_ignore_fetch_order
    (applications applications' : option (list CreatedAtRow)) :
  Permutation (map monthOf (fetched applications))
              (map monthOf (fetched applications')) ->
  monthlyData applications = monthlyData applications'.
Proof.
  intros Hperm. unfold monthlyData. f_equal.
  apply (strictly_sorted_unique
           (fun a b => earlier (MonthRow.month a) (MonthRow.month b))).
  - intros x. unfold earlier. now rewrite compare_refl.
  - intros x y z. apply earlier_trans.
  - apply monthlySorted_ascending.
  - apply monthlySorted_ascending.
  - intros r. rewrite !monthlySorted_In, !applications_in_keys.
    now rewrite (filter_length_perm _ _ _ Hperm).
Qed.

(** X9 on the sample applications, fetched newest first and oldest
    first. *)
Lemma monthly_rows_ignore_fetch_order_witness :
  monthlyData (data (Store.select_created_at sample_db None))
  = monthlyData
      (option_map (@rev CreatedAtRow) (data (Store.select_created_at sample_db None))).
Proof.
  apply (monthly_rows_ignore_fetch_order
           (data (Store.select_created_at sample_db None))
           (option_map (@rev CreatedAtRow)
              (data (Store.select_created_at sample_db None)))).
  destruct (data (Store.select_created_at sample_db None)) as [rows|];
    cbn [fetched option_map].
  - rewrite map_rev. apply Permutation_rev.
  - apply Permutation_refl.
Defined.

(** *** Every application is counted once *)

Lemma total_app (l1 l2 : list Z) : total (l1 ++ l2) = total l1 + total l2.
Proof. unfold total. induction l1 as [|x l1 IH]; simpl; lia. Qed.

Lemma total_perm (l l' : list Z) : Permutation l l' -> total l = total l'.
Proof.
  unfold total.
  induction 1 as [|x l l' _ IH|x y l|l l' l'' _ IH1 _ IH2]; simpl; lia.
Qed.

Lemma total_nonneg (l : list Z) : Forall (fun c => 0 <= c) l -> 0 <= total l.
Proof. unfold total. induction 1; simpl; lia. Qed.

(** Over distinct keys, the occurrences of an element add up to 1 when
    its key is listed and to 0 otherwise. *)
Lemma total_indicator (x : string) (ks : list string) :
  NoDup ks ->
  total (map (fun k => if x =? k then 1 else 0) ks)
  = if existsb (String.eqb x) ks then 1 else 0.
Proof.
  unfold total. induction 1 as [|k ks Hnot Hnd IH]; simpl; [reflexivity|].
  rewrite IH. destruct (String.eqb_spec x k) as [->|Hne]; simpl; [|reflexivity].
  destruct (existsb (String.eqb k) ks) eqn:E; [|reflexivity].
  exfalso. apply existsb_exists in E. destruct E as (k' & Hin & E).
  apply String.eqb_eq in E. now subst k'.
Qed.

Lemma total_occurrences {A} (key : A -> string) (ks : list string) (l : list A) :
  NoDup ks ->
  total (map (fun k => Z.of_nat (List.length (filter (fun a => key a =? k) l))) ks)
  = Z.of_nat (List.length (filter (fun a => existsb (String.eqb (key a)) ks) l)).
Proof.
  intros Hnd. induction l as [|a l IH]; simpl.
  - unfold total. induction ks as [|k ks IHk]; simpl; [reflexivity|].
    inversion Hnd; subst. now rewrite IHk.
  - assert (E : forall ks',
               total (map (fun k => Z.of_nat (List.length
                             (if key a =? k
                              then a :: filter (fun a0 => key a0 =? k) l
                              else filter (fun a0 => key a0 =? k) l))) ks')
               = total (map (fun k => if key a =? k then 1 else 0) ks')
                 + total (map (fun k => Z.of_nat (List.length
                                 (filter (fun a0 => key a0 =? k) l))) ks')).
    { unfold total. induction ks' as [|k ks' IHk]; simpl; [reflexivity|].
      rewrite IHk. destruct (key a =? k); cbn [List.length]; lia. }
    rewrite E, IH, (total_indicator (key a) ks Hnd).
    destruct (existsb (String.eqb (key a)) ks); cbn [List.length]; lia.
Qed.

Lemma monthlySorted_total (applications : option (list CreatedAtRow)) :
  total (map MonthRow.count (monthlySorted applications))
  = Z.of_nat (List.length (fetched applications)).
Proof.
  rewrite (total_perm _ _ (Permutation_map _ (monthlySorted_perm applications))).
  rewrite map_map.
  assert (E : map (fun x => MonthRow.count (let '(month, count) := x in
                                            MonthRow.mk month count))
                (monthCounts applications)
              = map (fun k => applications_in k (fetched applications))
                  (Js.keys (monthCounts applications))).
  { unfold Js.keys. rewrite map_map. apply map_ext_in. intros [k c] Hin. simpl.
    apply In_lookup in Hin; [|apply monthCounts_NoDup].
    rewrite monthCounts_lookup in Hin.
    destruct (applications_in k (fetched applications) =? 0)%Z; [discriminate|].
    now injection Hin. }
  rewrite E. unfold applications_in.
  rewrite (total_occurrences monthOf) by apply monthCounts_NoDup.
  rewrite filter_all; [reflexivity|].
  intros a Ha. apply existsb_exists. exists (monthOf a).
  split; [|apply String.eqb_refl].
  apply monthCounts_keys, distinct_months_In. now exists a.
Qed.

(** X10.  Monthly counting loses and duplicates nothing: the counts of
    the aggregate add up to the number of fetched applications; the
    response, being its last 12 rows, adds up to at most that number, and
    to exactly that number when at most 12 months are present. *)
Theorem monthly_counts_add_up (applications : option (list CreatedAtRow)) :
  total (map MonthRow.count (monthlySorted applications))
  = Z.of_nat (List.length (fetched applications))
  /\ total (map MonthRow.count (monthlyData applications))
     <= Z.of_nat (List.length (fetched applications))
  /\ ((List.length (distinct_months (fetched applications)) <= 12)%nat ->
      total (map MonthRow.count (monthlyData applications))
      = Z.of_nat (List.length (fetched applications))).
Proof.
  pose proof (monthlySorted_total applications) as E.
  split; [exact E|]. split.
  - rewrite <- E. unfold monthlyData.
    rewrite (slice_from_end_split 12 (monthlySorted applications)) at 2.
    rewrite map_app, total_app.
    assert (0 <= total (map MonthRow.count
                          (firstn (List.length (monthlySorted applications) - 12)
                             (monthlySorted applications)))); [|lia].
    apply total_nonneg. rewrite Forall_map. apply Forall_forall. intros r Hr.
    assert (Hin : In r (monthlySorted applications)).
    { rewrite <- (firstn_skipn (List.length (monthlySorted applications) - 12)).
      apply in_or_app. now left. }
    apply monthlySorted_In in Hin. lia.
  - intros H. unfold monthlyData. rewrite slice_from_end_all; [exact E|].
    now rewrite monthlySorted_length.
Qed.

Lemma jobsSorted_total (applications : option (list ApplicationJobRow)) :
  total (map JobRow.count (jobsSorted applications))
  = Z.of_nat (List.length
                (filter (fun a => negb (Js.inherited (jobId a))) (fetched applications))).
Proof.
  unfold jobsSorted.
  rewrite (total_perm _ _ (Permutation_map _ (sort_perm _ _))).
  unfold Js.values. rewrite map_map.
  rewrite (total_perm _ _ (Permutation_map _ (entries_perm _))).
  assert (E : map (fun x => JobRow.count (snd x)) (jobCounts applications)
              = map (fun k => applications_for k (fetched applications))
                  (Js.keys (jobCounts applications))).
  { unfold Js.keys. rewrite map_map. apply map_ext_in. intros [k g] Hin. simpl.
    apply jobCounts_entry in Hin. destruct Hin as (_ & a & _ & ->). reflexivity. }
  rewrite E. unfold applications_for.
  rewrite (total_occurrences jobId) by apply jobCounts_NoDup.
  do 2 f_equal. apply filter_ext_in. intros a Ha.
  destruct (Js.inherited (jobId a)) eqn:Hi; simpl.
  - destruct (existsb (String.eqb (jobId a)) (Js.keys (jobCounts applications)))
      eqn:Ex; [|reflexivity].
    apply existsb_exists in Ex. destruct Ex as (k & Hk & Ek).
    apply String.eqb_eq in Ek. subst k.
    apply jobCounts_key in Hk. destruct Hk as [Hk _]. congruence.
  - apply existsb_exists. exists (jobId a). split; [|apply String.eqb_refl].
    apply jobCounts_key. split; [exact Hi|]. now exists a.
Qed.

(** X11.  By-job counting counts every fetched application once, except
    those whose job id names a member of [Object.prototype], which are
    counted nowhere: the counts of all groups add up to the number of the
    other applications.  The response, being the first 10 groups, adds up
    to at most the number of fetched applications. *)
Theorem by_job_counts_add_up (applications : option (list ApplicationJobRow)) :
  total (map JobRow.count (jobsSorted applications))
  = Z.of_nat (List.length
                (filter (fun a => negb (Js.inherited (jobId a))) (fetched applications)))
  /\ total (map JobRow.count (jobData applications))
     <= Z.of_nat (List.length (fetched applications))
  /\ ((forall a, In a (fetched applications) -> Js.inherited (jobId a) = false) ->
      (List.length (Js.values (jobCounts applications)) <= 10)%nat ->
      total (map JobRow.count (jobData applications))
      = Z.of_nat (List.length (fetched applications))).
Proof.
  pose proof (jobsSorted_total applications) as E.
  split; [exact E|]. split.
  - pose proof (filter_length_le (fun a => negb (Js.inherited (jobId a)))
                  (fetched applications)) as Hle.
    assert (total (map JobRow.count (jobData applications))
            <= total (map JobRow.count (jobsSorted applications))); [|lia].
    unfold jobData. rewrite (slice_to_split 10 (jobsSorted applications)) at 2.
    rewrite map_app, total_app.
    assert (0 <= total (map JobRow.count (skipn 10 (jobsSorted applications))));
      [|lia].
    apply total_nonneg. rewrite Forall_map. apply Forall_forall. intros g Hg.
    assert (Hin : In g (jobsSorted applications)).
    { rewrite <- (firstn_skipn 10). apply in_or_app. now right. }
    apply jobsSorted_In, job_group_count in Hin. lia.
  - intros Hplain Hfew. unfold jobData. rewrite slice_to_all.
    + rewrite E, filter_all; [reflexivity|].
      intros a Ha. now rewrite (Hplain a Ha).
    + unfold jobsSorted. now rewrite sort_length.
Qed.

(* ================================================================== *)
(** ** The month key and its reading by the monthly chart *)
(* ================================================================== *)

Lemma text_length_app (a b : string) :
  String.length (a ++ b) = (String.length a + String.length b)%nat.
Proof. induction a as [|c a IH]; simpl; [reflexivity | now rewrite IH]. Qed.

Lemma app_same_length (a b s t : string) :
  String.length a = String.length b -> a ++ s = b ++ t -> a = b /\ s = t.
Proof.
  revert b. induction a as [|c a IH]; intros [|d b] Hlen H; simpl in *;
    try discriminate.
  - now split.
  - injection H as -> H. destruct (IH b) as [-> ->]; [lia | exact H | now split].
Qed.

Lemma month_text_length (m : Z) :
  0 <= m <= 11 -> String.length (month_text m) = 3%nat.
Proof.
  intros H.
  assert (E : m = 0 \/ m = 1 \/ m = 2 \/ m = 3 \/ m = 4 \/ m = 5 \/ m = 6
              \/ m = 7 \/ m = 8 \/ m = 9 \/ m = 10 \/ m = 11) by lia.
  repeat (destruct E as [->|E]; [reflexivity|]). now subst m.
Qed.

Lemma year_text_injective (x y : Z) :
  1000 <= x <= 9999 -> 1000 <= y <= 9999 -> year_text x = year_text y -> x = y.
Proof.
  intros Hx Hy E.
  destruct (Z.lt_trichotomy x y) as [H|[H|H]]; [|exact H|]; exfalso.
  - pose proof (year_text_ascending x y) as A. unfold earlier in A.
    rewrite E, compare_refl in A. discriminate A; lia.
  - pose proof (year_text_ascending y x) as A. unfold earlier in A.
    rewrite E, compare_refl in A. discriminate A; lia.
Qed.

Lemma month_text_injective (m1 m2 : Z) :
  0 <= m1 <= 11 -> 0 <= m2 <= 11 -> month_text m1 = month_text m2 -> m1 = m2.
Proof.
  intros H1 H2 E. pose proof (month_text_compare m1 m2 H1 H2) as C.
  rewrite E, compare_refl in C. symmetry in C. now apply Z.compare_eq in C.
Qed.

(** X12.  For timestamps with a four-digit local year the month key has
    seven characters and names the month: two applications get the same
    key exactly when they fall in the same month of the same year. *)
Theorem month_key_names_the_month (a b : CreatedAtRow) (ya ma yb mb : Z) :
  in_calendar a ya ma -> in_calendar b yb mb ->
  String.length (monthOf a) = 7%nat
  /\ (monthOf a = monthOf b <-> ya = yb /\ ma = mb).
Proof.
  intros (La & Hya & Hma) (Lb & Hyb & Hmb).
  rewrite (monthOf_calendar a ya ma La), (monthOf_calendar b yb mb Lb).
  split.
  - now rewrite text_length_app, year_text_length, month_text_length.
  - split.
    + intros E. apply app_same_length in E.
      * destruct E as [Ey Em]. split.
        -- now apply year_text_injective.
        -- now apply month_text_injective.
      * now rewrite !year_text_length.
    + now intros [-> ->].
Qed.

(** X12 for an application of January 2024 and one of February 2024. *)
Lemma month_key_names_the_month_witness :
  String.length (monthOf {| created_at := at_month 10 2024 0 |}) = 7%nat
  /\ (monthOf {| created_at := at_month 10 2024 0 |}
      = monthOf {| created_at := at_month 40 2024 1 |}
      <-> 2024 = 2024 /\ 0 = 1).
Proof.
  apply (month_key_names_the_month
           {| created_at := at_month 10 2024 0 |}
           {| created_at := at_month 40 2024 1 |} 2024 0 2024 1).
  - split; [reflexivity | lia].
  - split; [reflexivity | lia].
Defined.

(** *** [split] *)

Lemma split_cons (sep : ascii) (s : string) :
  exists part parts, split sep s = part :: parts.
Proof.
  induction s as [|c s (part & parts & IH)]; simpl; [now eexists; eexists|].
  destruct (Ascii.eqb c sep); [now eexists; eexists|].
  rewrite IH. now eexists; eexists.
Qed.

(** A string that [split] leaves whole, followed by the separator. *)
Lemma split_app (sep : ascii) (a b : string) :
  split sep a = [a] ->
  split sep (a ++ String sep b) = a :: split sep b.
Proof.
  induction a as [|c a IH]; intros H.
  - simpl. now rewrite Ascii.eqb_refl.
  - simpl in *. destruct (Ascii.eqb c sep); [discriminate|].
    destruct (split sep a) as [|part parts] eqn:E.
    + destruct (split_cons sep a) as (? & ? & E'). congruence.
    + injection H as -> ->. now rewrite IH.
Qed.

Lemma year_text_whole (y : Z) :
  1000 <= y <= 9999 -> split "-" (year_text y) = [year_text y].
Proof.
  intros H.
  assert (A : all_from (Z.to_nat 9000) 1000
                (fun y => match split "-" (year_text y) with
                          | [s] => s =? year_text y
                          | _ => false
                          end) = true) by (vm_compute; reflexivity).
  pose proof (all_from_spec _ _ _ y A) as P. cbv beta in P.
  destruct (split "-" (year_text y)) as [|s [|? ?]];
    try (discriminate P; rewrite Z2Nat.id; lia).
  f_equal. apply String.eqb_eq, P. rewrite Z2Nat.id; lia.
Qed.

(** The label of a key made of a year and a month. *)
Lemma label_of_key (year : string) (m : Z) :
  split "-" year = [year] -> 0 <= m <= 11 ->
  MonthlyApplicantsChart.label (year ++ month_text m)
  = template (nth_error MonthlyApplicantsChart.monthNames (Z.to_nat m))
    ++ " " ++ year.
Proof.
  intros Hy Hm. unfold MonthlyApplicantsChart.label, month_text.
  change ("-" ++ ?x) with (String "-" x).
  rewrite (split_app "-" year _ Hy).
  assert (E : m = 0 \/ m = 1 \/ m = 2 \/ m = 3 \/ m = 4 \/ m = 5 \/ m = 6
              \/ m = 7 \/ m = 8 \/ m = 9 \/ m = 10 \/ m = 11) by lia.
  repeat (destruct E as [->|E]; [reflexivity|]). now subst m.
Qed.

Lemma monthNames_nth (m : Z) :
  0 <= m <= 11 ->
  exists name,
    nth_error MonthlyApplicantsChart.monthNames (Z.to_nat m) = Some name
    /\ String.length name = 3%nat.
Proof.
  intros H.
  assert (E : m = 0 \/ m = 1 \/ m = 2 \/ m = 3 \/ m = 4 \/ m = 5 \/ m = 6
              \/ m = 7 \/ m = 8 \/ m = 9 \/ m = 10 \/ m = 11) by lia.
  repeat (destruct E as [->|E]; [eexists; split; reflexivity|]).
  subst m. eexists; split; reflexivity.
Qed.

Lemma monthNames_injective (i j : nat) (name : string) :
  nth_error MonthlyApplicantsChart.monthNames i = Some name ->
  nth_error MonthlyApplicantsChart.monthNames j = Some name ->
  i = j.
Proof.
  intros Hi Hj.
  assert (Hnd : NoDup MonthlyApplicantsChart.monthNames).
  { unfold MonthlyApplicantsChart.monthNames.
    repeat (constructor; [simpl; intuition discriminate|]). constructor. }
  apply (proj1 (NoDup_nth_error _) Hnd).
  - apply nth_error_Some. now rewrite Hi.
  - now rewrite Hi, Hj.
Qed.

(** X13.  The monthly chart reads a month key back: for a timestamp with
    a four-digit local year, the label of its key is the English short
    name of its month, a space and the year. *)
Theorem label_reads_the_month_key (app : CreatedAtRow) (y m : Z) :
  in_calendar app y m ->
  exists name,
    nth_error MonthlyApplicantsChart.monthNames (Z.to_nat m) = Some name
    /\ MonthlyApplicantsChart.label (monthOf app) = name ++ " " ++ year_text y.
Proof.
  intros (L & Hy & Hm).
  destruct (monthNames_nth m Hm) as (name & Hname & _).
  exists name. split; [exact Hname|].
  rewrite (monthOf_calendar app y m L), label_of_key, Hname;
    [reflexivity | now apply year_text_whole | exact Hm].
Qed.

(** X13 for an application of February 2024. *)
Lemma label_reads_the_month_key_witness :
  exists name,
    nth_error MonthlyApplicantsChart.monthNames (Z.to_nat 1) = Some name
    /\ MonthlyApplicantsChart.label (monthOf {| created_at := at_month 40 2024 1 |})
       = name ++ " " ++ year_text 2024.
Proof.
  apply (label_reads_the_month_key {| created_at := at_month 40 2024 1 |} 2024 1).
  split; [reflexivity | lia].
Defined.

(** Labels tell months apart: for timestamps with four-digit local
    years, two month keys get the same label only when they are the same
    key. *)
Lemma labels_tell_months_apart (a b : CreatedAtRow) (ya ma yb mb : Z) :
  in_calendar a ya ma -> in_calendar b yb mb ->
  MonthlyApplicantsChart.label (monthOf a) = MonthlyApplicantsChart.label (monthOf b) ->
  monthOf a = monthOf b.
Proof.
  intros (La & Hya & Hma) (Lb & Hyb & Hmb).
  rewrite (monthOf_calendar a ya ma La), (monthOf_calendar b yb mb Lb).
  rewrite !label_of_key by (try apply year_text_whole; assumption).
  destruct (monthNames_nth ma Hma) as (na & Hna & Lna).
  destruct (monthNames_nth mb Hmb) as (nb & Hnb & Lnb).
  rewrite Hna, Hnb. simpl template. intros E.
  apply app_same_length in E; [|congruence].
  destruct E as [-> E]. injection E as E.
  assert (Z.to_nat ma = Z.to_nat mb) by (eapply monthNames_injective; eassumption).
  assert (ma = mb) by lia. subst mb.
  now rewrite E.
Qed.

(* ================================================================== *)
(** ** The by-job chart component *)
(* ================================================================== *)

Lemma substring_start_length (n : nat) (s : string) :
  String.length (substring 0 n s) = Nat.min n (String.length s).
Proof.
  revert s. induction n as [|n IH]; intros [|c s]; simpl; try reflexivity.
  now rewrite IH.
Qed.

Lemma substring_start_prefix (n : nat) (s : string) :
  prefix (substring 0 n s) s = true.
Proof.
  revert s. induction n as [|n IH]; intros [|c s]; simpl; try reflexivity.
  destruct (ascii_dec c c) as [_|H]; [apply IH | now contradiction H].
Qed.

Lemma shorten_length (job_title : string) :
  (String.length (JobMatchedChart.shorten job_title) <= 33)%nat.
Proof.
  unfold JobMatchedChart.shorten.
  destruct (Nat.ltb_spec 30 (String.length job_title)) as [Hlong|Hshort]; [|lia].
  rewrite text_length_app, substring_start_length.
  change (String.length "...") with 3%nat. lia.
Qed.

(** X14.  A title of at most 30 characters is shown as it is; a longer
    one is cut to its first 30 characters followed by three dots, so no
    label of the by-job chart has more than 33 characters. *)
Theorem long_titles_are_cut (job_title : string) :
  (String.length (JobMatchedChart.shorten job_title) <= 33)%nat
  /\ ((String.length job_title <= 30)%nat ->
      JobMatchedChart.shorten job_title = job_title)
  /\ ((30 < String.length job_title)%nat ->
      exists cut,
        prefix cut job_title = true /\ String.length cut = 30%nat
        /\ JobMatchedChart.shorten job_title = cut ++ "...").
Proof.
  split; [apply shorten_length|].
  unfold JobMatchedChart.shorten.
  destruct (Nat.ltb_spec 30 (String.length job_title)) as [Hlong|Hshort].
  - split.
    + lia.
    + intros _. exists (substring 0 30 job_title). split; [|split].
      * apply substring_start_prefix.
      * rewrite substring_start_length. lia.
      * reflexivity.
  - split; [reflexivity | lia].
Qed.

(** The rows of a by-job response, as the component shows them. *)
Lemma map_toJobData (groups : list JobRow.t) :
  map_or_throw JobMatchedChart.toJobData (map ByJob groups)
  = Resolved (map (fun g => {| JobMatchedChart.jobTitle :=
                                 JobMatchedChart.shorten (JobRow.job_title g);
                               JobMatchedChart.applications := JobRow.count g |})
                groups).
Proof.
  induction groups as [|g groups IH]; simpl; [reflexivity | now rewrite IH].
Qed.

Lemma map_toJobData_throws (rows : list AggregateRow) (r : MonthRow.t) :
  In (Monthly r) rows ->
  exists e, map_or_throw JobMatchedChart.toJobData rows = Rejected e.
Proof.
  induction rows as [|x rows IH]; intros Hin; [destruct Hin|].
  destruct x as [r'|g]; simpl.
  - now eexists.
  - destruct Hin as [Hin|Hin]; [discriminate|].
    destruct (IH Hin) as (e & ->). now eexists.
Qed.

(** X15.  Once the request of the by-job chart has settled the spinner is
    gone.  A failure envelope, a rejected request and a success whose
    first 8 rows include one without [job_title] all leave the data empty,
    so the component shows ["No data available"], as for an empty
    result. *)
Theorem job_chart_failure_shows_no_data (answer : Outcome Body) :
  JobMatchedChart.mounted answer <> JobMatchedChart.Loading
  /\ ((forall rows, answer <> Resolved (Success rows)) ->
      JobMatchedChart.mounted answer = JobMatchedChart.NoData)
  /\ (forall rows r,
        answer = Resolved (Success rows) ->
        In (Monthly r) (Js.slice_to 8 rows) ->
        JobMatchedChart.mounted answer = JobMatchedChart.NoData).
Proof.
  unfold JobMatchedChart.mounted, JobMatchedChart.render,
    JobMatchedChart.fetchJobData.
  cbn [JobMatchedChart.loading JobMatchedChart.data].
  split; [|split].
  - destruct (_ =? 0)%nat; discriminate.
  - intros H. destruct answer as [[rows|msg code]|e]; try reflexivity.
    now contradiction (H rows).
  - intros rows r -> Hin.
    destruct (map_toJobData_throws _ _ Hin) as (e & ->). reflexivity.
Qed.

(** The colours of the first bars. *)
Lemma cells_of_length (bars : list JobMatchedChart.JobData) :
  (List.length bars <= 8)%nat ->
  JobMatchedChart.cells bars
  = map Some (firstn (List.length bars) JobMatchedChart.COLORS).
Proof.
  unfold JobMatchedChart.cells. generalize (List.length bars). intros n Hn.
  do 9 (destruct n as [|n]; [reflexivity|]). lia.
Qed.

Lemma COLORS_NoDup : NoDup JobMatchedChart.COLORS.
Proof.
  unfold JobMatchedChart.COLORS.
  repeat (constructor; [simpl; intuition discriminate|]). constructor.
Qed.

Lemma first_rows_In {A} (n : nat) (l : list A) (x : A) :
  In x (firstn n l) -> In x l.
Proof.
  intros H. rewrite <- (firstn_skipn n l). apply in_or_app. now left.
Qed.

Lemma NoDup_firstn {A} (n : nat) (l : list A) : NoDup l -> NoDup (firstn n l).
Proof.
  revert n. induction l as [|x l IH]; intros [|n] H; simpl; try constructor.
  - inversion H; subst. intros Hin. apply first_rows_In in Hin. contradiction.
  - inversion H; subst. now apply IH.
Qed.


(** What the page shows is made from the rows of a by-job response. *)
Lemma job_page_bars (createClient : Outcome SupabaseClient)
    (bars : list JobMatchedChart.JobData) (fills : list (option string)) :
  JobMatchedChart.page createClient = JobMatchedChart.BarChart bars fills ->
  (exists response,
     snd (GET createClient (chart "by-job")) = Resolved response
     /\ status response = 200)
  /\ fills = JobMatchedChart.cells bars
  /\ bars <> []
  /\ exists applications,
       bars = map (fun g => {| JobMatchedChart.jobTitle :=
                                 JobMatchedChart.shorten (JobRow.job_title g);
                               JobMatchedChart.applications := JobRow.count g |})
                (firstn 8 (jobData applications)).
Proof.
  unfold JobMatchedChart.page, JobMatchedChart.mounted, JobMatchedChart.render,
    JobMatchedChart.fetchJobData.
  cbn [JobMatchedChart.loading JobMatchedChart.data].
  pose proof (GET_status createClient (chart "by-job")) as Hst.
  pose proof (GET_success_typed createClient (chart "by-job")) as Hrows.
  destruct (snd (GET createClient (chart "by-job"))) as [response|e];
    [|discriminate].
  specialize (Hst response eq_refl). destruct Hst as [_ Hst].
  specialize (Hrows response). cbn [response_json].
  destruct (body response) as [rows|msg code]; [|discriminate].
  specialize (Hrows rows eq_refl eq_refl).
  destruct Hrows as [->|[[Ht _]|[_ [applications ->]]]].
  - discriminate.
  - discriminate Ht.
  - unfold Js.slice_to. rewrite firstn_map, map_toJobData.
    match goal with
    | |- context [List.length ?l] => remember l as shown eqn:Es
    end.
    destruct shown as [|b shown]; [discriminate|]. cbn [List.length Nat.eqb].
    intros [= <- <-]. split; [exists response; split; [reflexivity | now apply Hst]|].
    split; [reflexivity|]. split.
    + discriminate.
    + now exists applications.
Qed.



Lemma NoDup_map_Some {A} (l : list A) : NoDup l -> NoDup (map Some l).
Proof.
  induction 1 as [|x l Hnot _ IH]; simpl; constructor; [|exact IH].
  intros Hin. apply in_map_iff in Hin. destruct Hin as (y & [= ->] & Hy).
  contradiction.
Qed.

(** X17.  The bars of the by-job chart are filled with the first colours
    of the palette, one each: cutting the response to 8 rows keeps the
    index below the length of [COLORS], so no colour is used twice. *)
Theorem bars_get_distinct_colours (createClient : Outcome SupabaseClient)
    (bars : list JobMatchedChart.JobData) (fills : list (option string)) :
  JobMatchedChart.page createClient = JobMatchedChart.BarChart bars fills ->
  fills = map Some (firstn (List.length bars) JobMatchedChart.COLORS)
  /\ NoDup fills.
Proof.
  intros H. apply job_page_bars in H.
  destruct H as (_ & -> & _ & applications & ->).
  assert (E : JobMatchedChart.cells
                (map (fun g => {| JobMatchedChart.jobTitle :=
                                    JobMatchedChart.shorten (JobRow.job_title g);
                                  JobMatchedChart.applications := JobRow.count g |})
                   (firstn 8 (jobData applications)))
              = map Some (firstn (List.length
                                    (map (fun g => {| JobMatchedChart.jobTitle :=
                                                        JobMatchedChart.shorten (JobRow.job_title g);
                                                      JobMatchedChart.applications := JobRow.count g |})
                                       (firstn 8 (jobData applications))))
                            JobMatchedChart.COLORS)).
  { apply cells_of_length. rewrite length_map, length_firstn. lia. }
  split; [exact E|]. rewrite E.
  apply NoDup_map_Some, NoDup_firstn, COLORS_NoDup.
Qed.

(** X17 on the sample store, seen by an ADMIN. *)
Lemma bars_get_distinct_colours_witness :
  NoDup [ Some "#22A555"; Some "#3b82f6" ].
Proof.
  exact (proj2 (bars_get_distinct_colours
                  (Resolved (Store.client (Some admin) sample_db))
                  [ {| JobMatchedChart.jobTitle := "Engineer";
                       JobMatchedChart.applications := 3 |};
                    {| JobMatchedChart.jobTitle := "Designer";
                       JobMatchedChart.applications := 1 |} ]
                  [ Some "#22A555"; Some "#3b82f6" ]
                  eq_refl)).
Defined.

(* ================================================================== *)
(** ** The monthly chart component *)
(* ================================================================== *)

(** The rows of a monthly response, as the component shows them. *)
Lemma map_toMonthlyData (rows : list MonthRow.t) :
  map_or_throw MonthlyApplicantsChart.toMonthlyData (map Monthly rows)
  = Resolved (map (fun r => {| MonthlyApplicantsChart.month :=
                                 MonthlyApplicantsChart.label (MonthRow.month r);
                               MonthlyApplicantsChart.applications := MonthRow.count r |})
                rows).
Proof.
  induction rows as [|r rows IH]; [reflexivity|].
  cbn [map map_or_throw MonthlyApplicantsChart.toMonthlyData]. now rewrite IH.
Qed.

Lemma map_toMonthlyData_throws (rows : list AggregateRow) (g : JobRow.t) :
  In (ByJob g) rows ->
  exists e, map_or_throw MonthlyApplicantsChart.toMonthlyData rows = Rejected e.
Proof.
  induction rows as [|x rows IH]; intros Hin; [destruct Hin|].
  destruct x as [r|g']; cbn [map_or_throw MonthlyApplicantsChart.toMonthlyData].
  - destruct Hin as [Hin|Hin]; [discriminate|].
    destruct (IH Hin) as (e & ->). now eexists.
  - now eexists.
Qed.

(** X18.  Once the request of the monthly chart has settled the spinner
    is gone.  A failure envelope, a rejected request and a success with a
    row without [month] all leave the data empty, so the component shows
    ["No data available"], as for an empty result. *)
Theorem monthly_chart_failure_shows_no_data (answer : Outcome Body) :
  MonthlyApplicantsChart.mounted answer <> MonthlyApplicantsChart.Loading
  /\ ((forall rows, answer <> Resolved (Success rows)) ->
      MonthlyApplicantsChart.mounted answer = MonthlyApplicantsChart.NoData)
  /\ (forall rows g,
        answer = Resolved (Success rows) ->
        In (ByJob g) rows ->
        MonthlyApplicantsChart.mounted answer = MonthlyApplicantsChart.NoData).
Proof.
  unfold MonthlyApplicantsChart.mounted, MonthlyApplicantsChart.render,
    MonthlyApplicantsChart.fetchMonthlyData.
  cbn [MonthlyApplicantsChart.loading MonthlyApplicantsChart.data].
  split; [|split].
  - destruct (_ =? 0)%nat; discriminate.
  - intros H. destruct answer as [[rows|msg code]|e]; try reflexivity.
    now contradiction (H rows).
  - intros rows g -> Hin.
    destruct (map_toMonthlyData_throws _ _ Hin) as (e & ->). reflexivity.
Qed.

(** What the component draws for the rows of a monthly response. *)
Lemma monthly_points (applications : option (list CreatedAtRow))
    (points : list MonthlyApplicantsChart.MonthlyData) :
  MonthlyApplicantsChart.mounted
    (Resolved (Success (map Monthly (monthlyData applications))))
  = MonthlyApplicantsChart.LineChart points ->
  points <> []
  /\ points = map (fun r => {| MonthlyApplicantsChart.month :=
                                 MonthlyApplicantsChart.label (MonthRow.month r);
                               MonthlyApplicantsChart.applications := MonthRow.count r |})
                (monthlyData applications).
Proof.
  unfold MonthlyApplicantsChart.mounted, MonthlyApplicantsChart.render,
    MonthlyApplicantsChart.fetchMonthlyData.
  cbn [MonthlyApplicantsChart.loading MonthlyApplicantsChart.data].
  rewrite map_toMonthlyData.
  match goal with
  | |- context [List.length ?l] => remember l as shown eqn:Es
  end.
  destruct shown as [|p shown]; [discriminate|]. cbn [List.length Nat.eqb].
  intros [= <-]. split; [discriminate | reflexivity].
Qed.




Lemma NoDup_map_on {A B} (f : A -> B) (l : list A) :
  (forall x y, In x l -> In y l -> f x = f y -> x = y) ->
  NoDup l -> NoDup (map f l).
Proof.
  intros Hinj. induction 1 as [|x l Hnot Hnd IH]; simpl; constructor.
  - intros Hin. apply in_map_iff in Hin. destruct Hin as (y & E & Hy).
    assert (y = x) by (apply Hinj; [now right | now left | exact E]).
    subst y. contradiction.
  - apply IH. intros a b Ha Hb. apply Hinj; now right.
Qed.

(** A row of the monthly response stands for a fetched application. *)
Lemma monthlyData_row (applications : option (list CreatedAtRow)) (r : MonthRow.t) :
  In r (monthlyData applications) ->
  exists a, In a (fetched applications) /\ monthOf a = MonthRow.month r.
Proof.
  intros H. apply monthlyData_In in H. destruct H as [Hc Hpos].
  apply applications_in_pos. lia.
Qed.

(** X20.  When every fetched timestamp has a four-digit local year, the
    points drawn for a monthly response are labelled with a month name
    and a year, no two points share a label, and each point carries the
    number of fetched applications of its month. *)
Theorem monthly_points_are_months (applications : option (list CreatedAtRow))
    (points : list MonthlyApplicantsChart.MonthlyData) :
  (forall a, In a (fetched applications) -> exists y m, in_calendar a y m) ->
  MonthlyApplicantsChart.mounted
    (Resolved (Success (map Monthly (monthlyData applications))))
  = MonthlyApplicantsChart.LineChart points ->
  NoDup (map MonthlyApplicantsChart.month points)
  /\ Forall (fun p =>
               exists a y m name,
                 In a (fetched applications) /\ in_calendar a y m
                 /\ nth_error MonthlyApplicantsChart.monthNames (Z.to_nat m) = Some name
                 /\ MonthlyApplicantsChart.month p = name ++ " " ++ year_text y
                 /\ MonthlyApplicantsChart.applications p
                    = applications_in (monthOf a) (fetched applications))
       points.
Proof.
  intros Hcal H. apply monthly_points in H. destruct H as (_ & ->). split.
  - rewrite map_map. cbn [MonthlyApplicantsChart.month].
    rewrite <- (map_map MonthRow.month MonthlyApplicantsChart.label).
    apply NoDup_map_on; [|apply monthlyData_NoDup].
    intros k1 k2 H1 H2 E.
    apply in_map_iff in H1, H2.
    destruct H1 as (r1 & <- & H1). destruct H2 as (r2 & <- & H2).
    destruct (monthlyData_row _ _ H1) as (a1 & Ha1 & E1).
    destruct (monthlyData_row _ _ H2) as (a2 & Ha2 & E2).
    destruct (Hcal a1 Ha1) as (y1 & m1 & C1).
    destruct (Hcal a2 Ha2) as (y2 & m2 & C2).
    rewrite <- E1, <- E2 in *.
    exact (labels_tell_months_apart a1 a2 y1 m1 y2 m2 C1 C2 E).
  - rewrite Forall_map. apply Forall_forall. intros r Hr.
    cbn [MonthlyApplicantsChart.month MonthlyApplicantsChart.applications].
    destruct (monthlyData_row _ _ Hr) as (a & Ha & E).
    destruct (Hcal a Ha) as (y & m & C).
    pose proof C as (L & Hy & Hm).
    destruct (monthNames_nth m Hm) as (name & Hname & _).
    exists a, y, m, name.
    split; [exact Ha|]. split; [exact C|]. split; [exact Hname|]. split.
    + rewrite <- E, (monthOf_calendar a y m L), label_of_key, Hname;
        [reflexivity | now apply year_text_whole | exact Hm].
    + rewrite E. apply monthlyData_In in Hr. tauto.
Qed.

(** X20 for one application in January 2024 and one in February 2024. *)
Lemma monthly_points_are_months_witness :
  NoDup ["Jan 2024"; "Feb 2024"].
Proof.
  assert (Hcal : forall a,
             In a (fetched (Some [ {| created_at := at_month 10 2024 0 |};
                                   {| created_at := at_month 40 2024 1 |} ])) ->
             exists y m, in_calendar a y m).
  { intros a [<-|[<-|[]]]; [exists 2024, 0 | exists 2024, 1];
      (split; [reflexivity | lia]). }
  exact (proj1 (monthly_points_are_months
                  (Some [ {| created_at := at_month 10 2024 0 |};
                          {| created_at := at_month 40 2024 1 |} ])
                  [ {| MonthlyApplicantsChart.month := "Jan 2024";
                       MonthlyApplicantsChart.applications := 1 |};
                    {| MonthlyApplicantsChart.month := "Feb 2024";
                       MonthlyApplicantsChart.applications := 1 |} ]
                  Hcal eq_refl)).
Defined.

(* ================================================================== *)
(** ** Timestamps that are no dates *)
(* ================================================================== *)

Lemma invalid_date_key (a : CreatedAtRow) :
  local (created_at a) = None -> monthOf a = "NaN-NaN".
Proof.
  intros H. unfold monthOf, monthKey, getFullYear, getMonth, Date_new.
  cbn [date_fields]. rewrite H. reflexivity.
Qed.

Lemma calendar_key_before_NaN (b : CreatedAtRow) (y m : Z) :
  in_calendar b y m -> earlier (monthOf b) "NaN-NaN".
Proof.
  intros (L & Hy & Hm). rewrite (monthOf_calendar b y m L). unfold earlier.
  change "NaN-NaN" with ("NaN-" ++ "NaN").
  rewrite compare_app by (now rewrite year_text_length).
  assert (A : all_from (Z.to_nat 9000) 1000
                (fun y => match String.compare (year_text y) "NaN-" with
                          | Lt => true
                          | _ => false
                          end) = true) by (vm_compute; reflexivity).
  pose proof (all_from_spec _ _ _ y A) as P. cbv beta in P.
  destruct (String.compare (year_text y) "NaN-"); try reflexivity;
    discriminate P; rewrite Z2Nat.id; lia.
Qed.

(** In a strictly sorted list, an element that no other exceeds is the
    last one. *)
Lemma greatest_is_last {A} (R : A -> A -> Prop) (l : list A) (x : A) :
  (forall a, ~ R a a) ->
  (forall a b c, R a b -> R b c -> R a c) ->
  StronglySorted R l -> In x l ->
  (forall y, In y l -> y = x \/ R y x) ->
  exists front, l = (front ++ [x])%list.
Proof.
  intros Hirr Htrans Hs. induction Hs as [|z l Hs IH Hall]; intros Hin Hmax.
  - destruct Hin.
  - destruct l as [|w l].
    + destruct Hin as [->|[]]. now exists [].
    + assert (Hx : In x (w :: l)).
      { destruct Hin as [->|Hin]; [|exact Hin]. exfalso.
        rewrite Forall_forall in Hall.
        assert (Hw : In w (w :: l)) by now left.
        destruct (Hmax w (or_intror Hw)) as [->|Hwx].
        - exact (Hirr x (Hall x Hw)).
        - exact (Hirr x (Htrans _ _ _ (Hall w Hw) Hwx)). }
      destruct (IH Hx) as (front & E).
      { intros y Hy. apply Hmax. now right. }
      exists (z :: front). simpl. now rewrite E.
Qed.

Lemma slice_from_end_last {A} (n : nat) (front : list A) (x : A) :
  (1 <= n)%nat ->
  Js.slice_from_end n (front ++ [x])
  = (Js.slice_from_end (n - 1) front ++ [x])%list.
Proof.
  intros Hn. unfold Js.slice_from_end.
  rewrite length_app, skipn_app. cbn [List.length].
  replace (List.length front + 1 - n)%nat with (List.length front - (n - 1))%nat by lia.
  replace (List.length front - (n - 1) - List.length front)%nat with 0%nat by lia.
  reflexivity.
Qed.

(** X21.  Applications whose timestamp is no date are counted together
    under the key ["NaN-NaN"].  When the other timestamps have four-digit
    local years that key sorts after every month, so its row is the last
    row of the response and is never cut off by the limit to 12 rows; the
    monthly chart labels it ["undefined NaN"]. *)
Theorem invalid_dates_form_the_last_row
    (applications : option (list CreatedAtRow)) (a : CreatedAtRow) :
  In a (fetched applications) ->
  local (created_at a) = None ->
  (forall b, In b (fetched applications) ->
     local (created_at b) = None \/ exists y m, in_calendar b y m) ->
  monthOf a = "NaN-NaN"
  /\ (exists rows,
        monthlyData applications
        = (rows ++ [MonthRow.mk "NaN-NaN"
                      (applications_in "NaN-NaN" (fetched applications))])%list)
  /\ MonthlyApplicantsChart.label (monthOf a) = "undefined NaN".
Proof.
  intros Ha Hinv Hall. pose proof (invalid_date_key a Hinv) as Hkey.
  split; [exact Hkey|]. split; [|now rewrite Hkey].
  set (last_row := MonthRow.mk "NaN-NaN"
                     (applications_in "NaN-NaN" (fetched applications))).
  assert (Hin : In last_row (monthlySorted applications)).
  { apply monthlySorted_In. unfold last_row. cbn [MonthRow.month MonthRow.count].
    split; [reflexivity|].
    assert (0 < applications_in "NaN-NaN" (fetched applications)); [|lia].
    apply applications_in_pos. now exists a. }
  destruct (greatest_is_last
              (fun x y => earlier (MonthRow.month x) (MonthRow.month y))
              (monthlySorted applications) last_row) as (front & E).
  - intros x. unfold earlier. now rewrite compare_refl.
  - intros x y z. apply earlier_trans.
  - apply monthlySorted_ascending.
  - exact Hin.
  - intros r Hr. pose proof Hr as Hr'.
    apply monthlySorted_In in Hr'. destruct Hr' as [Hc _].
    assert (Hk : In (MonthRow.month r) (map MonthRow.month (monthlySorted applications)))
      by (apply in_map; exact Hr).
    apply monthlySorted_month, distinct_months_In in Hk.
    destruct Hk as (b & Hb & Eb).
    destruct (Hall b Hb) as [Hnone|(y & m & Hcal)].
    + left. apply invalid_date_key in Hnone. rewrite Hnone in Eb.
      destruct r as [k c]. cbn [MonthRow.month MonthRow.count] in *. subst k.
      unfold last_row. now rewrite Hc.
    + right. rewrite <- Eb. cbn [MonthRow.month last_row].
      now apply (calendar_key_before_NaN b y m).
  - unfold monthlyData. rewrite E, slice_from_end_last by lia.
    now eexists.
Qed.

(** X21 for one application in January 2024 and one without a date. *)
Lemma invalid_dates_form_the_last_row_witness :
  MonthlyApplicantsChart.label
    (monthOf {| created_at := {| instant := 50; local := None |} |})
  = "undefined NaN".
Proof.
  assert (Hall : forall b,
             In b (fetched (Some [ {| created_at := at_month 10 2024 0 |};
                                   {| created_at := {| instant := 50; local := None |} |} ])) ->
             local (created_at b) = None \/ exists y m, in_calendar b y m).
  { intros b [<-|[<-|[]]]; [right | now left].
    exists 2024, 0. split; [reflexivity | lia]. }
  exact (proj2 (proj2 (invalid_dates_form_the_last_row
                         (Some [ {| created_at := at_month 10 2024 0 |};
                                 {| created_at := {| instant := 50; local := None |} |} ])
                         {| created_at := {| instant := 50; local := None |} |}
                         (or_intror (or_introl eq_refl)) eq_refl Hall))).
Defined.

(* ================================================================== *)
(** ** Faults the [catch] block does not survive *)
(* ================================================================== *)


